(** * The map-processor registry of main/map_proc.c

    A shallow embedding of [map_proc_cmp], [_map_proc_unregister],
    [map_proc_find], [map_proc_free], [map_proc_register],
    [map_proc_instantiate] and [map_proc], over an explicit program state
    (talloc chunks, the process-wide [map_proc_root], the modules' own
    world), followed by the properties of the registry, of instance
    construction and of evaluation. *)

From Stdlib Require Import ZArith Lia.
From Stdlib.Strings Require Import Byte.
From stdpp Require Import base option list gmap.

Local Open Scope Z_scope.

(** ** Machine integers and pointers *)

(** A pointer is an address; [NULL] is address 0.  Function pointers
    ([map_proc_func_t], [map_proc_instantiate_t], [xlat_escape_t]) are
    addresses as well. *)
Abbreviation ptr := N (only parsing).
Definition NULL : ptr := 0%N.

(** Conversion to [int] (32 bits, two's complement). *)
Definition to_int (z : Z) : Z := (z + 2 ^ 31) mod 2 ^ 32 - 2 ^ 31.

(** Conversion of an [int] to [size_t] (64 bits, unsigned). *)
Definition to_size_t (z : Z) : Z := z mod 2 ^ 64.

Definition byte_val (b : byte) : Z := Z.of_N (Byte.to_N b).

(** ** The C library on strings

    A [char const *] argument is given by the bytes found at the address;
    the string it denotes stops before the first NUL byte (or at the end of
    the list, where the terminator is implied). *)
Fixpoint c_str (mem : list byte) : list byte :=
  match mem with
  | [] => []
  | b :: rest => if Byte.eqb b x00 then [] else b :: c_str rest
  end.

Definition strlen (mem : list byte) : nat := length (c_str mem).

(** [strlcpy(dst, src, size)]: at most [size - 1] bytes of the string at
    [src] are copied and a terminator is written after them.  The result is
    the string held by [dst] afterwards. *)
Definition strlcpy (src : list byte) (size : nat) : list byte :=
  take (size - 1) (c_str src).

(** [memcmp(a, b, n)] over two buffers whose bytes past the end of the list
    are zero (a [talloc_zero]ed struct, or the terminator of a string).  The
    sign of the result is the order of the first differing bytes, compared
    as [unsigned char]. *)
Fixpoint memcmp (a b : list byte) (n : nat) : Z :=
  match n with
  | O => 0
  | S n' =>
      let x := byte_val (hd x00 a) in
      let y := byte_val (hd x00 b) in
      if x =? y then memcmp (tl a) (tl b) n' else x - y
  end.

(** ** struct map_proc and struct map_proc_inst *)

Module Proc.
Record map_proc_t := Build {
  mod_inst : ptr;            (* Module instance. *)
  name : list byte;          (* Name of the map function (the string in
                                the [FR_MAX_STRING_LEN] byte buffer). *)
  length : Z;                (* Length of name. *)
  evaluate : ptr;            (* Module's map processor function. *)
  instantiate : ptr;         (* Callback to create new instance struct. *)
  escape : ptr;              (* Escape function. *)
  inst_size : N              (* Size of instance data to allocate. *)
}.
End Proc.
Abbreviation map_proc_t := Proc.map_proc_t.

Module Inst.
Record map_proc_inst_t := Build {
  proc : ptr;                (* Map processor. *)
  src : ptr;                 (* Source template. *)
  maps : ptr;                (* Head of the map list. *)
  data : ptr                 (* Instance data. *)
}.
End Inst.
Abbreviation map_proc_inst_t := Inst.map_proc_inst_t.

(** Compare two map_proc_t structs, based ONLY on the name. *)
Definition map_proc_cmp (a b : map_proc_t) : Z :=
  if negb (Proc.length a =? Proc.length b)
  then to_int (Proc.length a - Proc.length b)
  else memcmp (Proc.name a) (Proc.name b) (Z.to_nat (to_size_t (Proc.length a))).

(** ** Result codes *)

(** Modelled from the spec: the result-code enumeration [rlm_rcode_t], which
    is declared outside this file ("a small closed enumeration including at
    least OK, FAIL, REJECT, HANDLED, INVALID, NOTFOUND, NOOP, UPDATED"). *)
Inductive rlm_rcode_t :=
  | RLM_MODULE_REJECT
  | RLM_MODULE_FAIL
  | RLM_MODULE_OK
  | RLM_MODULE_HANDLED
  | RLM_MODULE_INVALID
  | RLM_MODULE_NOTFOUND
  | RLM_MODULE_NOOP
  | RLM_MODULE_UPDATED.

(** ** Program state *)

(** What a talloc chunk holds. *)
Inductive payload :=
  | PProc (p : map_proc_t)
  | PInst (i : map_proc_inst_t)
  | PBytes (b : list byte)
  | PString (v : list byte).

(** A talloc chunk: its parent context, whether [_map_proc_unregister] is set
    as its destructor, and its contents. *)
Record chunk := Chunk {
  c_parent : ptr;
  c_destructor : bool;
  c_payload : payload
}.

(** Modelled from the spec: the ordered structure behind the registry
    ([rbtree_t] of lib/rbtree.c, an external collaborator of this file).  A
    tree is given by its replace flag and the in-order sequence of the data
    pointers of its nodes; the comparator of the one tree of this file is
    [map_proc_cmp]. *)
Record rbtree_t := Tree {
  rb_replace : bool;
  rb_nodes : list ptr
}.

(** Calls made through the callbacks of a descriptor. *)
Inductive event :=
  | EvInstantiate (fn data mod_inst src maps : ptr)
  | EvEvaluate (fn mod_inst data request : ptr) (value : list byte) (maps : ptr).

Definition is_evaluate (e : event) : bool :=
  match e with EvEvaluate _ _ _ _ _ _ => true | _ => false end.

Definition evaluate_calls (l : list event) : nat :=
  length (filter (fun e => is_evaluate e = true) l).

(** The state of the process: the talloc chunks, the next fresh address, the
    outcome of the allocation requests to come ([false]: the allocator
    returns NULL; past the end of the script memory is available), the
    static [map_proc_root], the calls made so far, and the state [W] of the
    modules and of the rest of the server (which includes what a module
    writes through the opaque instance-data pointer it is handed). *)
Record state (W : Type) := State {
  heap : gmap ptr chunk;
  brk : ptr;
  script : list bool;
  map_proc_root : option rbtree_t;
  log : list event;
  world : W
}.
Arguments State {W}.
Arguments heap {W}.
Arguments brk {W}.
Arguments script {W}.
Arguments map_proc_root {W}.
Arguments log {W}.
Arguments world {W}.

(** How a call can end without returning: a bad memory access, or
    [rad_assert_fail]. *)
Inductive fault := SIGSEGV | SIGABRT.

Inductive outcome (W A : Type) :=
  | Done (a : A) (s : state W)
  | Fault (f : fault).
Arguments Done {W A}.
Arguments Fault {W A}.

Definition M (W A : Type) : Type := state W -> outcome W A.

Definition ret {W A} (a : A) : M W A := fun s => Done a s.

Definition bind {W A B} (m : M W A) (k : A -> M W B) : M W B :=
  fun s => match m s with
           | Done a s' => k a s'
           | Fault f => Fault f
           end.

Declare Scope c_scope.
Delimit Scope c_scope with C.
Notation "'let*' x := m 'in' k" := (bind m (fun x => k))
  (at level 10, x pattern, m at level 100, k at level 200) : c_scope.
Notation "m ;; k" := (bind m (fun _ => k))
  (at level 100, k at level 200, right associativity) : c_scope.

Definition crash {W A} (f : fault) : M W A := fun _ => Fault f.

(** What the file is compiled and linked against: the size of the name
    buffer, whether [rad_assert] is compiled out, the code behind the
    function pointers of the modules, and the template expansion engine.
    Callbacks act on the world [W] only. *)
Record env (W : Type) := Env {
  FR_MAX_STRING_LEN : nat;
  NDEBUG : bool;
  call_instantiate : ptr -> ptr -> ptr -> ptr -> ptr -> W -> Z * W;
  call_evaluate : ptr -> ptr -> ptr -> ptr -> list byte -> ptr -> W -> rlm_rcode_t * W;
  xlat_expand : ptr -> ptr -> ptr -> ptr -> W -> option (list byte) * W
}.
Arguments FR_MAX_STRING_LEN {W}.
Arguments NDEBUG {W}.
Arguments call_instantiate {W}.
Arguments call_evaluate {W}.
Arguments xlat_expand {W}.

Section Program.
Context {W : Type} (E : env W).
Local Open Scope c_scope.

(** *** State accessors *)

Definition with_heap (f : gmap ptr chunk -> gmap ptr chunk) : M W unit :=
  fun s => Done tt (State (f (heap s)) (brk s) (script s) (map_proc_root s) (log s) (world s)).

Definition set_root (t : option rbtree_t) : M W unit :=
  fun s => Done tt (State (heap s) (brk s) (script s) t (log s) (world s)).

Definition get_root : M W (option rbtree_t) := fun s => Done (map_proc_root s) s.

(** One allocation request: the head of the script decides it. *)
Definition malloc_ok : M W bool :=
  fun s => Done (hd true (script s))
                (State (heap s) (brk s) (tl (script s)) (map_proc_root s) (log s) (world s)).

(** *** talloc *)

(** [talloc_zero(ctx, type)] and [talloc_zero_array(ctx, type, count)]: a
    fresh chunk under [ctx] holding the zeroed value [v], or NULL. *)
Definition talloc (ctx : ptr) (v : payload) : M W ptr :=
  let* ok := malloc_ok in
  if ok then
    fun s => Done (brk s)
                  (State (<[brk s := Chunk ctx false v]> (heap s)) (N.succ (brk s))
                         (script s) (map_proc_root s) (log s) (world s))
  else ret NULL.

Definition zero_map_proc_t : map_proc_t := Proc.Build NULL [] 0 NULL NULL NULL 0%N.
Definition zero_map_proc_inst_t : map_proc_inst_t := Inst.Build NULL NULL NULL NULL.

Definition talloc_zero_map_proc_t (ctx : ptr) : M W ptr :=
  talloc ctx (PProc zero_map_proc_t).

Definition talloc_zero_map_proc_inst_t (ctx : ptr) : M W ptr :=
  talloc ctx (PInst zero_map_proc_inst_t).

Definition talloc_zero_array_uint8_t (ctx : ptr) (count : N) : M W ptr :=
  talloc ctx (PBytes (replicate (N.to_nat count) x00)).

(** Whether chunk [q] is [top] or hangs under it in the talloc hierarchy. *)
Fixpoint hangs_under (h : gmap ptr chunk) (fuel : nat) (top q : ptr) : bool :=
  if (q =? NULL)%N then false
  else if (q =? top)%N then true
  else match fuel with
       | O => false
       | S fuel' =>
           match h !! q with
           | Some c => hangs_under h fuel' top (c_parent c)
           | None => false
           end
       end.

(** [talloc_free(p)]: the chunk and everything under it is released.  None
    of the chunks this file frees (a descriptor before its destructor is
    attached, an instance with its buffer, an expanded string) has a
    destructor to run. *)
Definition talloc_free (p : ptr) : M W Z :=
  fun s =>
    if (p =? NULL)%N then Done (-1) s
    else
      let h := heap s in
      let h' := filter (fun kc => hangs_under h (S (size h)) p kc.1 = false) h in
      Done 0 (State h' (brk s) (script s) (map_proc_root s) (log s) (world s)).

(** *** Access through pointers

    An access through NULL, or through a pointer that leads to no chunk or
    to a chunk of another type, is a bad memory access. *)

Definition load (p : ptr) : M W chunk :=
  fun s => match heap s !! p with
           | Some c => Done c s
           | None => Fault SIGSEGV
           end.

Definition load_proc (p : ptr) : M W map_proc_t :=
  let* c := load p in
  match c_payload c with PProc d => ret d | _ => crash SIGSEGV end.

Definition load_inst (p : ptr) : M W map_proc_inst_t :=
  let* c := load p in
  match c_payload c with PInst i => ret i | _ => crash SIGSEGV end.

Definition load_string (p : ptr) : M W (list byte) :=
  let* c := load p in
  match c_payload c with PString v => ret v | _ => crash SIGSEGV end.

(** An assignment to fields of [*p]. *)
Definition store_proc (p : ptr) (f : map_proc_t -> map_proc_t) : M W unit :=
  let* c := load p in
  match c_payload c with
  | PProc d => with_heap <[p := Chunk (c_parent c) (c_destructor c) (PProc (f d))]>
  | _ => crash SIGSEGV
  end.

Definition store_inst (p : ptr) (f : map_proc_inst_t -> map_proc_inst_t) : M W unit :=
  let* c := load p in
  match c_payload c with
  | PInst i => with_heap <[p := Chunk (c_parent c) (c_destructor c) (PInst (f i))]>
  | _ => crash SIGSEGV
  end.

(** [talloc_set_destructor(proc, _map_proc_unregister)]. *)
Definition talloc_set_destructor (p : ptr) : M W unit :=
  let* c := load p in
  with_heap <[p := Chunk (c_parent c) true (c_payload c)]>.

Definition set_name (v : list byte) (d : map_proc_t) : map_proc_t :=
  Proc.Build (Proc.mod_inst d) v (Proc.length d) (Proc.evaluate d)
             (Proc.instantiate d) (Proc.escape d) (Proc.inst_size d).
Definition set_length (v : Z) (d : map_proc_t) : map_proc_t :=
  Proc.Build (Proc.mod_inst d) (Proc.name d) v (Proc.evaluate d)
             (Proc.instantiate d) (Proc.escape d) (Proc.inst_size d).
Definition set_mod_inst (v : ptr) (d : map_proc_t) : map_proc_t :=
  Proc.Build v (Proc.name d) (Proc.length d) (Proc.evaluate d)
             (Proc.instantiate d) (Proc.escape d) (Proc.inst_size d).
Definition set_evaluate (v : ptr) (d : map_proc_t) : map_proc_t :=
  Proc.Build (Proc.mod_inst d) (Proc.name d) (Proc.length d) v
             (Proc.instantiate d) (Proc.escape d) (Proc.inst_size d).
Definition set_instantiate (v : ptr) (d : map_proc_t) : map_proc_t :=
  Proc.Build (Proc.mod_inst d) (Proc.name d) (Proc.length d) (Proc.evaluate d)
             v (Proc.escape d) (Proc.inst_size d).
Definition set_escape (v : ptr) (d : map_proc_t) : map_proc_t :=
  Proc.Build (Proc.mod_inst d) (Proc.name d) (Proc.length d) (Proc.evaluate d)
             (Proc.instantiate d) v (Proc.inst_size d).
Definition set_inst_size (v : N) (d : map_proc_t) : map_proc_t :=
  Proc.Build (Proc.mod_inst d) (Proc.name d) (Proc.length d) (Proc.evaluate d)
             (Proc.instantiate d) (Proc.escape d) v.

Definition set_proc (v : ptr) (i : map_proc_inst_t) : map_proc_inst_t :=
  Inst.Build v (Inst.src i) (Inst.maps i) (Inst.data i).
Definition set_src (v : ptr) (i : map_proc_inst_t) : map_proc_inst_t :=
  Inst.Build (Inst.proc i) v (Inst.maps i) (Inst.data i).
Definition set_maps (v : ptr) (i : map_proc_inst_t) : map_proc_inst_t :=
  Inst.Build (Inst.proc i) (Inst.src i) v (Inst.data i).
Definition set_data (v : ptr) (i : map_proc_inst_t) : map_proc_inst_t :=
  Inst.Build (Inst.proc i) (Inst.src i) (Inst.maps i) v.

(** *** The ordered structure

    The functions of lib/rbtree.c called by this file.  The tree keeps its
    nodes in the order of its comparator and finds, replaces or deletes the
    node whose data compares equal to the key.  Its own storage is not kept
    among the chunks; only the outcome of its allocation requests is. *)

(** Modelled from the spec: [rbtree_create] of lib/rbtree.c ("lazily
    initializes the underlying ordered structure"); an empty tree, or NULL
    when it cannot be allocated. *)
Definition rbtree_create (replace : bool) : M W (option rbtree_t) :=
  let* ok := malloc_ok in
  ret (if ok then Some (Tree replace []) else None).

(** Modelled from the spec: the search of lib/rbtree.c for the node that
    compares equal to a key ("no entry matches under the ordering rule"). *)
Fixpoint rb_find (compare : map_proc_t -> map_proc_t -> Z) (key : map_proc_t)
    (nodes : list ptr) : M W ptr :=
  match nodes with
  | [] => ret NULL
  | d :: rest =>
      let* b := load_proc d in
      if compare key b =? 0 then ret d else rb_find compare key rest
  end.

(** Modelled from the spec: the insertion of lib/rbtree.c, at the place the
    comparator gives; on an equal node the data is replaced when the tree
    replaces, and refused otherwise; a new node needs memory ("returns a
    failure if tree insertion fails (e.g., allocation failure)"). *)
Fixpoint rb_insert (compare : map_proc_t -> map_proc_t -> Z) (replace : bool)
    (key : map_proc_t) (data : ptr) (nodes : list ptr) : M W (option (list ptr)) :=
  match nodes with
  | [] =>
      let* ok := malloc_ok in
      ret (if ok then Some [data] else None)
  | d :: rest =>
      let* b := load_proc d in
      let c := compare key b in
      if c =? 0 then ret (if replace then Some (data :: rest) else None)
      else if c <? 0 then
        let* ok := malloc_ok in
        ret (if ok then Some (data :: d :: rest) else None)
      else
        let* r := rb_insert compare replace key data rest in
        ret (cons d <$> r)
  end.

(** Modelled from the spec: the deletion of lib/rbtree.c of the node that
    compares equal to a key ("removes the matching node"). *)
Fixpoint rb_delete (compare : map_proc_t -> map_proc_t -> Z) (key : map_proc_t)
    (nodes : list ptr) : M W (option (list ptr)) :=
  match nodes with
  | [] => ret None
  | d :: rest =>
      let* b := load_proc d in
      if compare key b =? 0 then ret (Some rest)
      else
        let* r := rb_delete compare key rest in
        ret (cons d <$> r)
  end.

(** Modelled from the spec: [rbtree_finddata] of lib/rbtree.c.  The tree
    argument, here and in the two operations below, is the one
    [map_proc_root] points to, created with [map_proc_cmp] as comparator; a
    NULL tree is dereferenced. *)
Definition rbtree_finddata (key : map_proc_t) : M W ptr :=
  let* root := get_root in
  match root with
  | None => crash SIGSEGV
  | Some t => rb_find map_proc_cmp key (rb_nodes t)
  end.

(** Modelled from the spec: [rbtree_insert_node] of lib/rbtree.c.  Returns
    whether a node was obtained. *)
Definition rbtree_insert_node (data : ptr) : M W bool :=
  let* root := get_root in
  match root with
  | None => crash SIGSEGV
  | Some t =>
      let* key := load_proc data in
      let* r := rb_insert map_proc_cmp (rb_replace t) key data (rb_nodes t) in
      match r with
      | Some nodes => set_root (Some (Tree (rb_replace t) nodes)) ;; ret true
      | None => ret false
      end
  end.

(** Modelled from the spec: [rbtree_deletebydata] of lib/rbtree.c.  Returns
    whether a node was deleted. *)
Definition rbtree_deletebydata (data : ptr) : M W bool :=
  let* root := get_root in
  match root with
  | None => crash SIGSEGV
  | Some t =>
      let* key := load_proc data in
      let* r := rb_delete map_proc_cmp key (rb_nodes t) in
      match r with
      | Some nodes => set_root (Some (Tree (rb_replace t) nodes)) ;; ret true
      | None => ret false
      end
  end.

(** *** Collaborators *)

(** [rad_assert(expr)], a macro of rad_assert.h: nothing when compiled with
    NDEBUG, otherwise [rad_assert_fail] ends the process when [expr] is
    false. *)
Definition rad_assert (expr : bool) : M W unit :=
  if NDEBUG E then ret tt
  else if expr then ret tt else crash SIGABRT.

(** A call through a function pointer of a descriptor. *)
Definition invoke_instantiate (fn data mod_inst src maps : ptr) : M W Z :=
  if (fn =? NULL)%N then crash SIGSEGV
  else fun s =>
    let '(rc, w) := call_instantiate E fn data mod_inst src maps (world s) in
    Done rc (State (heap s) (brk s) (script s) (map_proc_root s)
                   (log s ++ [EvInstantiate fn data mod_inst src maps]) w).

Definition invoke_evaluate (fn mod_inst data request : ptr) (value : list byte)
    (maps : ptr) : M W rlm_rcode_t :=
  if (fn =? NULL)%N then crash SIGSEGV
  else fun s =>
    let '(rcode, w) := call_evaluate E fn mod_inst data request value maps (world s) in
    Done rcode (State (heap s) (brk s) (script s) (map_proc_root s)
                      (log s ++ [EvEvaluate fn mod_inst data request value maps]) w).

(** Modelled from the spec: [tmpl_aexpand] of main/tmpl.c, the template
    expansion engine ("expand(template, context, escape) -> string | Error",
    producing an owned transient string).  The length of the string and the
    string, allocated under [ctx], or a negative length. *)
Definition tmpl_aexpand (ctx request vpt escape escape_ctx : ptr) : M W (Z * ptr) :=
  let* r := (fun s =>
    let '(r, w) := xlat_expand E request vpt escape escape_ctx (world s) in
    Done r (State (heap s) (brk s) (script s) (map_proc_root s) (log s) w)) in
  match r with
  | None => ret (-1, NULL)
  | Some v =>
      let* out := talloc ctx (PString v) in
      if (out =? NULL)%N then ret (-1, NULL) else ret (Z.of_nat (length v), out)
  end.

(** *** main/map_proc.c *)

(** The [map_proc_t find] on the stack of [_map_proc_unregister] and
    [map_proc_find], after [strlcpy(find.name, name, sizeof(find.name))] and
    [find.length = strlen(find.name)].  Its other fields are not
    initialised and never read. *)
Definition find_key (name : list byte) : map_proc_t :=
  let find_name := strlcpy name (FR_MAX_STRING_LEN E) in
  Proc.Build NULL find_name (to_int (Z.of_nat (strlen find_name))) NULL NULL NULL 0%N.

(** Unregister a map processor. *)
Definition _map_proc_unregister (proc : ptr) : M W Z :=
  let* p := load_proc proc in
  let find := find_key (Proc.name p) in
  let* found := rbtree_finddata find in
  if (found =? NULL)%N then ret 0
  else
    rbtree_deletebydata found ;;
    ret 0.

(** Find a map processor by name. *)
Definition map_proc_find (name : list byte) : M W ptr :=
  let* root := get_root in
  match root with
  | None => ret NULL
  | Some _ =>
      let find := find_key name in
      rbtree_finddata find
  end.

(** [TALLOC_FREE(map_proc_root)]: the tree and its nodes are released (the
    tree has no free callback for the data) and the pointer is reset. *)
Definition map_proc_free : M W unit := set_root None.

(** Register a map processor.  A [name] is given by its bytes, so it is not
    NULL; [name[0]] is its first byte.  The DEBUG and DEBUG3 messages are
    left out. *)
Definition map_proc_register (mod_inst : ptr) (name : list byte)
    (evaluate escape instantiate : ptr) (inst_size : N) : M W Z :=
  let finish (proc : ptr) : M W Z :=
    store_proc proc (set_mod_inst mod_inst) ;;
    store_proc proc (set_evaluate evaluate) ;;
    store_proc proc (set_escape escape) ;;
    store_proc proc (set_instantiate instantiate) ;;
    store_proc proc (set_inst_size inst_size) ;;
    ret 0 in
  rad_assert (negb (Byte.eqb (hd x00 name) x00)) ;;
  let* root := get_root in
  let* have_root :=
    match root with
    | Some _ => ret true
    | None =>
        (* rbtree_create(NULL, map_proc_cmp, NULL, RBTREE_FLAG_REPLACE) *)
        let* t := rbtree_create true in
        set_root t ;;
        ret (bool_decide (t <> None))
    end in
  if negb have_root then ret (-1)
  else
    (* If it already exists, replace it. *)
    let* proc := map_proc_find name in
    if (proc =? NULL)%N then
      let* proc := talloc_zero_map_proc_t mod_inst in
      store_proc proc (set_name (strlcpy name (FR_MAX_STRING_LEN E))) ;;
      let* p := load_proc proc in
      store_proc proc (set_length (to_int (Z.of_nat (strlen (Proc.name p))))) ;;
      let* node := rbtree_insert_node proc in
      if negb node then
        talloc_free proc ;;
        ret (-1)
      else
        talloc_set_destructor proc ;;
        finish proc
    else finish proc.

(** Create a new map proc instance. *)
Definition map_proc_instantiate (ctx proc src maps : ptr) : M W ptr :=
  let* inst := talloc_zero_map_proc_inst_t ctx in
  store_inst inst (set_proc proc) ;;
  store_inst inst (set_src src) ;;
  store_inst inst (set_maps maps) ;;
  let* p := load_proc proc in
  if negb (Proc.instantiate p =? NULL)%N then
    let* no_data :=
      if (0 <? Proc.inst_size p)%N then
        let* data := talloc_zero_array_uint8_t inst (Proc.inst_size p) in
        store_inst inst (set_data data) ;;
        ret (data =? NULL)%N
      else ret false in
    if no_data then ret NULL
    else
      let* i := load_inst inst in
      let* rc := invoke_instantiate (Proc.instantiate p) (Inst.data i)
                                    (Proc.mod_inst p) src maps in
      if rc <? 0 then
        talloc_free inst ;;
        ret NULL
      else ret inst
  else ret inst.

(** Evaluate a set of maps using the specified map processor. *)
Definition map_proc (request inst : ptr) : M W rlm_rcode_t :=
  let* i := load_inst inst in
  let* p := load_proc (Inst.proc i) in
  let* r := tmpl_aexpand request request (Inst.src i)
                         (Proc.escape p) (Proc.mod_inst p) in
  let value := r.2 in
  if r.1 <? 0 then ret RLM_MODULE_FAIL
  else
    let* v := load_string value in
    let* rcode := invoke_evaluate (Proc.evaluate p) (Proc.mod_inst p) (Inst.data i)
                                  request v (Inst.maps i) in
    talloc_free value ;;
    ret rcode.

End Program.

(** ** Views of the state used in the statements *)

#[global] Instance byte_eq_decision : EqDecision byte := byte_eq_dec.

(** The state with its chunks replaced. *)
Definition put_heap {W} (h : gmap ptr chunk) (s : state W) : state W :=
  State h (brk s) (script s) (map_proc_root s) (log s) (world s).

(** The descriptor a pointer leads to, if it leads to one. *)
Definition proc_at (h : gmap ptr chunk) (p : ptr) : option map_proc_t :=
  match h !! p with
  | Some c => match c_payload c with PProc d => Some d | _ => None end
  | None => None
  end.

(** The instance a pointer leads to. *)
Definition inst_at (h : gmap ptr chunk) (p : ptr) : option map_proc_inst_t :=
  match h !! p with
  | Some c => match c_payload c with PInst i => Some i | _ => None end
  | None => None
  end.

Definition node_name (h : gmap ptr chunk) (d : ptr) : list byte :=
  match proc_at h d with Some p => Proc.name p | None => [] end.

(** The cached length is that of the name and fits an [int]. *)
Definition wf_name (d : map_proc_t) : Prop :=
  Proc.length d = Z.of_nat (length (Proc.name d)) /\
  Z.of_nat (length (Proc.name d)) < 2 ^ 31.

(** The first node registered under a name, or NULL. *)
Fixpoint lookup_name (h : gmap ptr chunk) (nm : list byte) (nodes : list ptr) : ptr :=
  match nodes with
  | [] => NULL
  | d :: rest => if decide (node_name h d = nm) then d else lookup_name h nm rest
  end.

(** The nodes without the first one registered under a name. *)
Fixpoint remove_name (h : gmap ptr chunk) (nm : list byte) (nodes : list ptr) : list ptr :=
  match nodes with
  | [] => []
  | d :: rest => if decide (node_name h d = nm) then rest else d :: remove_name h nm rest
  end.

(** The pointer leads to a descriptor with a well-formed name. *)
Definition live (h : gmap ptr chunk) (d : ptr) : Prop :=
  exists p, proc_at h d = Some p /\ wf_name p.

(** Every node leads to a live descriptor with a well-formed name, and no
    two nodes carry the same name. *)
Definition nodes_ok (h : gmap ptr chunk) (nodes : list ptr) : Prop :=
  Forall (live h) nodes /\
  NoDup (node_name h <$> nodes).

(** The invariant of the registry: addresses at and above [brk] are unused,
    NULL is, and the tree, once created, replaces and is [nodes_ok]. *)
Record registry_ok {W} (s : state W) : Prop := RegistryOk {
  ok_brk : (0 < brk s)%N;
  ok_fresh : forall p c, heap s !! p = Some c -> (0 < p < brk s)%N;
  ok_tree : forall t, map_proc_root s = Some t ->
            rb_replace t = true /\ nodes_ok (heap s) (rb_nodes t)
}.

(** What [map_proc_find] answers for a name: the node registered under the
    truncated name, or NULL. *)
Definition registered_at {W} (E : env W) (s : state W) (name : list byte) : ptr :=
  match map_proc_root s with
  | None => NULL
  | Some t => lookup_name (heap s) (strlcpy name (FR_MAX_STRING_LEN E)) (rb_nodes t)
  end.

(** The state after one allocation request was answered. *)
Definition pop_script {W} (s : state W) : state W :=
  State (heap s) (brk s) (tl (script s)) (map_proc_root s) (log s) (world s).

Definition put_root {W} (t : option rbtree_t) (s : state W) : state W :=
  State (heap s) (brk s) (script s) t (log s) (world s).

(** [rad_assert(name && name[0])] lets the call through. *)
Definition assert_passes {W} (E : env W) (name : list byte) : Prop :=
  NDEBUG E = true \/ hd x00 name <> x00.

(** The state once [map_proc_instantiate] has allocated the instance and
    recorded processor, template and maps in it. *)
Definition fresh_instance {W} (ctx proc src maps : ptr) (s : state W) : state W :=
  State (<[brk s := Chunk ctx false (PInst (Inst.Build proc src maps NULL))]> (heap s))
        (N.succ (brk s)) (tl (script s)) (map_proc_root s) (log s) (world s).

(** The state once the instance-data buffer hangs under the instance. *)
Definition buffered_instance {W} (ctx proc src maps : ptr) (size : N) (s : state W)
  : state W :=
  State (<[N.succ (brk s) := Chunk (brk s) false
                               (PBytes (replicate (N.to_nat size) x00))]>
           (<[brk s := Chunk ctx false
                         (PInst (Inst.Build proc src maps (N.succ (brk s))))]>
              (heap s)))
        (N.succ (N.succ (brk s))) (tl (tl (script s))) (map_proc_root s)
        (log s) (world s).

(** The state after a call through a callback: the call is recorded and the
    world is what the callback left. *)
Definition called {W} (e : event) (w : W) (s : state W) : state W :=
  State (heap s) (brk s) (script s) (map_proc_root s) (log s ++ [e]) w.

(** Contexts are older than the chunks allocated under them. *)
Definition parents_ok {W} (s : state W) : Prop :=
  forall p c, heap s !! p = Some c -> (c_parent c < brk s)%N.

(** Memory is available for every allocation request to come. *)
Definition memory_available {W} (s : state W) : Prop :=
  Forall (fun b => b = true) (script s).

(** The descriptor built by a successful [map_proc_register]. *)
Definition registered (E_len : nat) (mod_inst : ptr) (name : list byte)
    (evaluate escape instantiate : ptr) (inst_size : N) : map_proc_t :=
  Proc.Build mod_inst (strlcpy name E_len) (Z.of_nat (length (strlcpy name E_len)))
             evaluate instantiate escape inst_size.

(** What a registration that returned 0 has established: the invariant, the
    descriptor found under the name with the fields registered, the same
    node as before when there was one, and everything else as it was. *)
Definition register_post {W} (E : env W) (s s' : state W) (mod_inst : ptr)
    (name : list byte) (evaluate escape instantiate : ptr) (inst_size : N) : Prop :=
  let p := registered_at E s' name in
  registry_ok s' /\
  p <> NULL /\
  proc_at (heap s') p =
    Some (registered (FR_MAX_STRING_LEN E) mod_inst name evaluate escape
                     instantiate inst_size) /\
  (registered_at E s name <> NULL -> p = registered_at E s name) /\
  (forall name',
     strlcpy name' (FR_MAX_STRING_LEN E) <> strlcpy name (FR_MAX_STRING_LEN E) ->
     registered_at E s' name' = registered_at E s name') /\
  (forall q, q <> p -> heap s' !! q = heap s !! q) /\
  log s' = log s /\ world s' = world s.

(** ** A concrete build, for the examples

    [FR_MAX_STRING_LEN] is 254, assertions are compiled in; the world counts
    the calls made into modules.  The instantiate callback at address 66
    fails, the others succeed; template 99 does not expand, the others
    expand to "SELECT 1". *)
Module Demo.
Definition select_1 : list byte := [x53; x45; x4c; x45; x43; x54; x20; x31].
Definition sql : list byte := [x73; x71; x6c].
Definition sqlite : list byte := [x73; x71; x6c; x69; x74; x65].

Definition build (ndebug : bool) : env nat :=
  Env nat 254 ndebug
    (fun fn data mod_inst src maps w => (if (fn =? 66)%N then -1 else 0, S w))
    (fun fn mod_inst data request value maps w => (RLM_MODULE_OK, S w))
    (fun request vpt escape ctx w =>
       (if (vpt =? 99)%N then None else Some select_1, w)).

Definition E : env nat := build false.

(** The process before anything was registered; addresses below 1000
    belong to the rest of the server. *)
Definition boot (sc : list bool) : state nat := State ∅ 1000%N sc None [] O.

Local Open Scope c_scope.

(** "sql" registered by module 10 with evaluate 20, escape 21, no
    instantiate callback and 16 bytes of instance data. *)
Definition after_sql (sc : list bool) : outcome nat Z :=
  map_proc_register E 10%N sql 20%N 21%N NULL 16%N (boot sc).

Definition state_of {A} (o : outcome nat A) (dflt : state nat) : state nat :=
  match o with Done _ s => s | Fault _ => dflt end.

Definition s_sql : state nat := state_of (after_sql []) (boot []).

(** Then "sqlite" registered by module 11 with evaluate 30, escape 31,
    instantiate callback 32 and 8 bytes of instance data.  The descriptors
    are at 1000 and 1001. *)
Definition after_both (sc : list bool) : outcome nat Z :=
  (map_proc_register E 10%N sql 20%N 21%N NULL 16%N ;;
   map_proc_register E 11%N sqlite 30%N 31%N 32%N 8%N) (boot sc).

Definition s_both : state nat := state_of (after_both []) (boot []).

(** The same with memory left for one allocation, and for none. *)
Definition s_low : state nat :=
  state_of (after_both [true; true; true; true; true; true; false]) (boot []).
Definition s_out : state nat :=
  state_of (after_both [true; true; true; true; true; false]) (boot []).

(** An instance of "sqlite" on template [src], under context 500, with
    maps 8; it is at 1002 and its data at 1003. *)
Definition s_inst (src : ptr) : state nat :=
  state_of (map_proc_instantiate E 500%N 1001%N src 8%N s_both) s_both.

(** Two names of 254 bytes that differ in the last one only. *)
Definition long_x : list byte := replicate 253 x61 ++ [x78].
Definition long_y : list byte := replicate 253 x61 ++ [x79].

(** After "sql" and "sqlite": "fail" registered by module 12 with the
    instantiate callback 66, which fails, and 4 bytes of instance data; its
    descriptor is at 1002. *)
Definition fail : list byte := [x66; x61; x69; x6c].
Definition s_fail : state nat :=
  state_of (map_proc_register E 12%N fail 40%N 41%N 66%N 4%N s_both) s_both.

(** After "sql" and "sqlite": "raw" registered by module 13 without an
    evaluate callback (descriptor at 1002), and an instance of it on
    template 7 (at 1003). *)
Definition raw : list byte := [x72; x61; x77].
Definition s_raw : state nat :=
  state_of (map_proc_register E 13%N raw NULL 41%N NULL 0%N s_both) s_both.
Definition s_raw_inst : state nat :=
  state_of (map_proc_instantiate E 500%N 1002%N 7%N 8%N s_raw) s_raw.
End Demo.

(** * Properties *)

(** ** Machine integers *)

Lemma to_int_small z : - 2 ^ 31 <= z < 2 ^ 31 -> to_int z = z.
Proof.
  intros Hz. unfold to_int.
  rewrite Z.mod_small; lia.
Qed.

Lemma to_size_t_small z : 0 <= z < 2 ^ 31 -> to_size_t z = z.
Proof.
  intros Hz. unfold to_size_t.
  apply Z.mod_small. lia.
Qed.

Lemma to_int_diff_nonzero a b :
  0 <= a < 2 ^ 31 -> 0 <= b < 2 ^ 31 -> a <> b -> to_int (a - b) <> 0.
Proof.
  intros Ha Hb Hab. rewrite to_int_small; lia.
Qed.

#[global] Opaque to_int to_size_t.

(** ** Strings *)

Lemma byte_val_inj x y : byte_val x = byte_val y -> x = y.
Proof.
  unfold byte_val. intros H%(inj Z.of_N).
  assert (Some x = Some y) as [= ->]; [|done].
  by rewrite <- !of_to_N, H.
Qed.

Lemma c_str_no_nul mem : Forall (fun b => b <> x00) (c_str mem).
Proof.
  induction mem as [|b mem IH]; simpl; [constructor|].
  destruct (Byte.eqb b x00) eqn:Hb; constructor; [|done].
  by apply eqb_false.
Qed.

Lemma c_str_id l : Forall (fun b => b <> x00) l -> c_str l = l.
Proof.
  induction 1 as [|b l Hb _ IH]; simpl; [done|].
  destruct (Byte.eqb b x00) eqn:E; [by apply byte_dec_bl in E|].
  by rewrite IH.
Qed.

Lemma strlcpy_no_nul src size : Forall (fun b => b <> x00) (strlcpy src size).
Proof. unfold strlcpy. apply Forall_take, c_str_no_nul. Qed.

(** [strlen] of a buffer written by [strlcpy] is the number of bytes copied. *)
Lemma strlen_strlcpy src size : strlen (strlcpy src size) = length (strlcpy src size).
Proof. unfold strlen. by rewrite c_str_id by apply strlcpy_no_nul. Qed.

Lemma strlcpy_length src size : (length (strlcpy src size) <= size - 1)%nat.
Proof. unfold strlcpy. rewrite length_take. lia. Qed.

(** Copying a copy changes nothing. *)
Lemma strlcpy_idemp src size : strlcpy (strlcpy src size) size = strlcpy src size.
Proof.
  unfold strlcpy at 1. rewrite c_str_id by apply strlcpy_no_nul.
  unfold strlcpy. by rewrite take_take, Nat.min_id.
Qed.

Lemma strlcpy_empty src size : hd x00 src = x00 -> strlcpy src size = [].
Proof.
  unfold strlcpy. destruct src as [|b src]; simpl; [by rewrite take_nil|].
  intros ->. simpl. by rewrite take_nil.
Qed.

Lemma memcmp_refl a n : memcmp a a n = 0.
Proof.
  revert a. induction n as [|n IH]; intros a; simpl; [done|].
  by rewrite Z.eqb_refl.
Qed.

Lemma memcmp_zero a b n :
  length a = n -> length b = n -> memcmp a b n = 0 -> a = b.
Proof.
  revert a b. induction n as [|n IH]; intros a b Ha Hb.
  - by destruct a, b.
  - destruct a as [|x a], b as [|y b]; simplify_eq/=.
    destruct (byte_val x =? byte_val y) eqn:Hxy.
    + apply Z.eqb_eq, byte_val_inj in Hxy as ->.
      intros H. f_equal. apply IH; auto.
    + intros H. apply Z.eqb_neq in Hxy. lia.
Qed.

(** ** The comparison function *)

Lemma map_proc_cmp_lengths_differ a b :
  Proc.length a <> Proc.length b ->
  map_proc_cmp a b = to_int (Proc.length a - Proc.length b).
Proof.
  intros H. unfold map_proc_cmp.
  by destruct (Z.eqb_spec (Proc.length a) (Proc.length b)).
Qed.

Lemma map_proc_cmp_lengths_equal a b :
  Proc.length a = Proc.length b ->
  map_proc_cmp a b =
    memcmp (Proc.name a) (Proc.name b) (Z.to_nat (to_size_t (Proc.length a))).
Proof.
  intros H. unfold map_proc_cmp.
  by destruct (Z.eqb_spec (Proc.length a) (Proc.length b)).
Qed.

(** On descriptors with well-formed names the comparison is zero exactly
    when the names are the same. *)
Lemma map_proc_cmp_zero a b :
  wf_name a -> wf_name b ->
  map_proc_cmp a b = 0 <-> Proc.name a = Proc.name b.
Proof.
  intros [Ha Ha'] [Hb Hb']. split.
  - intros Hc.
    destruct (Z.eq_dec (Proc.length a) (Proc.length b)) as [Hl|Hl].
    + rewrite map_proc_cmp_lengths_equal in Hc by done.
      rewrite to_size_t_small, Ha, Nat2Z.id in Hc by lia.
      apply (memcmp_zero _ _ _ eq_refl) in Hc; [done|lia].
    + rewrite map_proc_cmp_lengths_differ in Hc by done.
      apply to_int_diff_nonzero in Hc; [done|lia..].
  - intros Hn.
    rewrite map_proc_cmp_lengths_equal by (rewrite Ha, Hb, Hn; done).
    rewrite Hn. apply memcmp_refl.
Qed.

Lemma map_proc_cmp_prefix a b :
  wf_name a -> wf_name b ->
  length (Proc.name a) <> length (Proc.name b) ->
  map_proc_cmp a b <> 0.
Proof.
  intros Ha Hb Hl Hc. apply map_proc_cmp_zero in Hc; [|done..].
  by rewrite Hc in Hl.
Qed.

(** ** Stepping through the program *)

Section Steps.
Context {W : Type}.
Implicit Types (s : state W) (h : gmap ptr chunk) (nodes pre post : list ptr).

Lemma bind_done {A B} (m : M W A) (k : A -> M W B) s a s1 :
  m s = Done a s1 -> bind m k s = k a s1.
Proof. unfold bind. by intros ->. Qed.

Lemma bind_fault {A B} (m : M W A) (k : A -> M W B) s f :
  m s = Fault f -> bind m k s = Fault f.
Proof. unfold bind. by intros ->. Qed.

Lemma proc_at_Some h p d :
  proc_at h p = Some d <->
  exists c, h !! p = Some c /\ c_payload c = PProc d.
Proof.
  unfold proc_at. split.
  - destruct (h !! p) as [c|]; [|done].
    destruct (c_payload c) eqn:Hc; intros [= ->]; eauto.
  - intros (c & -> & ->). done.
Qed.

Lemma inst_at_Some h p i :
  inst_at h p = Some i <->
  exists c, h !! p = Some c /\ c_payload c = PInst i.
Proof.
  unfold inst_at. split.
  - destruct (h !! p) as [c|]; [|done].
    destruct (c_payload c) eqn:Hc; intros [= ->]; eauto.
  - intros (c & -> & ->). done.
Qed.

Lemma load_proc_at p d s :
  proc_at (heap s) p = Some d -> load_proc p s = Done d s.
Proof.
  intros (c & Hc & Hd)%proc_at_Some.
  unfold load_proc, load, bind. by rewrite Hc, Hd.
Qed.

Lemma load_proc_fault p s :
  proc_at (heap s) p = None -> load_proc p s = Fault SIGSEGV.
Proof.
  unfold proc_at, load_proc, load, bind.
  destruct (heap s !! p) as [c|]; [|done].
  by destruct (c_payload c).
Qed.

Lemma load_inst_at p i s :
  inst_at (heap s) p = Some i -> load_inst p s = Done i s.
Proof.
  intros (c & Hc & Hd)%inst_at_Some.
  unfold load_inst, load, bind. by rewrite Hc, Hd.
Qed.

Lemma store_proc_at p f c d s :
  heap s !! p = Some c -> c_payload c = PProc d ->
  store_proc p f s =
    Done tt (put_heap (<[p := Chunk (c_parent c) (c_destructor c) (PProc (f d))]> (heap s)) s).
Proof.
  intros Hc Hd. unfold store_proc, load, bind. by rewrite Hc, Hd.
Qed.

Lemma store_inst_at p f c i s :
  heap s !! p = Some c -> c_payload c = PInst i ->
  store_inst p f s =
    Done tt (put_heap (<[p := Chunk (c_parent c) (c_destructor c) (PInst (f i))]> (heap s)) s).
Proof.
  intros Hc Hd. unfold store_inst, load, bind. by rewrite Hc, Hd.
Qed.

Lemma store_proc_fault p f s :
  heap s !! p = None -> store_proc p f s = Fault SIGSEGV.
Proof. intros Hc. unfold store_proc, load, bind. by rewrite Hc. Qed.

Lemma store_inst_fault p f s :
  heap s !! p = None -> store_inst p f s = Fault SIGSEGV.
Proof. intros Hc. unfold store_inst, load, bind. by rewrite Hc. Qed.

Lemma node_name_at h d p : proc_at h d = Some p -> node_name h d = Proc.name p.
Proof. unfold node_name. by intros ->. Qed.

(** *** The reference functions on node sequences *)

Lemma lookup_name_elem h nm nodes d :
  lookup_name h nm nodes = d -> d <> NULL ->
  d ∈ nodes /\ node_name h d = nm.
Proof.
  induction nodes as [|x nodes IH]; simpl; [congruence|].
  case_decide as Hx.
  - intros -> _. split; [left|done].
  - intros Hd Hn. destruct (IH Hd Hn). split; [by right|done].
Qed.

Lemma lookup_name_NULL h nm nodes :
  NULL ∉ nodes ->
  lookup_name h nm nodes = NULL <-> nm ∉ node_name h <$> nodes.
Proof.
  induction nodes as [|x nodes IH]; simpl; intros Hnull.
  - split; [intros _; apply not_elem_of_nil|done].
  - rewrite not_elem_of_cons in Hnull. destruct Hnull as [Hx Hnull].
    rewrite not_elem_of_cons. case_decide as Hd.
    + split; [congruence|]. intros [? _]. congruence.
    + rewrite IH by done. split; [intros ?; split; [congruence|done]|by intros [_ ?]].
Qed.

Lemma lookup_name_ext h h' nm nodes :
  (forall d, d ∈ nodes -> node_name h' d = node_name h d) ->
  lookup_name h' nm nodes = lookup_name h nm nodes.
Proof.
  induction nodes as [|x nodes IH]; simpl; intros Hext; [done|].
  rewrite Hext by left. case_decide; [done|].
  apply IH. intros d Hd. apply Hext. by right.
Qed.

Lemma names_ext h h' nodes :
  (forall d, d ∈ nodes -> node_name h' d = node_name h d) ->
  node_name h' <$> nodes = node_name h <$> nodes.
Proof.
  intros Hext. apply list_fmap_ext. intros i d Hd.
  apply Hext. by eapply list_elem_of_lookup_2.
Qed.

Lemma lookup_name_insert h nm data pre post :
  node_name h data ∉ node_name h <$> (pre ++ post) ->
  lookup_name h nm (pre ++ data :: post) =
    if decide (node_name h data = nm) then data else lookup_name h nm (pre ++ post).
Proof.
  induction pre as [|x pre IH]; simpl; intros Hnew; [done|].
  rewrite not_elem_of_cons in Hnew. destruct Hnew as [Hx Hnew].
  destruct (decide (node_name h x = nm)) as [Hxn|Hxn].
  - case_decide; [congruence|done].
  - by apply IH.
Qed.

Lemma lookup_name_remove h nm nm0 nodes :
  NoDup (node_name h <$> nodes) ->
  lookup_name h nm (remove_name h nm0 nodes) =
    if decide (nm = nm0) then NULL else lookup_name h nm nodes.
Proof.
  induction nodes as [|x nodes IH]; simpl; intros Hnd.
  - by case_decide.
  - apply NoDup_cons in Hnd as [Hx Hnd].
    destruct (decide (node_name h x = nm0)) as [Hx0|Hx0].
    + case_decide as Hn.
      * subst nm. rewrite <- Hx0.
        destruct (lookup_name h (node_name h x) nodes =? NULL)%N eqn:Hl.
        { by apply N.eqb_eq in Hl. }
        apply N.eqb_neq in Hl.
        destruct (lookup_name_elem h _ nodes _ eq_refl Hl) as [Hin Hname].
        exfalso. apply Hx. rewrite <- Hname. by apply list_elem_of_fmap_2.
      * case_decide; [congruence|done].
    + simpl. destruct (decide (node_name h x = nm)) as [Hx1|Hx1].
      * case_decide; [congruence|done].
      * by apply IH.
Qed.

Lemma remove_name_absent h nm nodes :
  nm ∉ node_name h <$> nodes -> remove_name h nm nodes = nodes.
Proof.
  induction nodes as [|x nodes IH]; simpl; [done|].
  rewrite not_elem_of_cons. intros [Hx Hn].
  case_decide; [congruence|]. by rewrite IH.
Qed.

Lemma remove_name_sub h nm nodes d :
  d ∈ remove_name h nm nodes -> d ∈ nodes.
Proof.
  induction nodes as [|x nodes IH]; simpl; [done|].
  case_decide.
  - by right.
  - rewrite !elem_of_cons. intros [?|?]; [by left|right; auto].
Qed.

Lemma remove_name_names h nm nodes :
  NoDup (node_name h <$> nodes) ->
  NoDup (node_name h <$> remove_name h nm nodes) /\
  nm ∉ node_name h <$> remove_name h nm nodes.
Proof.
  induction nodes as [|x nodes IH]; simpl; intros Hnd.
  - split; [constructor|apply not_elem_of_nil].
  - apply NoDup_cons in Hnd as [Hx Hnd]. case_decide as Hd.
    + subst nm. done.
    + destruct (IH Hnd) as [IH1 IH2]. simpl. split.
      * apply NoDup_cons. split; [|done].
        intros (d & Hd1 & Hd2)%list_elem_of_fmap_1.
        apply Hx. rewrite Hd1. apply list_elem_of_fmap_2.
        by eapply remove_name_sub.
      * rewrite not_elem_of_cons. split; [congruence|done].
Qed.

Lemma talloc_spec ctx v s :
  talloc ctx v s =
    if hd true (script s)
    then Done (brk s)
              (State (<[brk s := Chunk ctx false v]> (heap s)) (N.succ (brk s))
                     (tl (script s)) (map_proc_root s) (log s) (world s))
    else Done NULL (pop_script s).
Proof. unfold talloc, bind, malloc_ok. simpl. by destruct (hd true (script s)). Qed.

Lemma fresh_brk s : registry_ok s -> heap s !! brk s = None.
Proof.
  intros Hok. destruct (heap s !! brk s) as [c|] eqn:Hc; [|done].
  apply (ok_fresh _ Hok) in Hc. lia.
Qed.

Lemma null_unmapped s : registry_ok s -> heap s !! NULL = None.
Proof.
  intros Hok. destruct (heap s !! NULL) as [c|] eqn:Hc; [|done].
  apply (ok_fresh _ Hok) in Hc. unfold NULL in Hc. lia.
Qed.

Lemma proc_at_insert_ne h b c d : b <> d -> proc_at (<[b := c]> h) d = proc_at h d.
Proof. intros Hne. unfold proc_at. by rewrite lookup_insert_ne. Qed.

Lemma proc_at_insert h b par dt d :
  proc_at (<[b := Chunk par dt (PProc d)]> h) b = Some d.
Proof. unfold proc_at. by rewrite lookup_insert_eq. Qed.

Lemma node_name_insert_ne h b c d :
  b <> d -> node_name (<[b := c]> h) d = node_name h d.
Proof. intros Hne. unfold node_name. by rewrite proc_at_insert_ne. Qed.

Lemma live_insert_ne h b c d : b <> d -> live h d -> live (<[b := c]> h) d.
Proof. intros Hne (p & Hp & Hwf). exists p. by rewrite proc_at_insert_ne. Qed.

Lemma live_mapped h d : live h d -> is_Some (h !! d).
Proof. intros (p & (c & Hc & _)%proc_at_Some & _). eauto. Qed.

Lemma talloc_set_destructor_at p c s :
  heap s !! p = Some c ->
  talloc_set_destructor p s =
    Done tt (put_heap (<[p := Chunk (c_parent c) true (c_payload c)]> (heap s)) s).
Proof. intros Hc. unfold talloc_set_destructor, load, bind. by rewrite Hc. Qed.

Lemma memory_available_hd s : memory_available s -> hd true (script s) = true.
Proof. unfold memory_available. by destruct 1. Qed.

Lemma memory_available_tl s :
  memory_available s -> hd true (tl (script s)) = true.
Proof. unfold memory_available. destruct 1 as [|? ? ? []]; done. Qed.

End Steps.

(** ** The registry *)

Section Registry.
Context {W : Type} (E : env W).
Implicit Types (s : state W) (h : gmap ptr chunk) (nodes pre post : list ptr).
Implicit Types (name nm : list byte).

(** The name buffer is small enough for the length of a name to fit [int]. *)
Hypothesis name_fits_int : Z.of_nat (FR_MAX_STRING_LEN E) <= 2 ^ 31.

Lemma find_key_name name :
  Proc.name (find_key E name) = strlcpy name (FR_MAX_STRING_LEN E).
Proof. done. Qed.

Lemma strlcpy_fits name :
  0 <= Z.of_nat (length (strlcpy name (FR_MAX_STRING_LEN E))) < 2 ^ 31.
Proof. pose proof (strlcpy_length name (FR_MAX_STRING_LEN E)). lia. Qed.

Lemma find_key_wf name : wf_name (find_key E name).
Proof.
  pose proof (strlcpy_fits name). split; simpl; [|lia].
  rewrite strlen_strlcpy, to_int_small; lia.
Qed.

Lemma registered_wf mod_inst name evaluate escape instantiate inst_size :
  wf_name (registered (FR_MAX_STRING_LEN E) mod_inst name evaluate escape
                      instantiate inst_size).
Proof. pose proof (strlcpy_fits name). split; simpl; [done|lia]. Qed.

Lemma rb_find_spec key nodes s :
  wf_name key -> Forall (live (heap s)) nodes ->
  rb_find map_proc_cmp key nodes s =
    Done (lookup_name (heap s) (Proc.name key) nodes) s.
Proof.
  intros Hkey. induction 1 as [|d nodes (p & Hp & Hwf) _ IH]; simpl; [done|].
  rewrite (bind_done _ _ _ _ _ (load_proc_at _ _ _ Hp)).
  rewrite (node_name_at _ _ _ Hp).
  destruct (Z.eqb_spec (map_proc_cmp key p) 0) as [Hc|Hc].
  - apply map_proc_cmp_zero in Hc; [|done..].
    case_decide; [done|congruence].
  - case_decide as Hn; [|done].
    exfalso. apply Hc. by apply map_proc_cmp_zero.
Qed.

Lemma rb_insert_spec replace key data nodes s :
  wf_name key -> Forall (live (heap s)) nodes ->
  Proc.name key ∉ node_name (heap s) <$> nodes ->
  exists pre post, nodes = pre ++ post /\
    rb_insert map_proc_cmp replace key data nodes s =
      Done (if hd true (script s) then Some (pre ++ data :: post) else None)
           (pop_script s).
Proof.
  intros Hkey. induction 1 as [|d nodes (p & Hp & Hwf) _ IH]; simpl; intros Hnew.
  - exists [], []. split; [done|]. unfold bind, malloc_ok, ret. simpl.
    by destruct (hd true (script s)).
  - rewrite (bind_done _ _ _ _ _ (load_proc_at _ _ _ Hp)).
    rewrite not_elem_of_cons, (node_name_at _ _ _ Hp) in Hnew.
    destruct Hnew as [Hd Hnew].
    destruct (Z.eqb_spec (map_proc_cmp key p) 0) as [Hc|Hc].
    { by apply map_proc_cmp_zero in Hc. }
    destruct (map_proc_cmp key p <? 0).
    + exists [], (d :: nodes). split; [done|]. unfold bind, malloc_ok, ret. simpl.
      by destruct (hd true (script s)).
    + destruct (IH Hnew) as (pre & post & -> & Hins).
      exists (d :: pre), post. split; [done|].
      rewrite (bind_done _ _ _ _ _ Hins). unfold ret.
      by destruct (hd true (script s)).
Qed.

Lemma rb_delete_spec key nodes s :
  wf_name key -> Forall (live (heap s)) nodes ->
  rb_delete map_proc_cmp key nodes s =
    Done (if decide (Proc.name key ∈ node_name (heap s) <$> nodes)
          then Some (remove_name (heap s) (Proc.name key) nodes) else None) s.
Proof.
  intros Hkey. induction 1 as [|d nodes (p & Hp & Hwf) _ IH]; simpl.
  - done.
  - rewrite (bind_done _ _ _ _ _ (load_proc_at _ _ _ Hp)).
    rewrite (node_name_at _ _ _ Hp).
    destruct (Z.eqb_spec (map_proc_cmp key p) 0) as [Hc|Hc].
    + apply map_proc_cmp_zero in Hc; [|done..].
      unfold ret. rewrite decide_True by (rewrite Hc; left).
      by rewrite decide_True.
    + assert (Proc.name p <> Proc.name key) as Hn.
      { intros Hn. apply Hc. by apply map_proc_cmp_zero. }
      rewrite (bind_done _ _ _ _ _ IH). unfold ret.
      rewrite (decide_False (P := Proc.name p = Proc.name key)) by done.
      destruct (decide (Proc.name key ∈ node_name (heap s) <$> nodes)) as [Hin|Hin].
      * rewrite decide_True by (by right). done.
      * rewrite decide_False; [done|].
        rewrite not_elem_of_cons. split; [congruence|done].
Qed.

Lemma live_not_NULL s d : registry_ok s -> live (heap s) d -> d <> NULL.
Proof.
  intros Hok (p & (c & Hc & _)%proc_at_Some & _) ->.
  apply (ok_fresh _ Hok) in Hc. unfold NULL in Hc. lia.
Qed.

Lemma nodes_not_NULL s t :
  registry_ok s -> map_proc_root s = Some t -> NULL ∉ rb_nodes t.
Proof.
  intros Hok Ht Hin.
  destruct (ok_tree _ Hok _ Ht) as [_ [Hlive _]].
  rewrite Forall_forall in Hlive.
  by eapply live_not_NULL; [|apply Hlive|].
Qed.

(** [map_proc_find] answers with the node registered under the truncated
    name and leaves the state alone. *)
Lemma map_proc_find_spec name s :
  registry_ok s ->
  map_proc_find E name s = Done (registered_at E s name) s.
Proof.
  intros Hok. unfold map_proc_find, registered_at, bind, get_root.
  destruct (map_proc_root s) as [t|] eqn:Ht; [|done].
  unfold rbtree_finddata, bind, get_root. rewrite Ht.
  destruct (ok_tree _ Hok _ Ht) as [_ [Hlive _]].
  by rewrite rb_find_spec; [|apply find_key_wf|].
Qed.

Lemma rad_assert_passes name s :
  assert_passes E name ->
  rad_assert E (negb (Byte.eqb (hd x00 name) x00)) s = Done tt s.
Proof.
  unfold rad_assert. intros [->|Hn]; [done|].
  destruct (NDEBUG E); [done|].
  destruct (Byte.eqb (hd x00 name) x00) eqn:Hb; [|done].
  by apply byte_dec_bl in Hb.
Qed.

Lemma rad_assert_fails name s :
  NDEBUG E = false -> hd x00 name = x00 ->
  rad_assert E (negb (Byte.eqb (hd x00 name) x00)) s = Fault SIGABRT.
Proof. unfold rad_assert. by intros -> ->. Qed.

(** The five assignments that end [map_proc_register]. *)
Lemma store_fields p c d s mod_inst evaluate escape instantiate inst_size :
  heap s !! p = Some c -> c_payload c = PProc d ->
  (store_proc p (set_mod_inst mod_inst) ;;
   store_proc p (set_evaluate evaluate) ;;
   store_proc p (set_escape escape) ;;
   store_proc p (set_instantiate instantiate) ;;
   store_proc p (set_inst_size inst_size) ;;
   ret 0)%C s =
  Done 0 (put_heap (<[p := Chunk (c_parent c) (c_destructor c)
                            (PProc (Proc.Build mod_inst (Proc.name d) (Proc.length d)
                                               evaluate instantiate escape inst_size))]>
                      (heap s)) s).
Proof.
  intros Hc Hd.
  rewrite (bind_done _ _ _ _ _ (store_proc_at _ _ _ _ _ Hc Hd)).
  do 4 (erewrite bind_done;
        [|eapply store_proc_at; [apply lookup_insert_eq|reflexivity]]).
  unfold ret, put_heap. simpl. by rewrite !insert_insert_eq.
Qed.

(** Registration under a name that is present: the descriptor found is
    assigned to, nothing else happens. *)
Lemma register_again mod_inst name evaluate escape instantiate inst_size s p c d :
  registry_ok s -> assert_passes E name ->
  registered_at E s name = p -> p <> NULL ->
  heap s !! p = Some c -> c_payload c = PProc d ->
  map_proc_register E mod_inst name evaluate escape instantiate inst_size s =
    Done 0 (put_heap (<[p := Chunk (c_parent c) (c_destructor c)
                              (PProc (Proc.Build mod_inst (Proc.name d) (Proc.length d)
                                                 evaluate instantiate escape inst_size))]>
                        (heap s)) s).
Proof.
  intros Hok Hassert Hp Hnull Hc Hd.
  assert (exists t, map_proc_root s = Some t) as [t Ht].
  { unfold registered_at in Hp. destruct (map_proc_root s); [eauto|congruence]. }
  unfold map_proc_register. cbv zeta.
  rewrite (bind_done _ _ _ _ _ (rad_assert_passes _ _ Hassert)).
  unfold bind at 1, get_root at 1. rewrite Ht.
  unfold bind at 1, ret at 1. cbv beta iota. unfold negb.
  rewrite (bind_done _ _ _ _ _ (map_proc_find_spec _ _ Hok)), Hp.
  apply N.eqb_neq in Hnull. rewrite Hnull.
  by apply store_fields.
Qed.

(** Registration under a new name when the descriptor cannot be allocated:
    the NULL returned by [talloc_zero] is written through. *)
Lemma register_new_no_proc mod_inst name evaluate escape instantiate inst_size s t :
  registry_ok s -> assert_passes E name ->
  map_proc_root s = Some t -> registered_at E s name = NULL ->
  hd true (script s) = false ->
  map_proc_register E mod_inst name evaluate escape instantiate inst_size s =
    Fault SIGSEGV.
Proof.
  intros Hok Hassert Ht Hp Hmem.
  unfold map_proc_register. cbv zeta.
  rewrite (bind_done _ _ _ _ _ (rad_assert_passes _ _ Hassert)).
  unfold bind at 1, get_root at 1. rewrite Ht.
  unfold bind at 1, ret at 1. cbv beta iota. unfold negb.
  rewrite (bind_done _ _ _ _ _ (map_proc_find_spec _ _ Hok)), Hp.
  change (NULL =? NULL)%N with true. cbv iota.
  unfold talloc_zero_map_proc_t.
  erewrite bind_done by (rewrite talloc_spec, Hmem; reflexivity).
  apply bind_fault, store_proc_fault. simpl. by apply null_unmapped.
Qed.

Lemma rbtree_insert_node_spec data d s t :
  map_proc_root s = Some t -> proc_at (heap s) data = Some d -> wf_name d ->
  Forall (live (heap s)) (rb_nodes t) ->
  Proc.name d ∉ node_name (heap s) <$> rb_nodes t ->
  exists pre post, rb_nodes t = pre ++ post /\
    rbtree_insert_node data s =
      if hd true (script s)
      then Done true (put_root (Some (Tree (rb_replace t) (pre ++ data :: post)))
                               (pop_script s))
      else Done false (pop_script s).
Proof.
  intros Ht Hd Hwf Hlive Hnew.
  destruct (rb_insert_spec (rb_replace t) d data (rb_nodes t) s Hwf Hlive Hnew)
    as (pre & post & Hsplit & Hins).
  exists pre, post. split; [done|].
  unfold rbtree_insert_node.
  erewrite (bind_done get_root) by reflexivity. rewrite Ht.
  rewrite (bind_done _ _ _ _ _ (load_proc_at _ _ _ Hd)).
  rewrite (bind_done _ _ _ _ _ Hins).
  by destruct (hd true (script s)).
Qed.

(** Registration under a new name, once the descriptor is allocated: the
    descriptor is named and handed to the tree; with a node it is completed,
    without one it is released. *)
Lemma register_new mod_inst name evaluate escape instantiate inst_size s t :
  registry_ok s -> assert_passes E name ->
  map_proc_root s = Some t -> registered_at E s name = NULL ->
  hd true (script s) = true ->
  let b := brk s in
  let d := registered (FR_MAX_STRING_LEN E) NULL name NULL NULL NULL 0%N in
  exists pre post, rb_nodes t = pre ++ post /\
    map_proc_register E mod_inst name evaluate escape instantiate inst_size s =
      if hd true (tl (script s))
      then Done 0 (State (<[b := Chunk mod_inst true
                                 (PProc (registered (FR_MAX_STRING_LEN E) mod_inst name
                                           evaluate escape instantiate inst_size))]> (heap s))
                         (N.succ b) (tl (tl (script s)))
                         (Some (Tree (rb_replace t) (pre ++ b :: post)))
                         (log s) (world s))
      else (talloc_free b ;; ret (-1))%C
             (State (<[b := Chunk mod_inst false (PProc d)]> (heap s))
                    (N.succ b) (tl (tl (script s))) (Some t) (log s) (world s)).
Proof.
  intros Hok Hassert Ht Hp Hmem b d.
  destruct (ok_tree _ Hok _ Ht) as [_ [Hlive Hnd]].
  pose proof (fresh_brk _ Hok) as Hfresh. fold b in Hfresh.
  assert (forall x, x ∈ rb_nodes t -> b <> x) as Hne.
  { intros x Hx ->. rewrite Forall_forall in Hlive.
    apply Hlive, live_mapped in Hx as [? Hx]. congruence. }
  unfold map_proc_register. cbv zeta.
  rewrite (bind_done _ _ _ _ _ (rad_assert_passes _ _ Hassert)).
  unfold bind at 1, get_root at 1. rewrite Ht.
  unfold bind at 1, ret at 1. cbv beta iota. unfold negb at 1.
  rewrite (bind_done _ _ _ _ _ (map_proc_find_spec _ _ Hok)), Hp.
  change (NULL =? NULL)%N with true. cbv iota.
  unfold talloc_zero_map_proc_t.
  erewrite bind_done by (rewrite talloc_spec, Hmem; reflexivity).
  erewrite bind_done;
    [|eapply store_proc_at; [apply lookup_insert_eq|reflexivity]].
  erewrite bind_done; [|apply load_proc_at, proc_at_insert].
  erewrite bind_done;
    [|eapply store_proc_at; [apply lookup_insert_eq|reflexivity]].
  unfold put_heap. simpl. rewrite !insert_insert_eq.
  rewrite strlen_strlcpy, to_int_small by (pose proof (strlcpy_fits name); lia).
  change (set_length _ _) with d. fold b.
  set (h3 := <[b := _]> (heap s)).
  set (s3 := State h3 _ _ _ _ _).
  assert (Forall (live h3) (rb_nodes t)) as Hlive3.
  { rewrite Forall_forall in Hlive |- *. intros x Hx.
    apply live_insert_ne; auto. }
  assert (Proc.name d ∉ node_name h3 <$> rb_nodes t) as Hnew.
  { rewrite (names_ext (heap s) h3)
      by (intros x Hx; apply node_name_insert_ne; auto).
    unfold registered_at in Hp. rewrite Ht in Hp.
    by apply lookup_name_NULL in Hp; [|eapply nodes_not_NULL]. }
  destruct (rbtree_insert_node_spec b d s3 t Ht (proc_at_insert _ _ _ _ _)
              (registered_wf _ _ _ _ _ _) Hlive3 Hnew)
    as (pre & post & Hsplit & Hins).
  exists pre, post. split; [done|].
  subst s3. cbn [script] in Hins. rewrite Ht in Hins |- *.
  destruct (hd true (tl (script s)));
    rewrite (bind_done _ _ _ _ _ Hins); cbn [negb]; [|done].
  erewrite bind_done; [|apply talloc_set_destructor_at, lookup_insert_eq].
  erewrite store_fields; [|apply lookup_insert_eq|reflexivity].
  unfold put_heap, put_root, pop_script, h3. simpl.
  by rewrite !insert_insert_eq.
Qed.

(** The first registration creates the tree, or fails without one. *)
Lemma register_first mod_inst name evaluate escape instantiate inst_size s :
  assert_passes E name -> map_proc_root s = None ->
  map_proc_register E mod_inst name evaluate escape instantiate inst_size s =
    if hd true (script s)
    then map_proc_register E mod_inst name evaluate escape instantiate inst_size
           (put_root (Some (Tree true [])) (pop_script s))
    else Done (-1) (pop_script s).
Proof.
  intros Hassert Hroot. unfold map_proc_register. cbv zeta.
  rewrite !(bind_done _ _ _ _ _ (rad_assert_passes _ _ Hassert)).
  unfold bind at 1, get_root at 1. rewrite Hroot.
  unfold bind at 1, bind at 1, rbtree_create, bind at 1, malloc_ok, ret at 1.
  unfold pop_script, put_root. rewrite Hroot.
  destruct (hd true (script s)); simpl; done.
Qed.

Lemma register_assert_fails mod_inst name evaluate escape instantiate inst_size s :
  NDEBUG E = false -> hd x00 name = x00 ->
  map_proc_register E mod_inst name evaluate escape instantiate inst_size s =
    Fault SIGABRT.
Proof.
  intros Hn Hname. unfold map_proc_register. cbv zeta.
  by apply bind_fault, rad_assert_fails.
Qed.

Lemma assert_passes_dec name :
  assert_passes E name \/ (NDEBUG E = false /\ hd x00 name = x00).
Proof.
  unfold assert_passes. destruct (NDEBUG E); [by left; left|].
  destruct (decide (hd x00 name = x00)); [by right|by left; right].
Qed.

Lemma registry_ok_created s :
  registry_ok s -> map_proc_root s = None ->
  registry_ok (put_root (Some (Tree true [])) (pop_script s)).
Proof.
  intros [H1 H2 H3] Hroot. split; simpl; [done..|].
  intros t [= <-]. split; [done|]. split; simpl; constructor.
Qed.

Lemma register_again_post mod_inst name evaluate escape instantiate inst_size s p c d :
  registry_ok s ->
  registered_at E s name = p -> p <> NULL ->
  heap s !! p = Some c -> c_payload c = PProc d ->
  register_post E s
    (put_heap (<[p := Chunk (c_parent c) (c_destructor c)
                         (PProc (Proc.Build mod_inst (Proc.name d) (Proc.length d)
                                            evaluate instantiate escape inst_size))]>
                 (heap s)) s)
    mod_inst name evaluate escape instantiate inst_size.
Proof.
  intros Hok Hp Hnull Hc Hd.
  assert (exists t, map_proc_root s = Some t) as [t Ht].
  { unfold registered_at in Hp. destruct (map_proc_root s); [eauto|congruence]. }
  destruct (ok_tree _ Hok _ Ht) as [Hrep [Hlive Hnd]].
  set (nm := strlcpy name (FR_MAX_STRING_LEN E)).
  assert (p ∈ rb_nodes t /\ node_name (heap s) p = nm) as [Hin Hname].
  { apply lookup_name_elem; [|done]. unfold registered_at in Hp. by rewrite Ht in Hp. }
  assert (proc_at (heap s) p = Some d) as Hpd by (apply proc_at_Some; eauto).
  rewrite (node_name_at _ _ _ Hpd) in Hname.
  assert (wf_name d) as Hwf.
  { rewrite Forall_forall in Hlive. destruct (Hlive _ Hin) as (d' & Hd' & Hwf).
    congruence. }
  set (d' := Proc.Build _ _ _ _ _ _ _).
  set (h' := <[p := _]> (heap s)).
  assert (forall x, node_name h' x = node_name (heap s) x) as Hnames.
  { intros x. destruct (decide (p = x)) as [<-|Hne].
    - unfold node_name, h'. by rewrite proc_at_insert, Hpd.
    - by apply node_name_insert_ne. }
  assert (forall name', registered_at E (put_heap h' s) name' = registered_at E s name')
    as Hsame.
  { intros name'. unfold registered_at. simpl. rewrite Ht.
    apply lookup_name_ext. auto. }
  assert (registry_ok (put_heap h' s)) as Hok'.
  { split; simpl.
    - apply (ok_brk _ Hok).
    - intros q cq. unfold h'. rewrite lookup_insert.
      case_decide as Hq; [subst q; intros _|]; by eapply (ok_fresh _ Hok).
    - intros t0 Ht0. assert (t0 = t) as -> by congruence.
      split; [done|]. split.
      + rewrite Forall_forall in Hlive |- *. intros x Hx.
        destruct (decide (p = x)) as [<-|Hne].
        * exists d'. unfold h'. rewrite proc_at_insert. split; [done|].
          destruct Hwf. by split.
        * by apply live_insert_ne, Hlive.
      + by rewrite (names_ext (heap s) h') by auto. }
  unfold register_post. rewrite !Hsame, Hp.
  split; [done|]. split; [done|]. split.
  { simpl. unfold h'. rewrite proc_at_insert. f_equal. unfold d', registered.
    destruct Hwf as [Hlen _]. by rewrite Hlen, Hname. }
  split; [done|]. split; [auto|]. split; [|done].
  simpl. intros q Hq. unfold h'. by rewrite lookup_insert_ne.
Qed.

Lemma register_new_post mod_inst name evaluate escape instantiate inst_size
    s t pre post sc :
  registry_ok s ->
  map_proc_root s = Some t -> registered_at E s name = NULL ->
  rb_nodes t = pre ++ post ->
  register_post E s
    (State (<[brk s := Chunk mod_inst true
                         (PProc (registered (FR_MAX_STRING_LEN E) mod_inst name
                                   evaluate escape instantiate inst_size))]> (heap s))
           (N.succ (brk s)) sc
           (Some (Tree (rb_replace t) (pre ++ brk s :: post)))
           (log s) (world s))
    mod_inst name evaluate escape instantiate inst_size.
Proof.
  intros Hok Ht Hp Hsplit.
  destruct (ok_tree _ Hok _ Ht) as [Hrep [Hlive Hnd]].
  pose proof (fresh_brk _ Hok) as Hfresh.
  pose proof (ok_brk _ Hok) as Hbrk.
  set (b := brk s) in *.
  set (nm := strlcpy name (FR_MAX_STRING_LEN E)).
  set (d := registered _ _ _ _ _ _ _).
  set (h' := <[b := _]> (heap s)).
  rewrite Hsplit in Hlive, Hnd.
  assert (forall x, x ∈ pre ++ post -> b <> x) as Hne.
  { intros x Hx ->. rewrite Forall_forall in Hlive.
    apply Hlive, live_mapped in Hx as [? Hx]. congruence. }
  assert (node_name h' <$> pre ++ post = node_name (heap s) <$> pre ++ post) as Hnames.
  { apply names_ext. intros x Hx. apply node_name_insert_ne; auto. }
  assert (node_name h' b = nm) as Hb.
  { unfold node_name, h'. by rewrite proc_at_insert. }
  assert (nm ∉ node_name (heap s) <$> pre ++ post) as Hnew.
  { unfold registered_at in Hp. rewrite Ht, Hsplit in Hp.
    apply lookup_name_NULL in Hp; [done|].
    rewrite <- Hsplit. by eapply nodes_not_NULL. }
  assert (forall nm', lookup_name h' nm' (pre ++ b :: post) =
            if decide (nm = nm') then b else lookup_name (heap s) nm' (pre ++ post))
    as Hlookup.
  { intros nm'. rewrite lookup_name_insert by (by rewrite Hb, Hnames).
    rewrite Hb. case_decide; [done|].
    apply lookup_name_ext. intros x Hx. apply node_name_insert_ne; auto. }
  set (s' := State h' _ _ _ _ _).
  assert (registry_ok s') as Hok'.
  { split; simpl.
    - lia.
    - intros q cq. unfold h'. rewrite lookup_insert.
      case_decide as Hq; [subst q; intros _; lia|].
      intros Hq'. apply (ok_fresh _ Hok) in Hq'. fold b in Hq'. lia.
    - intros t0 [= <-]. split; [done|]. split; simpl.
      + rewrite Forall_app, Forall_cons. rewrite Forall_app in Hlive.
        destruct Hlive as [Hl1 Hl2].
        rewrite Forall_forall in Hl1, Hl2. repeat split.
        * rewrite Forall_forall. intros x Hx.
          apply live_insert_ne, Hl1; [apply Hne|]; set_solver.
        * exists d. unfold h'. rewrite proc_at_insert. split; [done|].
          apply registered_wf.
        * rewrite Forall_forall. intros x Hx.
          apply live_insert_ne, Hl2; [apply Hne|]; set_solver.
      + rewrite fmap_app, fmap_cons, Hb.
        rewrite fmap_app in Hnames, Hnew.
        assert (node_name h' <$> pre = node_name (heap s) <$> pre) as ->.
        { apply names_ext. intros x Hx. apply node_name_insert_ne, Hne. set_solver. }
        assert (node_name h' <$> post = node_name (heap s) <$> post) as ->.
        { apply names_ext. intros x Hx. apply node_name_insert_ne, Hne. set_solver. }
        rewrite fmap_app in Hnd.
        apply NoDup_app in Hnd as (Hn1 & Hn2 & Hn3).
        rewrite not_elem_of_app in Hnew. destruct Hnew as [Hnew1 Hnew2].
        apply NoDup_app. split; [done|]. split.
        * intros x Hx. rewrite not_elem_of_cons. split; [|by apply Hn2].
          intros ->. done.
        * apply NoDup_cons. done. }
  unfold register_post.
  assert (registered_at E s' name = b) as Hreg.
  { unfold registered_at. simpl. rewrite Hlookup. by rewrite decide_True. }
  rewrite Hreg, Hp.
  split; [done|]. split; [unfold NULL; lia|]. split.
  { simpl. unfold h'. by rewrite proc_at_insert. }
  split; [done|]. split.
  { intros name' Hname'. unfold registered_at. simpl. rewrite Ht, Hlookup.
    rewrite decide_False by done. by rewrite Hsplit. }
  split; [|done].
  simpl. intros q Hq. unfold h'. by rewrite lookup_insert_ne.
Qed.

Lemma found_is_descriptor s name :
  registry_ok s -> registered_at E s name <> NULL ->
  exists c d, heap s !! registered_at E s name = Some c /\ c_payload c = PProc d /\
              wf_name d /\ Proc.name d = strlcpy name (FR_MAX_STRING_LEN E).
Proof.
  intros Hok Hp. unfold registered_at in *.
  destruct (map_proc_root s) as [t|] eqn:Ht; [|done].
  destruct (ok_tree _ Hok _ Ht) as [_ [Hlive _]].
  destruct (lookup_name_elem _ _ _ _ eq_refl Hp) as [Hin Hname].
  rewrite Forall_forall in Hlive.
  destruct (Hlive _ Hin) as (d & Hd & Hwf).
  rewrite (node_name_at _ _ _ Hd) in Hname.
  apply proc_at_Some in Hd as (c & Hc & Hd). eauto 10.
Qed.

Lemma register_rooted_success mod_inst name evaluate escape instantiate inst_size
    s s' t :
  registry_ok s -> assert_passes E name -> map_proc_root s = Some t ->
  map_proc_register E mod_inst name evaluate escape instantiate inst_size s =
    Done 0 s' ->
  register_post E s s' mod_inst name evaluate escape instantiate inst_size.
Proof.
  intros Hok Hassert Ht Hrun.
  destruct (decide (registered_at E s name = NULL)) as [Hp|Hp].
  - destruct (hd true (script s)) eqn:Hmem.
    + destruct (register_new mod_inst name evaluate escape instantiate inst_size
                  s t Hok Hassert Ht Hp Hmem) as (pre & post & Hsplit & Heq).
      rewrite Heq in Hrun. destruct (hd true (tl (script s))).
      * injection Hrun as <-. by apply register_new_post.
      * unfold bind, talloc_free, ret in Hrun.
        destruct (brk s =? NULL)%N; discriminate.
    + by rewrite (register_new_no_proc _ _ _ _ _ _ _ _ Hok Hassert Ht Hp Hmem) in Hrun.
  - destruct (found_is_descriptor _ _ Hok Hp) as (c & d & Hc & Hd & _).
    rewrite (register_again _ _ _ _ _ _ _ _ _ _ Hok Hassert eq_refl Hp Hc Hd) in Hrun.
    injection Hrun as <-. by apply register_again_post.
Qed.

(** A registration that returns 0 leaves the registry as [register_post]
    describes. *)
Theorem map_proc_register_success mod_inst name evaluate escape instantiate inst_size
    s s' :
  registry_ok s ->
  map_proc_register E mod_inst name evaluate escape instantiate inst_size s =
    Done 0 s' ->
  register_post E s s' mod_inst name evaluate escape instantiate inst_size.
Proof.
  intros Hok Hrun.
  destruct (assert_passes_dec name) as [Hassert|[Hn Hname]];
    [|by rewrite register_assert_fails in Hrun].
  destruct (map_proc_root s) as [t|] eqn:Ht.
  { by eapply register_rooted_success. }
  rewrite register_first in Hrun by done.
  destruct (hd true (script s)); [|discriminate].
  eapply register_rooted_success in Hrun;
    [|by apply registry_ok_created|done|reflexivity].
  assert (forall nm, registered_at E s nm = NULL) as Hnone.
  { intros nm. unfold registered_at. by rewrite Ht. }
  destruct Hrun as (P1 & P2 & P3 & P4 & P5 & P6 & P7 & P8).
  unfold register_post. rewrite !Hnone.
  split; [done|]. split; [done|]. split; [done|]. split; [done|].
  split; [|done]. intros name' Hname'. by rewrite P5.
Qed.

(** With memory available a registration whose name passes the assertion
    returns 0. *)
Theorem map_proc_register_progress mod_inst name evaluate escape instantiate inst_size s :
  registry_ok s -> assert_passes E name -> memory_available s ->
  exists s',
    map_proc_register E mod_inst name evaluate escape instantiate inst_size s =
      Done 0 s'.
Proof.
  assert (forall s t, registry_ok s -> assert_passes E name -> memory_available s ->
            map_proc_root s = Some t ->
            exists s',
              map_proc_register E mod_inst name evaluate escape instantiate inst_size s =
                Done 0 s') as Hrooted.
  { clear s. intros s t Hok Hassert Hmem Ht.
    destruct (decide (registered_at E s name = NULL)) as [Hp|Hp].
    - destruct (register_new mod_inst name evaluate escape instantiate inst_size
                  s t Hok Hassert Ht Hp (memory_available_hd _ Hmem))
        as (pre & post & Hsplit & Heq).
      rewrite Heq, (memory_available_tl _ Hmem). eauto.
    - destruct (found_is_descriptor _ _ Hok Hp) as (c & d & Hc & Hd & _).
      rewrite (register_again _ _ _ _ _ _ _ _ _ _ Hok Hassert eq_refl Hp Hc Hd).
      eauto. }
  intros Hok Hassert Hmem.
  destruct (map_proc_root s) as [t|] eqn:Ht; [by eapply Hrooted|].
  rewrite register_first, (memory_available_hd _ Hmem) by done.
  eapply Hrooted; [by apply registry_ok_created|done| |reflexivity].
  unfold memory_available in *. simpl. destruct Hmem; simpl; [constructor|done].
Qed.

Lemma map_proc_find_uninitialised name s :
  map_proc_root s = None -> map_proc_find E name s = Done NULL s.
Proof. intros Hroot. unfold map_proc_find, bind, get_root. by rewrite Hroot. Qed.


(** *** Unregistration *)

Lemma remove_name_elem h nm nodes d :
  NoDup (node_name h <$> nodes) ->
  d ∈ remove_name h nm nodes <-> d ∈ nodes /\ node_name h d <> nm.
Proof.
  induction nodes as [|x nodes IH]; simpl; intros Hnd.
  - split; [by intros ?%elem_of_nil|by intros [?%elem_of_nil _]].
  - apply NoDup_cons in Hnd as [Hx Hnd]. case_decide as Hd.
    + rewrite elem_of_cons. split.
      * intros Hin. split; [by right|]. intros Hn. apply Hx.
        rewrite Hd, <- Hn. by apply list_elem_of_fmap_2.
      * intros [[->|Hin] Hn]; done.
    + rewrite !elem_of_cons, IH by done. split.
      * intros [->|[? ?]]; [split; [by left|done]|split; [by right|done]].
      * intros [[->|Hin] Hn]; [by left|by right].
Qed.

Lemma rbtree_deletebydata_spec data d s t :
  map_proc_root s = Some t -> proc_at (heap s) data = Some d -> wf_name d ->
  Forall (live (heap s)) (rb_nodes t) ->
  Proc.name d ∈ node_name (heap s) <$> rb_nodes t ->
  rbtree_deletebydata data s =
    Done true (put_root (Some (Tree (rb_replace t)
                                 (remove_name (heap s) (Proc.name d) (rb_nodes t)))) s).
Proof.
  intros Ht Hd Hwf Hlive Hin. unfold rbtree_deletebydata.
  erewrite (bind_done get_root) by reflexivity. rewrite Ht.
  rewrite (bind_done _ _ _ _ _ (load_proc_at _ _ _ Hd)).
  rewrite (bind_done _ _ _ _ _ (rb_delete_spec _ _ _ Hwf Hlive)).
  by rewrite decide_True.
Qed.

(** [_map_proc_unregister] takes the node registered under the name of the
    descriptor out of the tree and touches nothing else. *)
Lemma unregister_spec proc p s t :
  registry_ok s -> map_proc_root s = Some t ->
  proc_at (heap s) proc = Some p ->
  _map_proc_unregister E proc s =
    Done 0 (put_root
              (Some (Tree (rb_replace t)
                          (remove_name (heap s)
                             (strlcpy (Proc.name p) (FR_MAX_STRING_LEN E))
                             (rb_nodes t)))) s).
Proof.
  intros Hok Ht Hp.
  destruct (ok_tree _ Hok _ Ht) as [_ [Hlive Hnd]].
  set (nm := strlcpy (Proc.name p) (FR_MAX_STRING_LEN E)).
  unfold _map_proc_unregister.
  rewrite (bind_done _ _ _ _ _ (load_proc_at _ _ _ Hp)).
  assert (rbtree_finddata (find_key E (Proc.name p)) s =
            Done (lookup_name (heap s) nm (rb_nodes t)) s) as Hfind.
  { unfold rbtree_finddata. erewrite (bind_done get_root) by reflexivity.
    rewrite Ht. by rewrite rb_find_spec; [|apply find_key_wf|]. }
  rewrite (bind_done _ _ _ _ _ Hfind).
  destruct (N.eqb_spec (lookup_name (heap s) nm (rb_nodes t)) NULL) as [Hnull|Hfound].
  - apply lookup_name_NULL in Hnull; [|by eapply nodes_not_NULL].
    rewrite remove_name_absent by done.
    unfold ret, put_root. f_equal. destruct s as [? ? ? r ? ?]. simpl in *.
    subst r. by destruct t.
  - destruct (lookup_name_elem _ _ _ _ eq_refl Hfound) as [Hin Hname].
    rewrite Forall_forall in Hlive.
    destruct (Hlive _ Hin) as (d & Hd & Hwf).
    rewrite (node_name_at _ _ _ Hd) in Hname.
    erewrite bind_done; [done|].
    rewrite (rbtree_deletebydata_spec _ d _ t); [by rewrite Hname|done..| |].
    + by apply Forall_forall.
    + rewrite <- (node_name_at _ _ _ Hd). by apply list_elem_of_fmap_2.
Qed.

(** *** Main properties of the registry *)

(** C5: [map_proc_cmp] orders two descriptors by name length first (the
    shorter name comes first) and compares the name bytes only when the
    lengths are equal; two well-formed names of different lengths never
    compare equal, whatever their bytes (one may be a prefix of the other);
    and after registering
    "sql" and then "sqlite" each name finds its own descriptor, the two
    being different nodes that carry what was registered under each. *)
Theorem map_proc_cmp_length_first :
  (forall a b, Proc.length a <> Proc.length b ->
     map_proc_cmp a b = to_int (Proc.length a - Proc.length b)) /\
  (forall a b, Proc.length a = Proc.length b ->
     map_proc_cmp a b =
       memcmp (Proc.name a) (Proc.name b) (Z.to_nat (to_size_t (Proc.length a)))) /\
  (forall a b, wf_name a -> wf_name b ->
     (Proc.length a < Proc.length b -> map_proc_cmp a b < 0) /\
     (Proc.length b < Proc.length a -> 0 < map_proc_cmp a b)) /\
  (forall a b, wf_name a -> wf_name b ->
     length (Proc.name a) <> length (Proc.name b) -> map_proc_cmp a b <> 0) /\
  (forall s s1 s2 m1 e1 x1 i1 z1 m2 e2 x2 i2 z2,
     (7 <= FR_MAX_STRING_LEN E)%nat -> registry_ok s ->
     map_proc_register E m1 Demo.sql e1 x1 i1 z1 s = Done 0 s1 ->
     map_proc_register E m2 Demo.sqlite e2 x2 i2 z2 s1 = Done 0 s2 ->
     exists p1 p2,
       p1 <> p2 /\ p1 <> NULL /\ p2 <> NULL /\
       map_proc_find E Demo.sql s2 = Done p1 s2 /\
       map_proc_find E Demo.sqlite s2 = Done p2 s2 /\
       proc_at (heap s2) p1 = Some (Proc.Build m1 Demo.sql 3 e1 i1 x1 z1) /\
       proc_at (heap s2) p2 = Some (Proc.Build m2 Demo.sqlite 6 e2 i2 x2 z2)).
Proof.
  split; [apply map_proc_cmp_lengths_differ|].
  split; [apply map_proc_cmp_lengths_equal|].
  split.
  { intros a b [Ha Ha'] [Hb Hb'].
    split; intros Hlt;
      rewrite map_proc_cmp_lengths_differ, to_int_small; lia. }
  split; [apply map_proc_cmp_prefix|].
  intros s s1 s2 m1 e1 x1 i1 z1 m2 e2 x2 i2 z2 Hlen Hok Hr1 Hr2.
  assert (strlcpy Demo.sql (FR_MAX_STRING_LEN E) = Demo.sql) as Hsql.
  { unfold strlcpy. apply take_ge. simpl. lia. }
  assert (strlcpy Demo.sqlite (FR_MAX_STRING_LEN E) = Demo.sqlite) as Hsqlite.
  { unfold strlcpy. apply take_ge. simpl. lia. }
  apply map_proc_register_success in Hr1; [|done].
  destruct Hr1 as (Hok1 & Hn1 & Hd1 & _).
  apply map_proc_register_success in Hr2; [|done].
  destruct Hr2 as (Hok2 & Hn2 & Hd2 & _ & Hother & Hheap & _).
  assert (registered_at E s2 Demo.sql = registered_at E s1 Demo.sql) as Hkeep.
  { apply Hother. by rewrite Hsql, Hsqlite. }
  assert (registered_at E s2 Demo.sqlite <> registered_at E s2 Demo.sql) as Hne.
  { intros Heq.
    (* one node would carry both names *)
    destruct (map_proc_root s2) as [t2|] eqn:Ht2;
      [|unfold registered_at in Hn2; by rewrite Ht2 in Hn2].
    assert (node_name (heap s2) (registered_at E s2 Demo.sql) = Demo.sql) as Hnm.
    { apply (lookup_name_elem _ _ (rb_nodes t2)).
      - unfold registered_at. by rewrite Ht2, Hsql.
      - by rewrite <- Heq. }
    rewrite <- Heq, (node_name_at _ _ _ Hd2) in Hnm. simpl in Hnm.
    by rewrite Hsqlite in Hnm. }
  exists (registered_at E s2 Demo.sql), (registered_at E s2 Demo.sqlite).
  split; [done|]. split; [by rewrite Hkeep|]. split; [done|].
  split; [by apply map_proc_find_spec|]. split; [by apply map_proc_find_spec|].
  split.
  - rewrite Hkeep. unfold proc_at. rewrite Hheap by (by rewrite <- Hkeep).
    unfold proc_at, registered in Hd1. by rewrite Hsql in Hd1.
  - unfold registered in Hd2. by rewrite Hsqlite in Hd2.
Qed.

(** C6: registering under a name that is present assigns owner, evaluate,
    escape, instantiate and instance size on the descriptor already in the
    tree: [map_proc_find] returns the same pointer before and after, the
    name and the cached length of the descriptor are as before, nothing is
    allocated, and the tree and every other chunk are untouched. *)
Theorem map_proc_register_in_place mod_inst name evaluate escape instantiate inst_size
    s p :
  registry_ok s -> assert_passes E name ->
  map_proc_find E name s = Done p s -> p <> NULL ->
  exists d s',
    proc_at (heap s) p = Some d /\
    map_proc_register E mod_inst name evaluate escape instantiate inst_size s =
      Done 0 s' /\
    map_proc_find E name s' = Done p s' /\
    proc_at (heap s') p =
      Some (Proc.Build mod_inst (Proc.name d) (Proc.length d)
                       evaluate instantiate escape inst_size) /\
    map_proc_root s' = map_proc_root s /\ brk s' = brk s /\
    (forall q, q <> p -> heap s' !! q = heap s !! q).
Proof.
  intros Hok Hassert Hfind Hnull.
  rewrite map_proc_find_spec in Hfind by done. injection Hfind as Hp.
  rewrite <- Hp in Hnull.
  destruct (found_is_descriptor _ _ Hok Hnull) as (c & d & Hc & Hd & _).
  rewrite Hp in Hc, Hnull.
  pose proof (register_again mod_inst name evaluate escape instantiate inst_size
                _ _ _ _ Hok Hassert Hp Hnull Hc Hd) as Hrun.
  pose proof (register_again_post mod_inst name evaluate escape instantiate inst_size
                _ _ _ _ Hok Hp Hnull Hc Hd) as (Hok' & _ & _ & Hsame & _).
  eexists d, _. split; [apply proc_at_Some; eauto|]. split; [exact Hrun|].
  split.
  { rewrite map_proc_find_spec by done. f_equal.
    rewrite Hsame, Hp by (by rewrite Hp). done. }
  split; [simpl; by rewrite proc_at_insert|].
  split; [done|]. split; [done|].
  intros q Hq. simpl. by rewrite lookup_insert_ne.
Qed.

(** C10: [map_proc_register] and [map_proc_find] cut a name to the
    [FR_MAX_STRING_LEN - 1] bytes the name buffer holds: after a
    registration under one name, [map_proc_find] returns the same descriptor
    for it and for any name with the same first [FR_MAX_STRING_LEN - 1]
    bytes, and the name and length stored are those of the cut string. *)
Theorem map_proc_name_truncation mod_inst n1 n2 evaluate escape instantiate inst_size
    s s' :
  registry_ok s ->
  take (FR_MAX_STRING_LEN E - 1) (c_str n1) = take (FR_MAX_STRING_LEN E - 1) (c_str n2) ->
  map_proc_register E mod_inst n1 evaluate escape instantiate inst_size s = Done 0 s' ->
  exists p d,
    p <> NULL /\
    map_proc_find E n1 s' = Done p s' /\
    map_proc_find E n2 s' = Done p s' /\
    proc_at (heap s') p = Some d /\
    Proc.name d = take (FR_MAX_STRING_LEN E - 1) (c_str n1) /\
    Proc.length d = Z.of_nat (length (take (FR_MAX_STRING_LEN E - 1) (c_str n1))).
Proof.
  intros Hok Hcut Hrun.
  apply map_proc_register_success in Hrun; [|done].
  destruct Hrun as (Hok' & Hn & Hd & _).
  eexists (registered_at E s' n1), _.
  split; [done|]. split; [by apply map_proc_find_spec|]. split.
  { rewrite map_proc_find_spec by done. f_equal.
    unfold registered_at, strlcpy. by rewrite Hcut. }
  split; [exact Hd|]. done.
Qed.

(** C7, as amended: a call with an empty name is not answered with a
    failure result.  In a build with assertions
    [rad_assert(name && name[0])] ends the process before the registry is
    touched; in a build with NDEBUG the empty name is registered like any
    other, and with memory available the call returns 0 and the descriptor
    is found under the empty name. *)
Theorem map_proc_register_empty_name mod_inst name evaluate escape instantiate inst_size :
  hd x00 name = x00 ->
  (NDEBUG E = false ->
   forall s,
     map_proc_register E mod_inst name evaluate escape instantiate inst_size s =
       Fault SIGABRT) /\
  (NDEBUG E = true ->
   forall s, registry_ok s -> memory_available s ->
     exists s' p,
       map_proc_register E mod_inst name evaluate escape instantiate inst_size s =
         Done 0 s' /\
       map_proc_find E name s' = Done p s' /\ p <> NULL /\
       proc_at (heap s') p =
         Some (Proc.Build mod_inst [] 0 evaluate instantiate escape inst_size)).
Proof.
  intros Hempty. split.
  - intros Hn s. by apply register_assert_fails.
  - intros Hn s Hok Hmem.
    destruct (map_proc_register_progress mod_inst name evaluate escape instantiate
                inst_size s Hok (or_introl Hn) Hmem) as [s' Hrun].
    pose proof (map_proc_register_success _ _ _ _ _ _ _ _ Hok Hrun)
      as (Hok' & Hp & Hd & _).
    exists s', (registered_at E s' name).
    split; [done|]. split; [by apply map_proc_find_spec|]. split; [done|].
    rewrite Hd. unfold registered. by rewrite strlcpy_empty.
Qed.

Lemma lookup_name_unique h nm nodes d :
  NoDup (node_name h <$> nodes) -> d ∈ nodes -> node_name h d = nm ->
  lookup_name h nm nodes = d.
Proof.
  induction nodes as [|x nodes IH]; simpl; intros Hnd Hin Hname.
  - by apply elem_of_nil in Hin.
  - apply NoDup_cons in Hnd as [Hx Hnd]. apply elem_of_cons in Hin as [->|Hin].
    + by rewrite decide_True.
    + case_decide as Hd; [|by apply IH].
      exfalso. apply Hx. rewrite Hd, <- Hname. by apply list_elem_of_fmap_2.
Qed.

(** X17: on a registry that was created, [_map_proc_unregister] returns 0
    and takes out of the tree exactly the node found under the (re-derived)
    name of the descriptor: that name is no longer found, every other name
    finds what it found before, the chunks are untouched, and the invariant
    holds; when no node is found under the name the state is unchanged; and
    a second run on the result returns 0 and changes nothing. *)
Theorem map_proc_unregister_idempotent proc p s t :
  registry_ok s -> map_proc_root s = Some t ->
  proc_at (heap s) proc = Some p ->
  exists s' t',
    _map_proc_unregister E proc s = Done 0 s' /\
    registry_ok s' /\ heap s' = heap s /\ map_proc_root s' = Some t' /\
    (forall d, d ∈ rb_nodes t' <->
               d ∈ rb_nodes t /\ d <> registered_at E s (Proc.name p)) /\
    registered_at E s' (Proc.name p) = NULL /\
    (forall name',
       strlcpy name' (FR_MAX_STRING_LEN E) <>
         strlcpy (Proc.name p) (FR_MAX_STRING_LEN E) ->
       registered_at E s' name' = registered_at E s name') /\
    (registered_at E s (Proc.name p) = NULL -> s' = s) /\
    _map_proc_unregister E proc s' = Done 0 s'.
Proof.
  intros Hok Ht Hp.
  destruct (ok_tree _ Hok _ Ht) as [Hrep [Hlive Hnd]].
  set (nm := strlcpy (Proc.name p) (FR_MAX_STRING_LEN E)).
  set (nodes' := remove_name (heap s) nm (rb_nodes t)).
  set (t' := Tree (rb_replace t) nodes').
  destruct (remove_name_names (heap s) nm _ Hnd) as [Hnd' Hgone].
  fold nodes' in Hnd', Hgone.
  assert (registry_ok (put_root (Some t') s)) as Hok'.
  { destruct Hok as [H1 H2 H3]. split; simpl; [done..|].
    intros ? [= <-]. split; [done|]. split; [|done].
    rewrite Forall_forall in Hlive |- *. intros d Hd.
    apply Hlive. unfold t', nodes' in Hd. by eapply remove_name_sub. }
  exists (put_root (Some t') s), t'.
  split; [by apply unregister_spec|]. split; [done|]. split; [done|].
  split; [done|]. split.
  { intros d. unfold t', nodes'. simpl. rewrite remove_name_elem by done.
    unfold registered_at. rewrite Ht. fold nm. split.
    - intros [Hin Hname]. split; [done|]. intros ->.
      destruct (decide (lookup_name (heap s) nm (rb_nodes t) = NULL)) as [Hl|Hl].
      + rewrite Hl in Hin. exact (nodes_not_NULL _ _ Hok Ht Hin).
      + by destruct (lookup_name_elem _ _ _ _ eq_refl Hl).
    - intros [Hin Hne]. split; [done|]. intros Hname. apply Hne.
      symmetry. by apply lookup_name_unique. }
  split.
  { unfold registered_at. simpl. fold nm. unfold nodes'.
    rewrite lookup_name_remove by done. by rewrite decide_True. }
  split.
  { intros name' Hname'. unfold registered_at. simpl. rewrite Ht. unfold nodes'.
    rewrite lookup_name_remove by done. by rewrite decide_False. }
  split.
  { unfold registered_at. rewrite Ht. fold nm. intros Hnone.
    apply lookup_name_NULL in Hnone; [|exact (nodes_not_NULL _ _ Hok Ht)].
    unfold t', nodes'. rewrite remove_name_absent by done.
    unfold put_root. destruct s as [? ? ? r ? ?]. simpl in *. subst r.
    by destruct t. }
  rewrite (unregister_spec proc p _ t'); [|done|done|done].
  simpl. fold nm. by rewrite remove_name_absent.
Qed.



End Registry.

(** ** Instance construction *)

Section Instances.
Context {W : Type} (E : env W).
Implicit Types (s : state W) (h : gmap ptr chunk).

Lemma hangs_under_top h fuel top : top <> NULL -> hangs_under h fuel top top = true.
Proof.
  intros Hn. destruct fuel; simpl;
    (destruct (N.eqb_spec top NULL); [done|]); by rewrite N.eqb_refl.
Qed.

Lemma hangs_under_child h fuel top q c :
  top <> NULL -> q <> NULL -> h !! q = Some c -> c_parent c = top ->
  hangs_under h (S fuel) top q = true.
Proof.
  intros Htop Hq Hc Hpar. simpl.
  destruct (N.eqb_spec q NULL); [done|].
  destruct (q =? top)%N; [done|].
  rewrite Hc, Hpar. by apply hangs_under_top.
Qed.

Lemma hangs_under_older h top :
  (forall q c, h !! q = Some c -> (q < top)%N -> (c_parent c < top)%N) ->
  forall fuel q, (q < top)%N -> hangs_under h fuel top q = false.
Proof.
  intros Hpar. induction fuel as [|fuel IH]; intros q Hq; simpl.
  - destruct (q =? NULL)%N; [done|].
    by destruct (N.eqb_spec q top); [lia|].
  - destruct (q =? NULL)%N; [done|].
    destruct (N.eqb_spec q top); [lia|].
    destruct (h !! q) as [c|] eqn:Hc; [|done].
    apply IH. by eapply Hpar.
Qed.

(** Releasing a chunk that was allocated last, with nothing but its own
    children allocated since, restores the chunks there were before. *)
Lemma talloc_free_unwinds (h0 h : gmap ptr chunk) top fuel :
  (0 < top)%N ->
  (forall q c, h0 !! q = Some c -> (q < top)%N /\ (c_parent c < top)%N) ->
  (forall q, (q < top)%N -> h !! q = h0 !! q) ->
  (forall q c, h !! q = Some c -> (top <= q)%N -> q = top \/ c_parent c = top) ->
  filter (fun kc => hangs_under h (S fuel) top kc.1 = false) h = h0.
Proof.
  intros Htop Hold Hsame Hnew.
  assert (top <> NULL) as Hnn by (unfold NULL; lia).
  apply map_eq. intros q. apply option_eq. intros c.
  rewrite map_lookup_filter_Some. cbn [fst]. split.
  - intros [Hq Hun]. destruct (decide (q < top)%N) as [Hlt|Hge].
    + by rewrite <- Hsame.
    + exfalso. assert (top <= q)%N as Hle by lia.
      destruct (Hnew q c Hq Hle) as [->|Hpar].
      * by rewrite hangs_under_top in Hun.
      * rewrite (hangs_under_child _ _ _ _ c) in Hun; [done|done| |done|done].
        unfold NULL. lia.
  - intros Hq. destruct (Hold _ _ Hq) as [Hlt Hpar].
    split; [by rewrite Hsame|].
    apply hangs_under_older; [|done].
    intros q' c' Hq' Hlt'. rewrite Hsame in Hq' by done.
    by destruct (Hold _ _ Hq').
Qed.

Lemma inst_at_insert h b par dt i :
  inst_at (<[b := Chunk par dt (PInst i)]> h) b = Some i.
Proof. unfold inst_at. by rewrite lookup_insert_eq. Qed.

(** The first steps of [map_proc_instantiate] when the instance cannot be
    allocated: the NULL returned by [talloc_zero] is written through. *)
Lemma instantiate_no_instance ctx proc src maps s :
  heap s !! NULL = None -> hd true (script s) = false ->
  map_proc_instantiate E ctx proc src maps s = Fault SIGSEGV.
Proof.
  intros Hnull Hmem. unfold map_proc_instantiate, talloc_zero_map_proc_inst_t.
  erewrite bind_done by (rewrite talloc_spec, Hmem; reflexivity).
  by apply bind_fault, store_inst_fault.
Qed.

Ltac instantiate_prefix Hok Hmem Hd fresh_state :=
  unfold map_proc_instantiate, talloc_zero_map_proc_inst_t;
  erewrite bind_done by (rewrite talloc_spec, Hmem; reflexivity);
  do 3 (erewrite bind_done;
        [|eapply store_inst_at; [apply lookup_insert_eq|reflexivity]]);
  unfold put_heap; simpl; rewrite !insert_insert_eq;
  erewrite bind_done;
    [|apply load_proc_at; simpl; rewrite proc_at_insert_ne; [exact Hd|];
      intros <-; apply proc_at_Some in Hd as (? & Hd & _);
      apply (ok_fresh _ Hok) in Hd; lia];
  match goal with
  | |- context [State ?h ?b ?sc ?r ?l ?w] =>
      change (State h b sc r l w) with fresh_state
  end.

(** Without an instantiate callback nothing more happens: no buffer, whatever
    the instance size. *)
Lemma instantiate_plain ctx proc src maps s d :
  registry_ok s -> proc_at (heap s) proc = Some d ->
  hd true (script s) = true -> Proc.instantiate d = NULL ->
  map_proc_instantiate E ctx proc src maps s =
    Done (brk s) (fresh_instance ctx proc src maps s).
Proof.
  intros Hok Hd Hmem Hfn.
  instantiate_prefix Hok Hmem Hd (fresh_instance ctx proc src maps s).
  rewrite Hfn. done.
Qed.

(** The call of the instantiate callback and what follows it. *)
Lemma instantiate_hook inst i fn mod_inst src maps rc w' s :
  inst_at (heap s) inst = Some i -> fn <> NULL ->
  call_instantiate E fn (Inst.data i) mod_inst src maps (world s) = (rc, w') ->
  (let* i := load_inst inst in
   let* rc := invoke_instantiate E fn (Inst.data i) mod_inst src maps in
   if rc <? 0 then talloc_free inst ;; ret NULL else ret inst)%C s =
  if rc <? 0
  then (talloc_free inst ;; ret NULL)%C
         (called (EvInstantiate fn (Inst.data i) mod_inst src maps) w' s)
  else Done inst (called (EvInstantiate fn (Inst.data i) mod_inst src maps) w' s).
Proof.
  intros Hi Hfn Hcall.
  rewrite (bind_done _ _ _ _ _ (load_inst_at _ _ _ Hi)).
  unfold invoke_instantiate. apply N.eqb_neq in Hfn. rewrite Hfn.
  unfold bind at 1. rewrite Hcall. by destruct (rc <? 0).
Qed.

(** An instantiate callback and no instance data: the callback is handed
    NULL. *)
Lemma instantiate_unbuffered ctx proc src maps s d rc w' :
  registry_ok s -> proc_at (heap s) proc = Some d ->
  hd true (script s) = true ->
  Proc.instantiate d <> NULL -> Proc.inst_size d = 0%N ->
  call_instantiate E (Proc.instantiate d) NULL (Proc.mod_inst d) src maps (world s) =
    (rc, w') ->
  let e := EvInstantiate (Proc.instantiate d) NULL (Proc.mod_inst d) src maps in
  map_proc_instantiate E ctx proc src maps s =
    if rc <? 0
    then (talloc_free (brk s) ;; ret NULL)%C
           (called e w' (fresh_instance ctx proc src maps s))
    else Done (brk s) (called e w' (fresh_instance ctx proc src maps s)).
Proof.
  intros Hok Hd Hmem Hfn Hsize Hcall e.
  instantiate_prefix Hok Hmem Hd (fresh_instance ctx proc src maps s).
  pose proof Hfn as Hfn'. apply N.eqb_neq in Hfn'. rewrite Hfn', Hsize.
  cbn [negb N.ltb N.compare]. unfold bind at 1, ret at 1.
  by erewrite (instantiate_hook _ (Inst.Build proc src maps NULL));
    [|apply inst_at_insert|done|exact Hcall].
Qed.

(** An instantiate callback and instance data that cannot be allocated:
    NULL is returned, and the instance stays where it was allocated. *)
Lemma instantiate_no_buffer ctx proc src maps s d :
  registry_ok s -> proc_at (heap s) proc = Some d ->
  hd true (script s) = true ->
  Proc.instantiate d <> NULL -> (0 < Proc.inst_size d)%N ->
  hd true (tl (script s)) = false ->
  map_proc_instantiate E ctx proc src maps s =
    Done NULL (pop_script (fresh_instance ctx proc src maps s)).
Proof.
  intros Hok Hd Hmem Hfn Hsize Hmem2.
  instantiate_prefix Hok Hmem Hd (fresh_instance ctx proc src maps s).
  apply N.eqb_neq in Hfn. rewrite Hfn. apply N.ltb_lt in Hsize. rewrite Hsize.
  cbn [negb]. unfold talloc_zero_array_uint8_t.
  assert ((let* data := talloc (brk s)
                          (PBytes (replicate (N.to_nat (Proc.inst_size d)) x00)) in
           store_inst (brk s) (set_data data) ;; ret (data =? NULL)%N)%C
            (fresh_instance ctx proc src maps s) =
          Done true (pop_script (fresh_instance ctx proc src maps s))) as Hbuf.
  { erewrite bind_done by (rewrite talloc_spec; simpl; rewrite Hmem2; reflexivity).
    erewrite bind_done;
      [|eapply store_inst_at; [apply lookup_insert_eq|reflexivity]].
    unfold ret, put_heap, pop_script, fresh_instance. simpl.
    by rewrite insert_insert_eq. }
  by rewrite (bind_done _ _ _ _ _ Hbuf).
Qed.

(** An instantiate callback and instance data: the callback is handed the
    zeroed buffer that hangs under the instance. *)
Lemma instantiate_buffered ctx proc src maps s d rc w' :
  registry_ok s -> proc_at (heap s) proc = Some d ->
  hd true (script s) = true ->
  Proc.instantiate d <> NULL -> (0 < Proc.inst_size d)%N ->
  hd true (tl (script s)) = true ->
  call_instantiate E (Proc.instantiate d) (N.succ (brk s)) (Proc.mod_inst d) src maps
                   (world s) = (rc, w') ->
  let e := EvInstantiate (Proc.instantiate d) (N.succ (brk s)) (Proc.mod_inst d)
                         src maps in
  let s2 := buffered_instance ctx proc src maps (Proc.inst_size d) s in
  map_proc_instantiate E ctx proc src maps s =
    if rc <? 0
    then (talloc_free (brk s) ;; ret NULL)%C (called e w' s2)
    else Done (brk s) (called e w' s2).
Proof.
  intros Hok Hd Hmem Hfn Hsize Hmem2 Hcall e s2.
  instantiate_prefix Hok Hmem Hd (fresh_instance ctx proc src maps s).
  pose proof Hfn as Hfn'. apply N.eqb_neq in Hfn'. rewrite Hfn'.
  apply N.ltb_lt in Hsize. rewrite Hsize.
  cbn [negb]. unfold talloc_zero_array_uint8_t.
  assert (N.succ (brk s) <> brk s) as Hne by lia.
  assert ((let* data := talloc (brk s)
                          (PBytes (replicate (N.to_nat (Proc.inst_size d)) x00)) in
           store_inst (brk s) (set_data data) ;; ret (data =? NULL)%N)%C
            (fresh_instance ctx proc src maps s) = Done false s2) as Hbuf.
  { erewrite bind_done by (rewrite talloc_spec; simpl; rewrite Hmem2; reflexivity).
    erewrite bind_done;
      [|eapply store_inst_at;
        [simpl; rewrite lookup_insert_ne by done; apply lookup_insert_eq
        |reflexivity]].
    unfold ret, put_heap, s2, buffered_instance. simpl.
    destruct (N.eqb_spec (N.succ (brk s)) NULL) as [Hz|_]; [unfold NULL in Hz; lia|].
    f_equal. f_equal.
    rewrite insert_insert_ne by done. by rewrite insert_insert_eq. }
  rewrite (bind_done _ _ _ _ _ Hbuf).
  by erewrite (instantiate_hook _ (Inst.Build proc src maps (N.succ (brk s))));
    [|unfold s2, buffered_instance; simpl;
      unfold inst_at; rewrite lookup_insert_ne by done;
      by rewrite lookup_insert_eq
     |done|exact Hcall].
Qed.

Lemma talloc_free_returns p s : exists s', (talloc_free p ;; ret NULL)%C s = Done NULL s'.
Proof.
  unfold bind, talloc_free, ret. destruct (p =? NULL)%N; eauto.
Qed.

(** [talloc_free(inst)] after a failed callback takes the instance and its
    buffer away again. *)
Lemma unwind_fresh ctx proc src maps s e w :
  registry_ok s -> parents_ok s ->
  (talloc_free (brk s) ;; ret NULL)%C
    (called e w (fresh_instance ctx proc src maps s)) =
  Done NULL (State (heap s) (N.succ (brk s)) (tl (script s)) (map_proc_root s)
                   (log s ++ [e]) w).
Proof.
  intros Hok Hpar. pose proof (ok_brk _ Hok) as Hbrk.
  unfold bind, talloc_free, ret.
  destruct (N.eqb_spec (brk s) NULL) as [Hz|_]; [unfold NULL in Hz; lia|].
  simpl. f_equal. f_equal.
  apply talloc_free_unwinds; [done| | |].
  - intros q c Hq. split; [apply (ok_fresh _ Hok) in Hq; lia|by eapply Hpar].
  - intros q Hq. apply lookup_insert_ne. lia.
  - intros q c Hq Hle. rewrite lookup_insert in Hq.
    case_decide; [by left|]. apply (ok_fresh _ Hok) in Hq. lia.
Qed.

Lemma unwind_buffered ctx proc src maps size s e w :
  registry_ok s -> parents_ok s ->
  (talloc_free (brk s) ;; ret NULL)%C
    (called e w (buffered_instance ctx proc src maps size s)) =
  Done NULL (State (heap s) (N.succ (N.succ (brk s))) (tl (tl (script s)))
                   (map_proc_root s) (log s ++ [e]) w).
Proof.
  intros Hok Hpar. pose proof (ok_brk _ Hok) as Hbrk.
  unfold bind, talloc_free, ret.
  destruct (N.eqb_spec (brk s) NULL) as [Hz|_]; [unfold NULL in Hz; lia|].
  simpl. f_equal. f_equal.
  apply talloc_free_unwinds; [done| | |].
  - intros q c Hq. split; [apply (ok_fresh _ Hok) in Hq; lia|by eapply Hpar].
  - intros q Hq. rewrite !lookup_insert_ne by lia. done.
  - intros q c Hq Hle. rewrite lookup_insert in Hq.
    case_decide; [right; by injection Hq as <-|].
    rewrite lookup_insert in Hq.
    case_decide; [by left|]. apply (ok_fresh _ Hok) in Hq. lia.
Qed.

(** When the instantiate callback fails, construction unwinds: NULL is
    returned and the chunks are those there were before the call. *)
Lemma instantiate_hook_failure_unwinds ctx proc src maps s d :
  registry_ok s -> parents_ok s -> proc_at (heap s) proc = Some d ->
  Proc.instantiate d <> NULL -> memory_available s ->
  (forall data,
     (call_instantiate E (Proc.instantiate d) data (Proc.mod_inst d) src maps
                       (world s)).1 < 0) ->
  exists s',
    map_proc_instantiate E ctx proc src maps s = Done NULL s' /\ heap s' = heap s.
Proof.
  intros Hok Hpar Hd Hfn Hmem Hfail.
  pose proof (memory_available_hd _ Hmem) as Hm1.
  pose proof (memory_available_tl _ Hmem) as Hm2.
  destruct (N.eq_dec (Proc.inst_size d) 0%N) as [Hsize|Hsize].
  - specialize (Hfail NULL).
    destruct (call_instantiate E _ NULL _ src maps (world s)) as [rc w'] eqn:Hcall.
    rewrite (instantiate_unbuffered _ _ _ _ _ _ _ _ Hok Hd Hm1 Hfn Hsize Hcall).
    simpl in Hfail. apply Z.ltb_lt in Hfail. rewrite Hfail.
    rewrite unwind_fresh by done. eauto.
  - specialize (Hfail (N.succ (brk s))).
    destruct (call_instantiate E _ (N.succ (brk s)) _ src maps (world s))
      as [rc w'] eqn:Hcall.
    assert (0 < Proc.inst_size d)%N as Hpos by lia.
    rewrite (instantiate_buffered _ _ _ _ _ _ _ _ Hok Hd Hm1 Hfn Hpos Hm2 Hcall).
    simpl in Hfail. apply Z.ltb_lt in Hfail. rewrite Hfail.
    rewrite unwind_buffered by done. eauto.
Qed.

(** C2, on the code: when the instance-data buffer cannot be allocated,
    [map_proc_instantiate] returns NULL without releasing the instance it
    has allocated: the chunk, new in this call, is still there under the
    context of the caller. *)
Theorem map_proc_instantiate_leaks_instance ctx proc src maps s d :
  registry_ok s -> proc_at (heap s) proc = Some d ->
  Proc.instantiate d <> NULL -> (0 < Proc.inst_size d)%N ->
  hd true (script s) = true -> hd true (tl (script s)) = false ->
  exists s',
    map_proc_instantiate E ctx proc src maps s = Done NULL s' /\
    heap s !! brk s = None /\
    heap s' !! brk s =
      Some (Chunk ctx false (PInst (Inst.Build proc src maps NULL))).
Proof.
  intros Hok Hd Hfn Hsize Hm1 Hm2.
  rewrite (instantiate_no_buffer _ _ _ _ _ _ Hok Hd Hm1 Hfn Hsize Hm2).
  eexists. split; [done|]. split.
  - destruct (heap s !! brk s) as [c|] eqn:Hc; [|done].
    apply (ok_fresh _ Hok) in Hc. lia.
  - simpl. apply lookup_insert_eq.
Qed.

(** C1, as amended: the instance-data buffer is allocated only for a
    descriptor that has an instantiate callback.  For such a descriptor with
    [inst_size > 0] the instance returned carries a zero-filled buffer of
    exactly [inst_size] bytes that hangs under the instance; for a descriptor
    without instantiate callback, or with [inst_size = 0], the data pointer
    of the instance stays NULL and the instance is the only chunk the call
    adds.  With memory available and a callback that does not fail an
    instance is returned. *)
Theorem map_proc_instantiate_buffer ctx proc src maps s d :
  registry_ok s -> proc_at (heap s) proc = Some d ->
  (forall inst s',
     map_proc_instantiate E ctx proc src maps s = Done inst s' -> inst <> NULL ->
     exists data,
       inst_at (heap s') inst = Some (Inst.Build proc src maps data) /\
       (Proc.instantiate d <> NULL -> (0 < Proc.inst_size d)%N ->
        data <> NULL /\
        heap s' !! data =
          Some (Chunk inst false
                      (PBytes (replicate (N.to_nat (Proc.inst_size d)) x00)))) /\
       (Proc.instantiate d = NULL \/ Proc.inst_size d = 0%N ->
        data = NULL /\ forall q, q <> inst -> heap s' !! q = heap s !! q)) /\
  (memory_available s ->
   (forall data,
      0 <= (call_instantiate E (Proc.instantiate d) data (Proc.mod_inst d) src maps
                             (world s)).1) ->
   exists inst s',
     map_proc_instantiate E ctx proc src maps s = Done inst s' /\ inst <> NULL).
Proof.
  intros Hok Hd. pose proof (ok_brk _ Hok) as Hbrk.
  assert (brk s <> NULL) as Hbn by (unfold NULL; lia).
  assert (N.succ (brk s) <> NULL) as Hsn by (unfold NULL; lia).
  assert (N.succ (brk s) <> brk s) as Hne by lia.
  destruct (N.eq_dec (Proc.instantiate d) NULL) as [Hfn|Hfn];
    [|destruct (N.eq_dec (Proc.inst_size d) 0%N) as [Hsize|Hsize]].
  - (* no instantiate callback *)
    split.
    + intros inst s' Hrun Hinst.
      destruct (hd true (script s)) eqn:Hm1.
      * rewrite (instantiate_plain _ _ _ _ _ _ Hok Hd Hm1 Hfn) in Hrun.
        injection Hrun as <- <-. exists NULL.
        split; [apply inst_at_insert|]. split; [done|].
        intros _. split; [done|]. intros q Hq. simpl. by rewrite lookup_insert_ne.
      * by rewrite instantiate_no_instance in Hrun
          by (done || by apply (null_unmapped _ Hok)).
    + intros Hmem _. eexists _, _.
      by rewrite (instantiate_plain _ _ _ _ _ _ Hok Hd
                    (memory_available_hd _ Hmem) Hfn).
  - (* a callback, no instance data *)
    destruct (call_instantiate E (Proc.instantiate d) NULL (Proc.mod_inst d) src maps
                               (world s)) as [rc w'] eqn:Hcall.
    split.
    + intros inst s' Hrun Hinst.
      destruct (hd true (script s)) eqn:Hm1.
      * rewrite (instantiate_unbuffered _ _ _ _ _ _ _ _ Hok Hd Hm1 Hfn Hsize Hcall)
          in Hrun.
        destruct (rc <? 0).
        { destruct (talloc_free_returns (brk s)
                      (called (EvInstantiate (Proc.instantiate d) NULL
                                 (Proc.mod_inst d) src maps) w'
                              (fresh_instance ctx proc src maps s))) as [s'' Hfree].
          rewrite Hfree in Hrun. by injection Hrun as <- _. }
        injection Hrun as <- <-. exists NULL.
        split; [apply inst_at_insert|]. split; [intros _ ?; lia|].
        intros _. split; [done|]. intros q Hq. simpl. by rewrite lookup_insert_ne.
      * by rewrite instantiate_no_instance in Hrun
          by (done || by apply (null_unmapped _ Hok)).
    + intros Hmem Hgood. specialize (Hgood NULL). rewrite Hcall in Hgood.
      rewrite (instantiate_unbuffered _ _ _ _ _ _ _ _ Hok Hd
                 (memory_available_hd _ Hmem) Hfn Hsize Hcall).
      simpl in Hgood. apply Z.ltb_ge in Hgood. rewrite Hgood. eauto.
  - (* a callback and instance data *)
    assert (0 < Proc.inst_size d)%N as Hpos by lia.
    destruct (call_instantiate E (Proc.instantiate d) (N.succ (brk s))
                               (Proc.mod_inst d) src maps (world s))
      as [rc w'] eqn:Hcall.
    split.
    + intros inst s' Hrun Hinst.
      destruct (hd true (script s)) eqn:Hm1;
        [|by rewrite instantiate_no_instance in Hrun
            by (done || by apply (null_unmapped _ Hok))].
      destruct (hd true (tl (script s))) eqn:Hm2;
        [|rewrite (instantiate_no_buffer _ _ _ _ _ _ Hok Hd Hm1 Hfn Hpos Hm2) in Hrun;
          by injection Hrun as <- _].
      rewrite (instantiate_buffered _ _ _ _ _ _ _ _ Hok Hd Hm1 Hfn Hpos Hm2 Hcall)
        in Hrun.
      destruct (rc <? 0).
      { destruct (talloc_free_returns (brk s)
                    (called (EvInstantiate (Proc.instantiate d) (N.succ (brk s))
                               (Proc.mod_inst d) src maps) w'
                            (buffered_instance ctx proc src maps
                               (Proc.inst_size d) s))) as [s'' Hfree].
        rewrite Hfree in Hrun. by injection Hrun as <- _. }
      injection Hrun as <- <-. exists (N.succ (brk s)). simpl.
      split.
      { unfold inst_at. rewrite lookup_insert_ne by done.
        by rewrite lookup_insert_eq. }
      split; [|intros [?|?]; done].
      intros _ _. split; [done|]. apply lookup_insert_eq.
    + intros Hmem Hgood. specialize (Hgood (N.succ (brk s))). rewrite Hcall in Hgood.
      rewrite (instantiate_buffered _ _ _ _ _ _ _ _ Hok Hd
                 (memory_available_hd _ Hmem) Hfn Hpos
                 (memory_available_tl _ Hmem) Hcall).
      simpl in Hgood. apply Z.ltb_ge in Hgood. rewrite Hgood. eauto.
Qed.

End Instances.

(** ** Evaluation *)

Section Evaluation.
Context {W : Type} (E : env W).
Implicit Types (s : state W) (h : gmap ptr chunk).

Lemma evaluate_calls_app l1 l2 :
  evaluate_calls (l1 ++ l2) = (evaluate_calls l1 + evaluate_calls l2)%nat.
Proof. unfold evaluate_calls. by rewrite filter_app, length_app. Qed.

(** What [tmpl_aexpand] leaves behind: no call through a descriptor, and on
    success the expansion of the template in a chunk of its own. *)
Lemma tmpl_aexpand_spec ctx request vpt escape escape_ctx s slen value s1 :
  tmpl_aexpand E ctx request vpt escape escape_ctx s = Done (slen, value) s1 ->
  log s1 = log s /\
  world s1 = (xlat_expand E request vpt escape escape_ctx (world s)).2 /\
  (0 <= slen ->
   exists v,
     (xlat_expand E request vpt escape escape_ctx (world s)).1 = Some v /\
     value <> NULL /\
     heap s1 !! value = Some (Chunk ctx false (PString v))).
Proof.
  unfold tmpl_aexpand. unfold bind at 1.
  destruct (xlat_expand E request vpt escape escape_ctx (world s)) as [[v|] w].
  - unfold bind. rewrite talloc_spec. simpl.
    destruct (hd true (script s)); simpl.
    + destruct (N.eqb_spec (brk s) NULL) as [Hz|Hnz]; unfold ret.
      * intros [= <- <- <-]. split; [done|]. split; [done|]. lia.
      * intros [= <- <- <-]. split; [done|]. split; [done|].
        intros _. exists v. split; [done|]. split; [done|].
        simpl. apply lookup_insert_eq.
    + unfold ret. intros [= <- <- <-]. split; [done|]. split; [done|]. lia.
  - unfold ret. intros [= <- <- <-]. split; [done|]. split; [done|]. lia.
Qed.

(** C3: when the expansion of the source template of the instance fails,
    [map_proc] returns [RLM_MODULE_FAIL] and makes no call through the
    evaluate callback of the descriptor: the record of calls is as it was
    before. *)
Theorem map_proc_expansion_failure request inst s i d slen value s1 :
  inst_at (heap s) inst = Some i ->
  proc_at (heap s) (Inst.proc i) = Some d ->
  tmpl_aexpand E request request (Inst.src i) (Proc.escape d) (Proc.mod_inst d) s =
    Done (slen, value) s1 ->
  slen < 0 ->
  map_proc E request inst s = Done RLM_MODULE_FAIL s1 /\
  log s1 = log s /\
  evaluate_calls (log s1) = evaluate_calls (log s).
Proof.
  intros Hi Hd Hexp Hneg.
  destruct (tmpl_aexpand_spec _ _ _ _ _ _ _ _ _ Hexp) as (Hlog & _).
  split; [|by rewrite Hlog].
  unfold map_proc.
  rewrite (bind_done _ _ _ _ _ (load_inst_at _ _ _ Hi)).
  rewrite (bind_done _ _ _ _ _ (load_proc_at _ _ _ Hd)).
  rewrite (bind_done _ _ _ _ _ Hexp). cbn [fst snd].
  apply Z.ltb_lt in Hneg. by rewrite Hneg.
Qed.

(** C4: when the expansion succeeds, [map_proc] calls the evaluate callback
    of the descriptor once, with the owner, the instance data, the request,
    the expanded string and the maps of the instance, and returns the result
    code of that call as it is; the expanded string is released. *)
Theorem map_proc_passes_result request inst s i d slen value s1 :
  inst_at (heap s) inst = Some i ->
  proc_at (heap s) (Inst.proc i) = Some d ->
  tmpl_aexpand E request request (Inst.src i) (Proc.escape d) (Proc.mod_inst d) s =
    Done (slen, value) s1 ->
  0 <= slen ->
  Proc.evaluate d <> NULL ->
  exists v rcode w' s',
    (xlat_expand E request (Inst.src i) (Proc.escape d) (Proc.mod_inst d) (world s)).1 =
      Some v /\
    call_evaluate E (Proc.evaluate d) (Proc.mod_inst d) (Inst.data i) request v
                  (Inst.maps i) (world s1) = (rcode, w') /\
    map_proc E request inst s = Done rcode s' /\
    log s' = log s ++ [EvEvaluate (Proc.evaluate d) (Proc.mod_inst d) (Inst.data i)
                                  request v (Inst.maps i)] /\
    evaluate_calls (log s') = S (evaluate_calls (log s)) /\
    world s' = w' /\
    heap s' !! value = None.
Proof.
  intros Hi Hd Hexp Hpos Hfn.
  destruct (tmpl_aexpand_spec _ _ _ _ _ _ _ _ _ Hexp)
    as (Hlog & _ & (v & Hv & Hvalue & Hchunk)); [done|].
  destruct (call_evaluate E (Proc.evaluate d) (Proc.mod_inst d) (Inst.data i) request v
                          (Inst.maps i) (world s1)) as [rcode w'] eqn:Hcall.
  exists v, rcode, w'.
  unfold map_proc.
  rewrite (bind_done _ _ _ _ _ (load_inst_at _ _ _ Hi)).
  rewrite (bind_done _ _ _ _ _ (load_proc_at _ _ _ Hd)).
  rewrite (bind_done _ _ _ _ _ Hexp). cbn [fst snd].
  apply Z.ltb_ge in Hpos. rewrite Hpos.
  assert (load_string value s1 = Done v s1) as Hload.
  { unfold load_string, load, bind. by rewrite Hchunk. }
  rewrite (bind_done _ _ _ _ _ Hload).
  unfold invoke_evaluate. apply N.eqb_neq in Hfn. rewrite Hfn.
  unfold bind at 1. rewrite Hcall.
  unfold bind, talloc_free, ret. apply N.eqb_neq in Hvalue. rewrite Hvalue.
  eexists. split; [done|]. split; [done|]. split; [done|]. simpl.
  split; [by rewrite Hlog|]. split.
  { rewrite Hlog, evaluate_calls_app. simpl. unfold evaluate_calls at 2. simpl. lia. }
  split; [done|].
  apply map_lookup_filter_None_2. right. intros c _. cbn [fst].
  by rewrite Hvalue, N.eqb_refl.
Qed.

End Evaluation.

(** ** Allocation failures *)

Section AllocationFailures.
Context {W : Type} (E : env W).
Implicit Types (s : state W).
Hypothesis name_fits_int : Z.of_nat (FR_MAX_STRING_LEN E) <= 2 ^ 31.

(** The allocation failures that are answered with a failure result: the
    tree and the tree node in [map_proc_register], the instance-data buffer
    in [map_proc_instantiate]. *)
Lemma allocation_failures_reported :
  (forall mod_inst name evaluate escape instantiate inst_size s,
     assert_passes E name -> map_proc_root s = None ->
     hd true (script s) = false ->
     map_proc_register E mod_inst name evaluate escape instantiate inst_size s =
       Done (-1) (pop_script s)) /\
  (forall mod_inst name evaluate escape instantiate inst_size s t,
     registry_ok s -> assert_passes E name -> map_proc_root s = Some t ->
     registered_at E s name = NULL ->
     hd true (script s) = true -> hd true (tl (script s)) = false ->
     exists s',
       map_proc_register E mod_inst name evaluate escape instantiate inst_size s =
         Done (-1) s') /\
  (forall ctx proc src maps s d,
     registry_ok s -> proc_at (heap s) proc = Some d ->
     Proc.instantiate d <> NULL -> (0 < Proc.inst_size d)%N ->
     hd true (script s) = true -> hd true (tl (script s)) = false ->
     exists s', map_proc_instantiate E ctx proc src maps s = Done NULL s').
Proof.
  split; [|split].
  - intros * Hassert Hroot Hmem. by rewrite register_first, Hmem.
  - intros * Hok Hassert Ht Hp Hm1 Hm2.
    destruct (register_new E name_fits_int mod_inst name evaluate escape instantiate
                inst_size s t Hok Hassert Ht Hp Hm1) as (pre & post & _ & ->).
    rewrite Hm2. unfold bind, talloc_free, ret.
    destruct (brk s =? NULL)%N; eauto.
  - intros * Hok Hd Hfn Hsize Hm1 Hm2.
    rewrite (instantiate_no_buffer E _ _ _ _ _ _ Hok Hd Hm1 Hfn Hsize Hm2). eauto.
Qed.

(** C8, on the code: two allocations are not checked.  When the descriptor
    cannot be allocated [map_proc_register] writes the name through the NULL
    pointer, and when the instance cannot be allocated
    [map_proc_instantiate] writes the processor through it: the process
    ends on a bad memory access, no failure result is returned. *)
Theorem allocation_failures_unchecked :
  (forall mod_inst name evaluate escape instantiate inst_size s t,
     registry_ok s -> assert_passes E name -> map_proc_root s = Some t ->
     registered_at E s name = NULL -> hd true (script s) = false ->
     map_proc_register E mod_inst name evaluate escape instantiate inst_size s =
       Fault SIGSEGV) /\
  (forall ctx proc src maps s,
     registry_ok s -> hd true (script s) = false ->
     map_proc_instantiate E ctx proc src maps s = Fault SIGSEGV).
Proof.
  split.
  - intros * Hok Hassert Ht Hp Hmem. by eapply register_new_no_proc.
  - intros * Hok Hmem. apply instantiate_no_instance; [|done].
    by apply null_unmapped.
Qed.

End AllocationFailures.

(** ** The concrete build *)

Lemma demo_name_fits ndebug : Z.of_nat (FR_MAX_STRING_LEN (Demo.build ndebug)) <= 2 ^ 31.
Proof. vm_compute. discriminate. Qed.

Lemma boot_ok sc : registry_ok (Demo.boot sc).
Proof.
  split; simpl; [done| |done].
  intros p c. by rewrite lookup_empty.
Qed.

Lemma register_keeps_ok {W} (E : env W) mod_inst name evaluate escape instantiate
    inst_size (s s' : state W) :
  Z.of_nat (FR_MAX_STRING_LEN E) <= 2 ^ 31 -> registry_ok s ->
  map_proc_register E mod_inst name evaluate escape instantiate inst_size s =
    Done 0 s' ->
  registry_ok s'.
Proof.
  intros Hfits Hok Hrun.
  by destruct (map_proc_register_success E Hfits _ _ _ _ _ _ _ _ Hok Hrun).
Qed.

Lemma s_sql_ok : registry_ok Demo.s_sql.
Proof.
  apply (register_keeps_ok Demo.E 10%N Demo.sql 20%N 21%N NULL 16%N (Demo.boot []));
    [apply demo_name_fits|apply boot_ok|by vm_compute].
Qed.

Lemma both_ok sc s1 s2 :
  Demo.after_sql sc = Done 0 s1 ->
  map_proc_register Demo.E 11%N Demo.sqlite 30%N 31%N 32%N 8%N s1 = Done 0 s2 ->
  registry_ok s2.
Proof.
  intros H1 H2.
  eapply register_keeps_ok; [apply demo_name_fits| |exact H2].
  eapply register_keeps_ok; [apply demo_name_fits|apply (boot_ok sc)|exact H1].
Qed.

Lemma s_both_ok : registry_ok Demo.s_both.
Proof. apply (both_ok [] Demo.s_sql); by vm_compute. Qed.

Lemma s_low_ok : registry_ok Demo.s_low.
Proof.
  apply (both_ok [true; true; true; true; true; true; false]
           (Demo.state_of
              (Demo.after_sql [true; true; true; true; true; true; false])
              (Demo.boot []))); by vm_compute.
Qed.

Lemma s_out_ok : registry_ok Demo.s_out.
Proof.
  apply (both_ok [true; true; true; true; true; false]
           (Demo.state_of
              (Demo.after_sql [true; true; true; true; true; false])
              (Demo.boot []))); by vm_compute.
Qed.

(** ** The main properties on the concrete build *)

Lemma map_proc_instantiate_buffer_witness :
  exists inst s' data,
    map_proc_instantiate Demo.E 500%N 1001%N 7%N 8%N Demo.s_both = Done inst s' /\
    inst <> NULL /\
    inst_at (heap s') inst = Some (Inst.Build 1001%N 7%N 8%N data) /\
    data <> NULL /\
    heap s' !! data = Some (Chunk inst false (PBytes (replicate 8 x00))).
Proof.
  destruct (map_proc_instantiate_buffer Demo.E 500%N 1001%N 7%N 8%N Demo.s_both
              (Proc.Build 11%N Demo.sqlite 6 30%N 32%N 31%N 8%N) s_both_ok)
    as [Hret Hrun]; [by vm_compute|].
  destruct Hrun as (inst & s' & Hrun & Hinst).
  { unfold memory_available. vm_compute. constructor. }
  { intros data. vm_compute. discriminate. }
  destruct (Hret inst s' Hrun Hinst) as (data & Hi & Hbuf & _).
  destruct Hbuf as [Hdata Hchunk]; [vm_compute; discriminate|vm_compute; reflexivity|].
  exists inst, s', data.
  exact (conj Hrun (conj Hinst (conj Hi (conj Hdata Hchunk)))).
Defined.

Lemma map_proc_instantiate_leaks_instance_witness :
  exists s',
    map_proc_instantiate Demo.E 500%N 1001%N 7%N 8%N Demo.s_low = Done NULL s' /\
    heap Demo.s_low !! brk Demo.s_low = None /\
    heap s' !! brk Demo.s_low =
      Some (Chunk 500%N false (PInst (Inst.Build 1001%N 7%N 8%N NULL))).
Proof.
  apply (map_proc_instantiate_leaks_instance Demo.E 500%N 1001%N 7%N 8%N Demo.s_low
           (Proc.Build 11%N Demo.sqlite 6 30%N 32%N 31%N 8%N) s_low_ok);
    by vm_compute.
Defined.

Lemma map_proc_expansion_failure_witness :
  map_proc Demo.E 1%N 1002%N (Demo.s_inst 99%N) =
    Done RLM_MODULE_FAIL (Demo.s_inst 99%N) /\
  log (Demo.s_inst 99%N) = log (Demo.s_inst 99%N) /\
  evaluate_calls (log (Demo.s_inst 99%N)) = evaluate_calls (log (Demo.s_inst 99%N)).
Proof.
  apply (map_proc_expansion_failure Demo.E 1%N 1002%N (Demo.s_inst 99%N)
           (Inst.Build 1001%N 99%N 8%N 1003%N)
           (Proc.Build 11%N Demo.sqlite 6 30%N 32%N 31%N 8%N)
           (-1) NULL (Demo.s_inst 99%N));
    by vm_compute.
Defined.

Lemma map_proc_passes_result_witness :
  exists s',
    map_proc Demo.E 1%N 1002%N (Demo.s_inst 7%N) = Done RLM_MODULE_OK s' /\
    log s' = log (Demo.s_inst 7%N) ++
             [EvEvaluate 30%N 11%N 1003%N 1%N Demo.select_1 8%N] /\
    evaluate_calls (log s') = S (evaluate_calls (log (Demo.s_inst 7%N))).
Proof.
  destruct (map_proc_passes_result Demo.E 1%N 1002%N (Demo.s_inst 7%N)
              (Inst.Build 1001%N 7%N 8%N 1003%N)
              (Proc.Build 11%N Demo.sqlite 6 30%N 32%N 31%N 8%N)
              8 1004%N
              (Demo.state_of
                 (tmpl_aexpand Demo.E 1%N 1%N 7%N 31%N 11%N (Demo.s_inst 7%N))
                 (Demo.s_inst 7%N)))
    as (v & rcode & w' & s' & Hv & Hcall & Hrun & Hlog & Hcalls & _);
    [by vm_compute..|].
  vm_compute in Hv. injection Hv as <-.
  vm_compute in Hcall. injection Hcall as <- _.
  exists s'. exact (conj Hrun (conj Hlog Hcalls)).
Defined.

Lemma map_proc_cmp_length_first_witness :
  map_proc_cmp (find_key Demo.E Demo.sql) (find_key Demo.E Demo.sqlite) < 0 /\
  map_proc_cmp (find_key Demo.E Demo.sql) (find_key Demo.E Demo.sqlite) <> 0 /\
  exists p1 p2,
    p1 <> p2 /\ p1 <> NULL /\ p2 <> NULL /\
    map_proc_find Demo.E Demo.sql Demo.s_both = Done p1 Demo.s_both /\
    map_proc_find Demo.E Demo.sqlite Demo.s_both = Done p2 Demo.s_both /\
    proc_at (heap Demo.s_both) p1 =
      Some (Proc.Build 10%N Demo.sql 3 20%N NULL 21%N 16%N) /\
    proc_at (heap Demo.s_both) p2 =
      Some (Proc.Build 11%N Demo.sqlite 6 30%N 32%N 31%N 8%N).
Proof.
  destruct (map_proc_cmp_length_first Demo.E (demo_name_fits false))
    as (_ & _ & Hsign & Hprefix & Htwo).
  split; [|split].
  - apply Hsign.
    + split; [vm_compute; reflexivity|vm_compute; reflexivity].
    + split; [vm_compute; reflexivity|vm_compute; reflexivity].
    + vm_compute. reflexivity.
  - apply Hprefix.
    + split; [vm_compute; reflexivity|vm_compute; reflexivity].
    + split; [vm_compute; reflexivity|vm_compute; reflexivity].
    + vm_compute. discriminate.
  - apply (Htwo (Demo.boot []) Demo.s_sql Demo.s_both).
    + vm_compute. lia.
    + apply boot_ok.
    + vm_compute. reflexivity.
    + vm_compute. reflexivity.
Defined.

Lemma map_proc_register_in_place_witness :
  exists d s',
    proc_at (heap Demo.s_sql) 1000%N = Some d /\
    map_proc_register Demo.E 12%N Demo.sql 40%N 41%N 42%N 4%N Demo.s_sql = Done 0 s' /\
    map_proc_find Demo.E Demo.sql s' = Done 1000%N s' /\
    proc_at (heap s') 1000%N =
      Some (Proc.Build 12%N (Proc.name d) (Proc.length d) 40%N 42%N 41%N 4%N) /\
    map_proc_root s' = map_proc_root Demo.s_sql /\ brk s' = brk Demo.s_sql /\
    (forall q, q <> 1000%N -> heap s' !! q = heap Demo.s_sql !! q).
Proof.
  apply (map_proc_register_in_place Demo.E (demo_name_fits false)
           12%N Demo.sql 40%N 41%N 42%N 4%N Demo.s_sql 1000%N).
  - apply s_sql_ok.
  - right. vm_compute. discriminate.
  - vm_compute. reflexivity.
  - vm_compute. discriminate.
Defined.

Lemma map_proc_register_empty_name_witness :
  map_proc_register Demo.E 10%N [] 20%N 21%N NULL 0%N Demo.s_both = Fault SIGABRT /\
  exists s' p,
    map_proc_register (Demo.build true) 10%N [] 20%N 21%N NULL 0%N (Demo.boot []) =
      Done 0 s' /\
    map_proc_find (Demo.build true) [] s' = Done p s' /\ p <> NULL /\
    proc_at (heap s') p = Some (Proc.Build 10%N [] 0 20%N NULL 21%N 0%N).
Proof.
  split.
  - apply (map_proc_register_empty_name Demo.E (demo_name_fits false)
             10%N [] 20%N 21%N NULL 0%N eq_refl).
    reflexivity.
  - apply (map_proc_register_empty_name (Demo.build true) (demo_name_fits true)
             10%N [] 20%N 21%N NULL 0%N eq_refl).
    + reflexivity.
    + apply boot_ok.
    + unfold memory_available. vm_compute. constructor.
Defined.

Lemma allocation_failures_unchecked_witness :
  map_proc_register Demo.E 12%N [x61] 40%N 41%N 42%N 4%N Demo.s_out = Fault SIGSEGV /\
  map_proc_instantiate Demo.E 500%N 1001%N 7%N 8%N Demo.s_out = Fault SIGSEGV.
Proof.
  destruct (allocation_failures_unchecked Demo.E (demo_name_fits false))
    as [Hproc Hinst].
  split.
  - apply (Hproc 12%N [x61] 40%N 41%N 42%N 4%N Demo.s_out (Tree true [1000; 1001]%N)).
    + apply s_out_ok.
    + right. vm_compute. discriminate.
    + vm_compute. reflexivity.
    + vm_compute. reflexivity.
    + vm_compute. reflexivity.
  - apply Hinst.
    + apply s_out_ok.
    + vm_compute. reflexivity.
Defined.

Lemma map_proc_unregister_idempotent_witness :
  exists s' t',
    _map_proc_unregister Demo.E 1000%N Demo.s_both = Done 0 s' /\
    registry_ok s' /\ heap s' = heap Demo.s_both /\ map_proc_root s' = Some t' /\
    (forall d, d ∈ rb_nodes t' <->
               d ∈ [1000; 1001]%N /\ d <> registered_at Demo.E Demo.s_both Demo.sql) /\
    registered_at Demo.E s' Demo.sql = NULL /\
    (forall name',
       strlcpy name' 254 <> strlcpy Demo.sql 254 ->
       registered_at Demo.E s' name' = registered_at Demo.E Demo.s_both name') /\
    (registered_at Demo.E Demo.s_both Demo.sql = NULL -> s' = Demo.s_both) /\
    _map_proc_unregister Demo.E 1000%N s' = Done 0 s'.
Proof.
  apply (map_proc_unregister_idempotent Demo.E (demo_name_fits false) 1000%N
           (Proc.Build 10%N Demo.sql 3 20%N NULL 21%N 16%N) Demo.s_both
           (Tree true [1000; 1001]%N)).
  - apply s_both_ok.
  - vm_compute. reflexivity.
  - vm_compute. reflexivity.
Defined.


Lemma map_proc_name_truncation_witness :
  exists p d,
    p <> NULL /\
    map_proc_find Demo.E Demo.long_x
      (Demo.state_of (map_proc_register Demo.E 10%N Demo.long_x 20%N 21%N NULL 0%N
                        (Demo.boot [])) (Demo.boot [])) =
      Done p (Demo.state_of (map_proc_register Demo.E 10%N Demo.long_x 20%N 21%N NULL 0%N
                               (Demo.boot [])) (Demo.boot [])) /\
    map_proc_find Demo.E Demo.long_y
      (Demo.state_of (map_proc_register Demo.E 10%N Demo.long_x 20%N 21%N NULL 0%N
                        (Demo.boot [])) (Demo.boot [])) =
      Done p (Demo.state_of (map_proc_register Demo.E 10%N Demo.long_x 20%N 21%N NULL 0%N
                               (Demo.boot [])) (Demo.boot [])) /\
    proc_at (heap (Demo.state_of
                     (map_proc_register Demo.E 10%N Demo.long_x 20%N 21%N NULL 0%N
                        (Demo.boot [])) (Demo.boot []))) p = Some d /\
    Proc.name d = take (254 - 1) (c_str Demo.long_x) /\
    Proc.length d = Z.of_nat (length (take (254 - 1) (c_str Demo.long_x))).
Proof.
  apply (map_proc_name_truncation Demo.E (demo_name_fits false)
           10%N Demo.long_x Demo.long_y 20%N 21%N NULL 0%N (Demo.boot [])).
  - apply boot_ok.
  - vm_compute. reflexivity.
  - vm_compute. reflexivity.
Defined.

(** C1, counterexample: "sql" is registered with 16 bytes of instance data
    and no instantiate callback; its instance is returned with a NULL data
    pointer, and the instance is the only chunk the call has added. *)
Lemma map_proc_instantiate_no_callback_no_buffer :
  exists d inst s',
    proc_at (heap Demo.s_both) 1000%N = Some d /\
    Proc.inst_size d = 16%N /\ Proc.instantiate d = NULL /\
    map_proc_instantiate Demo.E 500%N 1000%N 7%N 8%N Demo.s_both = Done inst s' /\
    inst <> NULL /\
    inst_at (heap s') inst = Some (Inst.Build 1000%N 7%N 8%N NULL) /\
    size (heap s') = S (size (heap Demo.s_both)).
Proof.
  exists (Proc.Build 10%N Demo.sql 3 20%N NULL 21%N 16%N), 1002%N,
         (Demo.state_of (map_proc_instantiate Demo.E 500%N 1000%N 7%N 8%N Demo.s_both)
                        Demo.s_both).
  split; [vm_compute; reflexivity|].
  split; [reflexivity|]. split; [reflexivity|].
  split; [vm_compute; reflexivity|].
  split; [vm_compute; discriminate|].
  split; vm_compute; reflexivity.
Qed.

(** C7, counterexample: a registration with the empty name is not answered
    with -1.  With assertions the process ends in [rad_assert_fail]; with
    NDEBUG the call returns 0 and the empty name is registered. *)
Lemma map_proc_register_empty_name_not_reported :
  map_proc_register Demo.E 10%N [] 20%N 21%N NULL 0%N (Demo.boot []) = Fault SIGABRT /\
  exists s',
    map_proc_register (Demo.build true) 10%N [] 20%N 21%N NULL 0%N (Demo.boot []) =
      Done 0 s' /\
    registered_at (Demo.build true) s' [] = 1000%N.
Proof.
  split; [vm_compute; reflexivity|].
  exists (Demo.state_of
            (map_proc_register (Demo.build true) 10%N [] 20%N 21%N NULL 0%N
               (Demo.boot [])) (Demo.boot [])).
  split; vm_compute; reflexivity.
Qed.

(** * Further properties *)

(** ** The comparison function as an order *)

Lemma memcmp_antisym a b n : memcmp b a n = - memcmp a b n.
Proof.
  revert a b. induction n as [|n IH]; intros a b; simpl; [done|].
  rewrite (Z.eqb_sym (byte_val (hd x00 b))).
  destruct (byte_val (hd x00 a) =? byte_val (hd x00 b)); [apply IH|lia].
Qed.

Lemma memcmp_trans a b c n :
  memcmp a b n <= 0 -> memcmp b c n <= 0 -> memcmp a c n <= 0.
Proof.
  revert a b c. induction n as [|n IH]; intros a b c; simpl; [done|].
  destruct (Z.eqb_spec (byte_val (hd x00 a)) (byte_val (hd x00 b))) as [Hab|Hab];
    destruct (Z.eqb_spec (byte_val (hd x00 b)) (byte_val (hd x00 c))) as [Hbc|Hbc];
    destruct (Z.eqb_spec (byte_val (hd x00 a)) (byte_val (hd x00 c))) as [Hac|Hac];
    try lia.
  apply IH.
Qed.

Lemma wf_name_range d : wf_name d -> 0 <= Proc.length d < 2 ^ 31.
Proof. intros [-> ?]. lia. Qed.

(** X7: on descriptors whose cached length is the length of their name,
    [map_proc_cmp] is a total order: comparing a descriptor with itself
    gives 0, swapping the arguments negates the result, and "not greater" is
    transitive.  (The length subtraction never leaves the range of [int].) *)
Theorem map_proc_cmp_total_order a b c :
  wf_name a -> wf_name b -> wf_name c ->
  map_proc_cmp a a = 0 /\
  map_proc_cmp b a = - map_proc_cmp a b /\
  (map_proc_cmp a b <= 0 -> map_proc_cmp b c <= 0 -> map_proc_cmp a c <= 0).
Proof.
  intros Ha Hb Hc.
  pose proof (wf_name_range _ Ha) as Ra.
  pose proof (wf_name_range _ Hb) as Rb.
  pose proof (wf_name_range _ Hc) as Rc.
  split; [by apply map_proc_cmp_zero|]. split.
  - destruct (Z.eq_dec (Proc.length a) (Proc.length b)) as [Hl|Hl].
    + rewrite !map_proc_cmp_lengths_equal by done. rewrite Hl.
      apply memcmp_antisym.
    + rewrite !map_proc_cmp_lengths_differ by done.
      rewrite !to_int_small by lia. lia.
  - destruct (Z.eq_dec (Proc.length a) (Proc.length b)) as [Hab|Hab];
      destruct (Z.eq_dec (Proc.length b) (Proc.length c)) as [Hbc|Hbc].
    + rewrite (map_proc_cmp_lengths_equal a b), (map_proc_cmp_lengths_equal b c),
        (map_proc_cmp_lengths_equal a c) by congruence.
      rewrite <- Hab. apply memcmp_trans.
    + rewrite (map_proc_cmp_lengths_differ b c), (map_proc_cmp_lengths_differ a c)
        by congruence.
      rewrite !to_int_small by lia. lia.
    + rewrite (map_proc_cmp_lengths_differ a b), (map_proc_cmp_lengths_differ a c)
        by congruence.
      rewrite !to_int_small by lia. lia.
    + rewrite (map_proc_cmp_lengths_differ a b), (map_proc_cmp_lengths_differ b c)
        by congruence.
      rewrite !to_int_small by lia. intros H1 H2.
      rewrite (map_proc_cmp_lengths_differ a c) by lia.
      rewrite to_int_small by lia. lia.
Qed.

(** ** More on the registry *)

Section RegistryMore.
Context {W : Type} (E : env W).
Implicit Types (s : state W) (h : gmap ptr chunk) (nodes pre post : list ptr).
Implicit Types (name nm : list byte).
Hypothesis name_fits_int : Z.of_nat (FR_MAX_STRING_LEN E) <= 2 ^ 31.

Lemma memory_available_pop s : memory_available s -> memory_available (pop_script s).
Proof. unfold memory_available. simpl. destruct 1; simpl; [constructor|done]. Qed.

Lemma registered_at_truncated s name :
  registered_at E s (strlcpy name (FR_MAX_STRING_LEN E)) = registered_at E s name.
Proof. unfold registered_at. by rewrite strlcpy_idemp. Qed.

Lemma remove_name_insert h nm data pre post :
  node_name h data = nm -> nm ∉ node_name h <$> (pre ++ post) ->
  remove_name h nm (pre ++ data :: post) = pre ++ post.
Proof.
  intros Hdata. induction pre as [|x pre IH]; simpl; intros Hnew.
  - by rewrite decide_True.
  - rewrite not_elem_of_cons in Hnew. destruct Hnew as [Hx Hnew].
    rewrite decide_False by congruence. by rewrite IH.
Qed.

(** The registration of a new name on a created tree, step by step: what
    [register_new] gives, with the release of the descriptor worked out. *)
Lemma register_new_outcome mod_inst name evaluate escape instantiate inst_size s t :
  registry_ok s -> parents_ok s -> assert_passes E name ->
  map_proc_root s = Some t -> registered_at E s name = NULL ->
  hd true (script s) = true ->
  exists pre post, rb_nodes t = pre ++ post /\
    map_proc_register E mod_inst name evaluate escape instantiate inst_size s =
      if hd true (tl (script s))
      then Done 0 (State (<[brk s := Chunk mod_inst true
                                 (PProc (registered (FR_MAX_STRING_LEN E) mod_inst name
                                           evaluate escape instantiate inst_size))]> (heap s))
                         (N.succ (brk s)) (tl (tl (script s)))
                         (Some (Tree (rb_replace t) (pre ++ brk s :: post)))
                         (log s) (world s))
      else Done (-1) (State (heap s) (N.succ (brk s)) (tl (tl (script s))) (Some t)
                            (log s) (world s)).
Proof.
  intros Hok Hpar Hassert Ht Hp Hmem.
  destruct (register_new E name_fits_int mod_inst name evaluate escape instantiate
              inst_size s t Hok Hassert Ht Hp Hmem) as (pre & post & Hsplit & Hrun).
  exists pre, post. split; [done|]. rewrite Hrun.
  destruct (hd true (tl (script s))); [done|].
  pose proof (ok_brk _ Hok) as Hbrk.
  unfold bind, talloc_free, ret.
  destruct (N.eqb_spec (brk s) NULL) as [Hz|_]; [unfold NULL in Hz; lia|].
  simpl. f_equal. f_equal.
  apply talloc_free_unwinds; [done| | |].
  - intros q c Hq. split; [apply (ok_fresh _ Hok) in Hq; lia|by eapply Hpar].
  - intros q Hq. apply lookup_insert_ne. lia.
  - intros q c Hq Hle. rewrite lookup_insert in Hq.
    case_decide; [by left|]. apply (ok_fresh _ Hok) in Hq. lia.
Qed.

Lemma registry_ok_more_room s b (sc : list bool) t (l : list event) (w : W) :
  registry_ok s -> (brk s <= b)%N -> map_proc_root s = Some t ->
  registry_ok (State (heap s) b sc (Some t) l w).
Proof.
  intros [H1 H2 H3] Hb Ht. split; simpl.
  - lia.
  - intros p c Hp. apply H2 in Hp. lia.
  - intros ? [= <-]. by apply H3.
Qed.

(** What a registration that returns anything but 0 leaves behind. *)
Lemma register_failure mod_inst name evaluate escape instantiate inst_size s s' r :
  registry_ok s -> parents_ok s ->
  map_proc_register E mod_inst name evaluate escape instantiate inst_size s =
    Done r s' ->
  r <> 0 ->
  r = -1 /\ registry_ok s' /\ heap s' = heap s /\
  (forall name', registered_at E s' name' = registered_at E s name') /\
  log s' = log s /\ world s' = world s /\
  map_proc_root s' =
    match map_proc_root s with
    | Some t => Some t
    | None => if hd true (script s) then Some (Tree true []) else None
    end.
Proof.
  assert (forall s t, registry_ok s -> parents_ok s -> assert_passes E name ->
            map_proc_root s = Some t ->
            map_proc_register E mod_inst name evaluate escape instantiate inst_size s =
              Done r s' ->
            r <> 0 ->
            r = -1 /\ registry_ok s' /\ heap s' = heap s /\
            (forall name', registered_at E s' name' = registered_at E s name') /\
            log s' = log s /\ world s' = world s /\
            map_proc_root s' = Some t) as Hrooted.
  { clear s. intros s t Hok Hpar Hassert Ht Hrun Hr.
    destruct (decide (registered_at E s name = NULL)) as [Hp|Hp].
    - destruct (hd true (script s)) eqn:Hmem;
        [|by rewrite (register_new_no_proc E name_fits_int _ _ _ _ _ _ _ _
                        Hok Hassert Ht Hp Hmem) in Hrun].
      destruct (register_new_outcome mod_inst name evaluate escape instantiate
                  inst_size s t Hok Hpar Hassert Ht Hp Hmem)
        as (pre & post & _ & Heq).
      rewrite Heq in Hrun. destruct (hd true (tl (script s))).
      { injection Hrun as <- _. done. }
      injection Hrun as <- <-. split; [done|].
      split; [apply registry_ok_more_room; [done|lia|done]|].
      split; [done|]. split; [|done].
      intros name'. unfold registered_at. simpl. by rewrite Ht.
    - destruct (found_is_descriptor E _ _ Hok Hp) as (c & d & Hc & Hd & _).
      rewrite (register_again E name_fits_int _ _ _ _ _ _ _ _ _ _
                 Hok Hassert eq_refl Hp Hc Hd) in Hrun.
      injection Hrun as <- _. done. }
  intros Hok Hpar Hrun Hr.
  destruct (assert_passes_dec E name) as [Hassert|[Hn Hname]];
    [|by rewrite register_assert_fails in Hrun].
  destruct (map_proc_root s) as [t|] eqn:Ht; [by eapply Hrooted|].
  rewrite register_first in Hrun by done.
  destruct (hd true (script s)).
  - destruct (Hrooted (put_root (Some (Tree true [])) (pop_script s)) (Tree true []))
      as (H1 & H2 & H3 & H4 & H5 & H6 & H7); [by apply registry_ok_created|done..|].
    split; [done|]. split; [done|]. split; [done|]. split; [|done].
    intros name'. rewrite H4. unfold registered_at. simpl. by rewrite Ht.
  - injection Hrun as <- <-. split; [done|]. split.
    { destruct Hok as [H1 H2 H3]. split; simpl; [done..|]. by rewrite Ht. }
    split; [done|]. split; [|done].
    intros name'. unfold registered_at. simpl. done.
Qed.

(** X1: after a registration that returned 0, [map_proc_find] of the name
    returns a descriptor that carries the owner, evaluate, escape,
    instantiate and instance size just passed, and [map_proc_find] of the
    name stored in that descriptor returns the same descriptor. *)
Theorem map_proc_register_then_find mod_inst name evaluate escape instantiate inst_size
    s s' :
  registry_ok s ->
  map_proc_register E mod_inst name evaluate escape instantiate inst_size s =
    Done 0 s' ->
  exists p d,
    map_proc_find E name s' = Done p s' /\ p <> NULL /\
    proc_at (heap s') p = Some d /\
    Proc.mod_inst d = mod_inst /\ Proc.evaluate d = evaluate /\
    Proc.escape d = escape /\ Proc.instantiate d = instantiate /\
    Proc.inst_size d = inst_size /\
    map_proc_find E (Proc.name d) s' = Done p s'.
Proof.
  intros Hok Hrun.
  destruct (map_proc_register_success E name_fits_int _ _ _ _ _ _ _ _ Hok Hrun)
    as (Hok' & Hp & Hd & _).
  eexists (registered_at E s' name), _.
  split; [by apply map_proc_find_spec|]. split; [done|]. split; [exact Hd|].
  simpl. do 5 (split; [done|]).
  rewrite map_proc_find_spec by done. by rewrite registered_at_truncated.
Qed.

(** X2: a registration that returned 0 concerns one name only: any name that
    is cut to a different string finds what it found before, in a chunk
    that was not written, and the registration calls no callback and leaves
    the modules' world alone. *)
Theorem map_proc_register_frame mod_inst name evaluate escape instantiate inst_size
    s s' name' :
  registry_ok s ->
  map_proc_register E mod_inst name evaluate escape instantiate inst_size s =
    Done 0 s' ->
  strlcpy name' (FR_MAX_STRING_LEN E) <> strlcpy name (FR_MAX_STRING_LEN E) ->
  exists q,
    map_proc_find E name' s = Done q s /\
    map_proc_find E name' s' = Done q s' /\
    heap s' !! q = heap s !! q /\
    log s' = log s /\ world s' = world s.
Proof.
  intros Hok Hrun Hother.
  destruct (map_proc_register_success E name_fits_int _ _ _ _ _ _ _ _ Hok Hrun)
    as (Hok' & Hp & Hd & _ & Hsame & Hheap & Hlog & Hworld).
  exists (registered_at E s name').
  split; [by apply map_proc_find_spec|].
  split; [rewrite map_proc_find_spec by done; by rewrite Hsame|].
  split; [|done].
  apply Hheap. intros Heq.
  rewrite <- (Hsame name' Hother) in Heq.
  assert (registered_at E s' name' <> NULL) as Hq by (by rewrite Heq).
  destruct (found_is_descriptor E _ _ Hok' Hq) as (c & d & Hc & Hpd & _ & Hname).
  rewrite Heq in Hc. unfold proc_at in Hd. rewrite Hc, Hpd in Hd.
  injection Hd as ->. done.
Qed.

(** X3: whenever [map_proc_register] returns, it returns 0 or -1 and the
    registry is well formed: every node of the tree leads to an allocated
    descriptor whose cached length is the length of its name, and no two
    nodes carry the same name. *)
Theorem map_proc_register_keeps_invariant mod_inst name evaluate escape instantiate
    inst_size s s' r :
  registry_ok s -> parents_ok s ->
  map_proc_register E mod_inst name evaluate escape instantiate inst_size s =
    Done r s' ->
  (r = 0 \/ r = -1) /\ registry_ok s'.
Proof.
  intros Hok Hpar Hrun. destruct (decide (r = 0)) as [->|Hr].
  - split; [by left|].
    by destruct (map_proc_register_success E name_fits_int _ _ _ _ _ _ _ _ Hok Hrun).
  - destruct (register_failure _ _ _ _ _ _ _ _ _ Hok Hpar Hrun Hr) as (-> & Hok' & _).
    split; [by right|done].
Qed.

(** X4: a registration that fails (the tree or the tree node cannot be
    allocated) returns -1 and undoes what it did to the chunks and the
    names: the chunks are those there were (the descriptor allocated for the
    node is released), every name finds what it found before, no callback
    is called.  The tree is the one there was; a first registration, though,
    that has created the tree and is refused the node leaves that new, empty
    tree in place ([map_proc_root] is no longer NULL), and leaves NULL only
    when the tree itself could not be created. *)
Theorem map_proc_register_failure_unwinds mod_inst name evaluate escape instantiate
    inst_size s s' r :
  registry_ok s -> parents_ok s ->
  map_proc_register E mod_inst name evaluate escape instantiate inst_size s =
    Done r s' ->
  r <> 0 ->
  r = -1 /\ heap s' = heap s /\
  (forall name', exists q,
     map_proc_find E name' s = Done q s /\ map_proc_find E name' s' = Done q s') /\
  log s' = log s /\ world s' = world s /\
  map_proc_root s' =
    match map_proc_root s with
    | Some t => Some t
    | None => if hd true (script s) then Some (Tree true []) else None
    end.
Proof.
  intros Hok Hpar Hrun Hr.
  destruct (register_failure _ _ _ _ _ _ _ _ _ Hok Hpar Hrun Hr)
    as (-> & Hok' & Hheap & Hsame & Hlog & Hworld & Hroot).
  split; [done|]. split; [done|]. split; [|done].
  intros name'. exists (registered_at E s name').
  split; [by apply map_proc_find_spec|].
  rewrite map_proc_find_spec by done. by rewrite Hsame.
Qed.

(** The first registration on a registry without a tree, with memory
    available: the tree is created and holds the one new descriptor. *)
Lemma register_creates_tree mod_inst name evaluate escape instantiate inst_size s :
  registry_ok s -> map_proc_root s = None ->
  assert_passes E name -> memory_available s ->
  map_proc_register E mod_inst name evaluate escape instantiate inst_size s =
    Done 0 (State (<[brk s := Chunk mod_inst true
                           (PProc (registered (FR_MAX_STRING_LEN E) mod_inst name
                                     evaluate escape instantiate inst_size))]> (heap s))
                  (N.succ (brk s)) (tl (tl (tl (script s))))
                  (Some (Tree true [brk s])) (log s) (world s)).
Proof.
  intros Hok Hroot Hassert Hmem.
  rewrite register_first, (memory_available_hd _ Hmem) by done.
  pose proof (memory_available_pop _ Hmem) as Hmem1.
  destruct (register_new E name_fits_int mod_inst name evaluate escape instantiate
              inst_size (put_root (Some (Tree true [])) (pop_script s)) (Tree true [])
              (registry_ok_created _ Hok Hroot) Hassert eq_refl eq_refl)
    as (pre & post & Hsplit & Hrun).
  { apply (memory_available_hd _ Hmem1). }
  simpl in Hsplit. symmetry in Hsplit. apply app_eq_nil in Hsplit as [-> ->].
  rewrite Hrun. simpl.
  pose proof (memory_available_tl _ Hmem1) as Hm3. simpl in Hm3.
  by rewrite Hm3.
Qed.

Lemma registry_ok_freed s : registry_ok s -> registry_ok (put_root None s).
Proof. intros [H1 H2 H3]. split; simpl; done. Qed.

(** X5: [map_proc_free] drops the tree but not the descriptors.  A
    registration after it (with memory available) returns 0, creates a new
    tree and a new descriptor at a fresh address; every chunk there was,
    the descriptors registered before among them, is still allocated and
    unchanged, and no name but the one just registered is found any more. *)
Theorem map_proc_free_then_register mod_inst name evaluate escape instantiate inst_size s :
  registry_ok s -> assert_passes E name -> memory_available s ->
  exists s',
    (map_proc_free ;;
     map_proc_register E mod_inst name evaluate escape instantiate inst_size)%C s =
      Done 0 s' /\
    map_proc_find E name s' = Done (brk s) s' /\
    (forall q c, heap s !! q = Some c -> q <> brk s /\ heap s' !! q = Some c) /\
    (forall name',
       strlcpy name' (FR_MAX_STRING_LEN E) <> strlcpy name (FR_MAX_STRING_LEN E) ->
       map_proc_find E name' s' = Done NULL s').
Proof.
  intros Hok Hassert Hmem.
  pose proof (register_creates_tree mod_inst name evaluate escape instantiate inst_size
                (put_root None s) (registry_ok_freed _ Hok) eq_refl Hassert Hmem)
    as Hrun.
  simpl in Hrun. eexists. split; [exact Hrun|].
  pose proof (map_proc_register_success E name_fits_int _ _ _ _ _ _ _ _
                (registry_ok_freed _ Hok) Hrun) as (Hok' & _).
  assert (forall name',
            registered_at E
              (State (<[brk s := Chunk mod_inst true
                                   (PProc (registered (FR_MAX_STRING_LEN E) mod_inst name
                                             evaluate escape instantiate inst_size))]>
                        (heap s))
                     (N.succ (brk s)) (tl (tl (tl (script s))))
                     (Some (Tree true [brk s])) (log s) (world s)) name' =
            if decide (strlcpy name (FR_MAX_STRING_LEN E) =
                       strlcpy name' (FR_MAX_STRING_LEN E))
            then brk s else NULL) as Hfound.
  { intros name'. unfold registered_at. simpl.
    unfold node_name. by rewrite proc_at_insert. }
  split; [|split].
  - rewrite map_proc_find_spec by done. by rewrite Hfound, decide_True.
  - intros q c Hq. pose proof (ok_fresh _ Hok _ _ Hq) as Hlt.
    split; [lia|]. simpl. rewrite lookup_insert_ne by lia. done.
  - intros name' Hother. rewrite map_proc_find_spec by done.
    by rewrite Hfound, decide_False.
Qed.

(** X13: [_map_proc_unregister] goes by the name, not by the descriptor.
    After [map_proc_free] and a new registration of the name of a descriptor
    that is still allocated, running [_map_proc_unregister] on that older
    descriptor (as its destructor does) returns 0 and removes the node of
    the new registration: the name is no longer found. *)
Theorem map_proc_unregister_by_name mod_inst evaluate escape instantiate inst_size
    s old p :
  registry_ok s -> proc_at (heap s) old = Some p ->
  assert_passes E (Proc.name p) -> memory_available s ->
  exists s1 s2,
    (map_proc_free ;;
     map_proc_register E mod_inst (Proc.name p) evaluate escape instantiate
                       inst_size)%C s = Done 0 s1 /\
    map_proc_find E (Proc.name p) s1 = Done (brk s) s1 /\ brk s <> old /\
    _map_proc_unregister E old s1 = Done 0 s2 /\
    map_proc_find E (Proc.name p) s2 = Done NULL s2.
Proof.
  intros Hok Hold Hassert Hmem.
  pose proof (register_creates_tree mod_inst (Proc.name p) evaluate escape instantiate
                inst_size (put_root None s) (registry_ok_freed _ Hok) eq_refl
                Hassert Hmem) as Hrun.
  simpl in Hrun.
  pose proof (map_proc_register_success E name_fits_int _ _ _ _ _ _ _ _
                (registry_ok_freed _ Hok) Hrun) as (Hok' & _).
  assert (brk s <> old) as Hne.
  { intros <-. apply proc_at_Some in Hold as (c & Hc & _).
    apply (ok_fresh _ Hok) in Hc. lia. }
  match type of Hrun with _ = Done 0 ?st => set (s1 := st) in * end.
  assert (proc_at (heap s1) old = Some p) as Hold1.
  { unfold s1. simpl. by rewrite proc_at_insert_ne. }
  assert (_map_proc_unregister E old s1 =
            Done 0 (put_root (Some (Tree true [])) s1)) as Hun.
  { rewrite (unregister_spec E name_fits_int old p s1 (Tree true [brk s]) Hok'
               eq_refl Hold1).
    simpl. unfold node_name. rewrite proc_at_insert. simpl.
    by rewrite decide_True. }
  exists s1, (put_root (Some (Tree true [])) s1). split; [exact Hrun|].
  split.
  { rewrite map_proc_find_spec by done. unfold registered_at, s1. simpl.
    unfold node_name. rewrite proc_at_insert. simpl. by rewrite decide_True. }
  split; [done|]. split; [exact Hun|]. done.
Qed.

(** X6: registering a name that was not registered and then running
    [_map_proc_unregister] on the new descriptor puts the tree back as it
    was: the tree is the one of before the registration, every name finds
    what it found then, and the descriptor itself is still allocated. *)
Theorem map_proc_register_then_unregister mod_inst name evaluate escape instantiate
    inst_size s s' t :
  registry_ok s -> map_proc_root s = Some t ->
  map_proc_find E name s = Done NULL s ->
  map_proc_register E mod_inst name evaluate escape instantiate inst_size s =
    Done 0 s' ->
  exists p s'',
    map_proc_find E name s' = Done p s' /\ p <> NULL /\
    _map_proc_unregister E p s' = Done 0 s'' /\
    map_proc_root s'' = Some t /\ heap s'' = heap s' /\
    is_Some (proc_at (heap s'') p) /\
    (forall name', exists q,
       map_proc_find E name' s = Done q s /\ map_proc_find E name' s'' = Done q s'').
Proof.
  intros Hok Ht Hfind Hrun.
  rewrite map_proc_find_spec in Hfind by done. injection Hfind as Hp.
  destruct (assert_passes_dec E name) as [Hassert|[Hn Hname]];
    [|by rewrite register_assert_fails in Hrun].
  destruct (hd true (script s)) eqn:Hmem;
    [|by rewrite (register_new_no_proc E name_fits_int _ _ _ _ _ _ _ _
                    Hok Hassert Ht Hp Hmem) in Hrun].
  destruct (register_new E name_fits_int mod_inst name evaluate escape instantiate
              inst_size s t Hok Hassert Ht Hp Hmem) as (pre & post & Hsplit & Heq).
  rewrite Heq in Hrun. destruct (hd true (tl (script s)));
    [|unfold bind, talloc_free, ret in Hrun;
      destruct (brk s =? NULL)%N; discriminate].
  injection Hrun as <-.
  pose proof (register_new_post E name_fits_int mod_inst name evaluate escape
                instantiate inst_size s t pre post (tl (tl (script s)))
                Hok Ht Hp Hsplit) as (Hok' & Hnn & Hd & _).
  destruct (ok_tree _ Hok _ Ht) as [Hrep [Hlive Hnd]].
  pose proof (fresh_brk _ Hok) as Hfresh.
  set (b := brk s) in *.
  set (nm := strlcpy name (FR_MAX_STRING_LEN E)) in *.
  set (h' := <[b := _]> (heap s)) in *.
  set (s' := State h' _ _ _ _ _) in *.
  assert (forall x, x ∈ rb_nodes t -> b <> x) as Hne.
  { intros x Hx ->. rewrite Forall_forall in Hlive.
    apply Hlive, live_mapped in Hx as [? Hx]. congruence. }
  assert (forall x, x ∈ rb_nodes t -> node_name h' x = node_name (heap s) x) as Hnames.
  { intros x Hx. apply node_name_insert_ne; auto. }
  assert (node_name h' b = nm) as Hb.
  { unfold node_name, h'. by rewrite proc_at_insert. }
  assert (nm ∉ node_name h' <$> (pre ++ post)) as Hnew.
  { rewrite <- Hsplit, (names_ext (heap s) h') by done.
    pose proof Hp as Hp'. unfold registered_at in Hp'. rewrite Ht in Hp'.
    apply lookup_name_NULL in Hp'; [done|].
    apply (nodes_not_NULL E s t); done. }
  assert (registered_at E s' name = b) as Hreg.
  { unfold registered_at, s'. simpl. fold nm.
    rewrite lookup_name_insert by (by rewrite Hb). by rewrite decide_True. }
  rewrite Hreg in Hd, Hnn.
  assert (_map_proc_unregister E b s' = Done 0 (put_root (Some t) s')) as Hun.
  { rewrite (unregister_spec E name_fits_int b _ s' _ Hok' eq_refl Hd).
    simpl. rewrite strlcpy_idemp. fold nm.
    rewrite remove_name_insert by done.
    rewrite <- Hsplit. destruct t as [rep nodes]. simpl in *. by subst rep. }
  exists b, (put_root (Some t) s').
  split; [rewrite map_proc_find_spec by done; by rewrite Hreg|].
  split; [done|]. split; [exact Hun|]. split; [done|]. split; [done|].
  split; [change (is_Some (proc_at (heap s') b)); by rewrite Hd|].
  intros name'. exists (registered_at E s name').
  split; [by apply map_proc_find_spec|].
  assert (registry_ok (put_root (Some t) s')) as Hok''.
  { destruct Hok' as [H1 H2 H3]. split; simpl; [done..|].
    intros ? [= <-]. split; [done|]. split.
    - rewrite Forall_forall in Hlive |- *. intros x Hx.
      apply live_insert_ne; auto.
    - by rewrite (names_ext (heap s) h'). }
  rewrite map_proc_find_spec by done. f_equal.
  unfold registered_at. simpl. rewrite Ht. by apply lookup_name_ext.
Qed.

(** X12: the last registration wins, also across names that are cut to the
    same string.  When two names agree on their first
    [FR_MAX_STRING_LEN - 1] bytes and both registrations return 0, the
    second allocates no descriptor: it assigns its owner and callbacks on
    the descriptor of the first, which is what both names find afterwards. *)
Theorem map_proc_register_last_wins m1 n1 e1 x1 i1 z1 m2 n2 e2 x2 i2 z2 s s1 s2 :
  registry_ok s ->
  take (FR_MAX_STRING_LEN E - 1) (c_str n1) = take (FR_MAX_STRING_LEN E - 1) (c_str n2) ->
  map_proc_register E m1 n1 e1 x1 i1 z1 s = Done 0 s1 ->
  map_proc_register E m2 n2 e2 x2 i2 z2 s1 = Done 0 s2 ->
  exists p d,
    map_proc_find E n1 s1 = Done p s1 /\ p <> NULL /\
    map_proc_find E n1 s2 = Done p s2 /\
    map_proc_find E n2 s2 = Done p s2 /\
    proc_at (heap s2) p = Some d /\
    Proc.mod_inst d = m2 /\ Proc.evaluate d = e2 /\ Proc.escape d = x2 /\
    Proc.instantiate d = i2 /\ Proc.inst_size d = z2 /\
    brk s2 = brk s1 /\ map_proc_root s2 = map_proc_root s1.
Proof.
  intros Hok Hcut Hr1 Hr2.
  destruct (map_proc_register_success E name_fits_int _ _ _ _ _ _ _ _ Hok Hr1)
    as (Hok1 & Hp1 & _).
  assert (forall st, registered_at E st n2 = registered_at E st n1) as Hsame.
  { intros st. unfold registered_at, strlcpy. by rewrite Hcut. }
  assert (registered_at E s1 n2 <> NULL) as Hp2 by (by rewrite Hsame).
  destruct (map_proc_register_success E name_fits_int _ _ _ _ _ _ _ _ Hok1 Hr2)
    as (Hok2 & _ & Hd2 & Hkeep & _).
  specialize (Hkeep Hp2).
  destruct (assert_passes_dec E n2) as [Hassert|[Hn Hname]];
    [|by rewrite register_assert_fails in Hr2].
  destruct (found_is_descriptor E _ _ Hok1 Hp2) as (c & d & Hc & Hd & _).
  rewrite (register_again E name_fits_int _ _ _ _ _ _ _ _ _ _
             Hok1 Hassert eq_refl Hp2 Hc Hd) in Hr2.
  eexists (registered_at E s1 n1), _.
  split; [by apply map_proc_find_spec|]. split; [done|].
  split; [rewrite map_proc_find_spec by done; by rewrite <- Hsame, Hkeep, Hsame|].
  split; [rewrite map_proc_find_spec by done; by rewrite Hkeep, Hsame|].
  split; [rewrite <- Hsame, <- Hkeep; exact Hd2|].
  simpl. do 5 (split; [done|]).
  injection Hr2 as <-. done.
Qed.

End RegistryMore.

(** ** More on instance construction *)

Section InstancesMore.
Context {W : Type} (E : env W).
Implicit Types (s : state W) (h : gmap ptr chunk).
Hypothesis name_fits_int : Z.of_nat (FR_MAX_STRING_LEN E) <= 2 ^ 31.

Lemma talloc_free_frame p s :
  exists h', (talloc_free p ;; ret NULL)%C s = Done NULL (put_heap h' s).
Proof.
  unfold bind, talloc_free, ret, put_heap. destruct (p =? NULL)%N.
  - exists (heap s). by destruct s.
  - eauto.
Qed.

(** The runs of [map_proc_instantiate] that return, path by path. *)
Lemma instantiate_cases ctx proc src maps s d inst s' :
  registry_ok s -> proc_at (heap s) proc = Some d ->
  map_proc_instantiate E ctx proc src maps s = Done inst s' ->
  hd true (script s) = true /\
  ((Proc.instantiate d = NULL /\ inst = brk s /\
    s' = fresh_instance ctx proc src maps s) \/
   (Proc.instantiate d <> NULL /\ (0 < Proc.inst_size d)%N /\
    hd true (tl (script s)) = false /\ inst = NULL /\
    s' = pop_script (fresh_instance ctx proc src maps s)) \/
   (Proc.instantiate d <> NULL /\
    exists data s2 rc w',
      (Proc.inst_size d = 0%N /\ data = NULL /\
       s2 = fresh_instance ctx proc src maps s \/
       (0 < Proc.inst_size d)%N /\ hd true (tl (script s)) = true /\
       data = N.succ (brk s) /\
       s2 = buffered_instance ctx proc src maps (Proc.inst_size d) s) /\
      call_instantiate E (Proc.instantiate d) data (Proc.mod_inst d) src maps
                       (world s) = (rc, w') /\
      if rc <? 0
      then inst = NULL /\
           (talloc_free (brk s) ;; ret NULL)%C
             (called (EvInstantiate (Proc.instantiate d) data (Proc.mod_inst d)
                        src maps) w' s2) = Done NULL s'
      else inst = brk s /\
           s' = called (EvInstantiate (Proc.instantiate d) data (Proc.mod_inst d)
                          src maps) w' s2)).
Proof.
  intros Hok Hd Hrun.
  destruct (hd true (script s)) eqn:Hm1;
    [|by rewrite instantiate_no_instance in Hrun
        by (done || by apply (null_unmapped _ Hok))].
  split; [done|].
  destruct (N.eq_dec (Proc.instantiate d) NULL) as [Hfn|Hfn].
  { left. rewrite (instantiate_plain E _ _ _ _ _ _ Hok Hd Hm1 Hfn) in Hrun.
    by injection Hrun as <- <-. }
  right.
  destruct (N.eq_dec (Proc.inst_size d) 0%N) as [Hsize|Hsize].
  - right. split; [done|].
    destruct (call_instantiate E (Proc.instantiate d) NULL (Proc.mod_inst d) src maps
                               (world s)) as [rc w'] eqn:Hcall.
    exists NULL, (fresh_instance ctx proc src maps s), rc, w'.
    split; [by left|]. split; [done|].
    rewrite (instantiate_unbuffered E _ _ _ _ _ _ _ _ Hok Hd Hm1 Hfn Hsize Hcall)
      in Hrun.
    destruct (rc <? 0); [|by injection Hrun as <- <-].
    destruct (talloc_free_returns (brk s)
                (called (EvInstantiate (Proc.instantiate d) NULL (Proc.mod_inst d)
                           src maps) w' (fresh_instance ctx proc src maps s)))
      as [s'' Hfree].
    rewrite Hfree in Hrun. injection Hrun as <- <-. done.
  - assert (0 < Proc.inst_size d)%N as Hpos by lia.
    destruct (hd true (tl (script s))) eqn:Hm2.
    + right. split; [done|].
      destruct (call_instantiate E (Proc.instantiate d) (N.succ (brk s))
                                 (Proc.mod_inst d) src maps (world s))
        as [rc w'] eqn:Hcall.
      exists (N.succ (brk s)),
             (buffered_instance ctx proc src maps (Proc.inst_size d) s), rc, w'.
      split; [by right|]. split; [done|].
      rewrite (instantiate_buffered E _ _ _ _ _ _ _ _ Hok Hd Hm1 Hfn Hpos Hm2 Hcall)
        in Hrun.
      destruct (rc <? 0); [|by injection Hrun as <- <-].
      destruct (talloc_free_returns (brk s)
                  (called (EvInstantiate (Proc.instantiate d) (N.succ (brk s))
                             (Proc.mod_inst d) src maps) w'
                          (buffered_instance ctx proc src maps (Proc.inst_size d) s)))
        as [s'' Hfree].
      rewrite Hfree in Hrun. injection Hrun as <- <-. done.
    + left.
      rewrite (instantiate_no_buffer E _ _ _ _ _ _ Hok Hd Hm1 Hfn Hpos Hm2) in Hrun.
      by injection Hrun as <- <-.
Qed.

(** A state that has the tree of [s], every chunk of [s] and room above is
    as well formed as [s], and answers every name as [s] does. *)
Lemma registry_ok_grow s s' :
  registry_ok s -> map_proc_root s' = map_proc_root s ->
  (forall q c, heap s' !! q = Some c -> (0 < q < brk s')%N) -> (0 < brk s')%N ->
  (forall q c, heap s !! q = Some c -> heap s' !! q = Some c) ->
  registry_ok s' /\
  forall name, registered_at E s' name = registered_at E s name.
Proof.
  intros Hok Hroot Hfresh Hbrk Hkeep.
  assert (forall t x, map_proc_root s = Some t -> x ∈ rb_nodes t ->
            proc_at (heap s') x = proc_at (heap s) x) as Hsame.
  { intros t x Ht Hx. destruct (ok_tree _ Hok _ Ht) as [_ [Hlive _]].
    rewrite Forall_forall in Hlive.
    destruct (Hlive _ Hx) as (p & Hp & _).
    pose proof Hp as Hp'. apply proc_at_Some in Hp' as (c & Hc & Hpay).
    rewrite Hp. apply proc_at_Some. exists c. split; [by apply Hkeep|done]. }
  split.
  - split; [done|done|].
    intros t Ht. rewrite Hroot in Ht.
    destruct (ok_tree _ Hok _ Ht) as [Hrep [Hlive Hnd]].
    split; [done|]. split.
    + rewrite Forall_forall in Hlive |- *. intros x Hx.
      destruct (Hlive _ Hx) as (p & Hp & Hwf). exists p.
      split; [|done]. by rewrite (Hsame t).
    + rewrite (names_ext (heap s) (heap s')); [done|].
      intros x Hx. unfold node_name. by rewrite (Hsame t).
  - intros name. unfold registered_at. rewrite Hroot.
    destruct (map_proc_root s) as [t|] eqn:Ht; [|done].
    apply lookup_name_ext. intros x Hx. unfold node_name. by rewrite (Hsame t).
Qed.

(** What every returning run of [map_proc_instantiate] leaves of the state
    it started in. *)
Lemma instantiate_frame ctx proc src maps s d inst s' :
  registry_ok s -> parents_ok s -> proc_at (heap s) proc = Some d ->
  map_proc_instantiate E ctx proc src maps s = Done inst s' ->
  map_proc_root s' = map_proc_root s /\ (brk s < brk s')%N /\
  (forall q c, heap s !! q = Some c -> heap s' !! q = Some c) /\
  (forall q c, heap s' !! q = Some c -> (0 < q < brk s')%N) /\
  evaluate_calls (log s') = evaluate_calls (log s).
Proof.
  intros Hok Hpar Hd Hrun.
  pose proof (ok_brk _ Hok) as Hbrk.
  assert (forall q c, heap s !! q = Some c -> q <> brk s /\ q <> N.succ (brk s))
    as Hold.
  { intros q c Hq. apply (ok_fresh _ Hok) in Hq. lia. }
  assert (forall e, evaluate_calls (log s ++ [EvInstantiate e.1.1.1.1 e.1.1.1.2
                                                e.1.1.2 e.1.2 e.2]) =
                    evaluate_calls (log s)) as Hcalls.
  { intros e. rewrite evaluate_calls_app. unfold evaluate_calls at 2. simpl. lia. }
  destruct (instantiate_cases _ _ _ _ _ _ _ _ Hok Hd Hrun)
    as [Hm1 [(Hfn & -> & ->)|[(Hfn & Hpos & Hm2 & -> & ->)
                             |(Hfn & data & s2 & rc & w' & Hs2 & Hcall & Hres)]]].
  - simpl. split; [done|]. split; [lia|]. split; [|split; [|done]].
    + intros q c Hq. destruct (Hold _ _ Hq). by rewrite lookup_insert_ne.
    + intros q c. rewrite lookup_insert. case_decide; [intros _; lia|].
      intros Hq. apply (ok_fresh _ Hok) in Hq. lia.
  - simpl. split; [done|]. split; [lia|]. split; [|split; [|done]].
    + intros q c Hq. destruct (Hold _ _ Hq). by rewrite lookup_insert_ne.
    + intros q c. rewrite lookup_insert. case_decide; [intros _; lia|].
      intros Hq. apply (ok_fresh _ Hok) in Hq. lia.
  - destruct (rc <? 0).
    + destruct Hres as [-> Hfree].
      destruct Hs2 as [(Hsize & -> & ->)|(Hpos & Hm2 & -> & ->)].
      * rewrite unwind_fresh in Hfree by done. injection Hfree as <-. simpl.
        split; [done|]. split; [lia|]. split; [done|]. split.
        { intros q c Hq. apply (ok_fresh _ Hok) in Hq. lia. }
        apply (Hcalls (_, _, _, _, _)).
      * rewrite unwind_buffered in Hfree by done. injection Hfree as <-. simpl.
        split; [done|]. split; [lia|]. split; [done|]. split.
        { intros q c Hq. apply (ok_fresh _ Hok) in Hq. lia. }
        apply (Hcalls (_, _, _, _, _)).
    + destruct Hres as [-> ->].
      destruct Hs2 as [(Hsize & -> & ->)|(Hpos & Hm2 & -> & ->)]; simpl.
      * split; [done|]. split; [lia|]. split; [|split].
        { intros q c Hq. destruct (Hold _ _ Hq). by rewrite lookup_insert_ne. }
        { intros q c. rewrite lookup_insert. case_decide; [intros _; lia|].
          intros Hq. apply (ok_fresh _ Hok) in Hq. lia. }
        apply (Hcalls (_, _, _, _, _)).
      * split; [done|]. split; [lia|]. split; [|split].
        { intros q c Hq. destruct (Hold _ _ Hq). by rewrite !lookup_insert_ne. }
        { intros q c. rewrite !lookup_insert.
          case_decide; [intros _; lia|]. case_decide; [intros _; lia|].
          intros Hq. apply (ok_fresh _ Hok) in Hq. lia. }
        apply (Hcalls (_, _, _, _, _)).
Qed.

Lemma instantiate_keeps_ok ctx proc src maps s d inst s' :
  registry_ok s -> parents_ok s -> proc_at (heap s) proc = Some d ->
  map_proc_instantiate E ctx proc src maps s = Done inst s' ->
  registry_ok s' /\ forall name, registered_at E s' name = registered_at E s name.
Proof.
  intros Hok Hpar Hd Hrun.
  destruct (instantiate_frame _ _ _ _ _ _ _ _ Hok Hpar Hd Hrun)
    as (Hroot & Hbrk & Hkeep & Hfresh & _).
  apply registry_ok_grow; [done..|lia|done].
Qed.

(** X9: the call [map_proc_instantiate] makes through the instantiate
    callback.  A run that returns has either made no call, which happens
    exactly when the descriptor has no callback (an instance is returned) or
    when the instance data could not be allocated (NULL is returned); or it
    has made one call, with the owner of the descriptor, the template, the
    maps and as instance data the new buffer when [inst_size > 0] and NULL
    otherwise; then NULL is returned exactly when the callback returned a
    negative value, and the instance returned carries the data the callback
    was given. *)
Theorem map_proc_instantiate_calls_hook ctx proc src maps s d inst s' :
  registry_ok s -> proc_at (heap s) proc = Some d ->
  map_proc_instantiate E ctx proc src maps s = Done inst s' ->
  let data := if (0 <? Proc.inst_size d)%N then N.succ (brk s) else NULL in
  let e := EvInstantiate (Proc.instantiate d) data (Proc.mod_inst d) src maps in
  (log s' = log s /\ world s' = world s /\
   (Proc.instantiate d = NULL /\ inst <> NULL \/
    Proc.instantiate d <> NULL /\ inst = NULL /\
    (0 < Proc.inst_size d)%N /\ hd true (tl (script s)) = false)) \/
  (Proc.instantiate d <> NULL /\ log s' = log s ++ [e] /\
   exists rc,
     call_instantiate E (Proc.instantiate d) data (Proc.mod_inst d) src maps
                      (world s) = (rc, world s') /\
     (inst = NULL <-> rc < 0) /\
     (inst <> NULL ->
      inst_at (heap s') inst = Some (Inst.Build proc src maps data))).
Proof.
  intros Hok Hd Hrun data e.
  pose proof (ok_brk _ Hok) as Hbrk.
  assert (brk s <> NULL) as Hbn by (unfold NULL; lia).
  destruct (instantiate_cases _ _ _ _ _ _ _ _ Hok Hd Hrun)
    as [Hm1 [(Hfn & -> & ->)|[(Hfn & Hpos & Hm2 & -> & ->)
                             |(Hfn & data' & s2 & rc & w' & Hs2 & Hcall & Hres)]]].
  - left. split; [done|]. split; [done|]. by left.
  - left. split; [done|]. split; [done|]. by right.
  - right. split; [done|].
    assert (data' = data /\ log s2 = log s /\
            inst_at (heap s2) (brk s) = Some (Inst.Build proc src maps data))
      as (-> & Hlog2 & Hinst2).
    { unfold data.
      destruct Hs2 as [(Hsize & -> & ->)|(Hpos & Hm2 & -> & ->)].
      - rewrite Hsize. split; [done|]. split; [done|]. apply inst_at_insert.
      - apply N.ltb_lt in Hpos. rewrite Hpos. split; [done|]. split; [done|].
        simpl. unfold inst_at. rewrite lookup_insert_ne by lia.
        by rewrite lookup_insert_eq. }
    fold e in Hres. destruct (Z.ltb_spec rc 0) as [Hneg|Hpos].
    + destruct Hres as [-> Hfree].
      destruct (talloc_free_frame (brk s) (called e w' s2)) as [h' Hframe].
      rewrite Hframe in Hfree. injection Hfree as <-. simpl.
      split; [by rewrite Hlog2|]. exists rc. split; [done|]. split; [done|done].
    + destruct Hres as [-> ->]. simpl.
      split; [by rewrite Hlog2|]. exists rc. split; [done|].
      split; [split; [done|lia]|done].
Qed.

(** X8: with memory available, [map_proc_instantiate] returns NULL only
    because the instantiate callback failed, and then the construction is
    undone: the callback was called once and returned a negative value, and
    the chunks are those there were before the call, the instance and its
    buffer released. *)
Theorem map_proc_instantiate_failure_unwinds ctx proc src maps s d s' :
  registry_ok s -> parents_ok s -> proc_at (heap s) proc = Some d ->
  memory_available s ->
  map_proc_instantiate E ctx proc src maps s = Done NULL s' ->
  heap s' = heap s /\ map_proc_root s' = map_proc_root s /\ (brk s < brk s')%N /\
  Proc.instantiate d <> NULL /\
  exists data rc,
    call_instantiate E (Proc.instantiate d) data (Proc.mod_inst d) src maps
                     (world s) = (rc, world s') /\
    rc < 0 /\
    log s' = log s ++ [EvInstantiate (Proc.instantiate d) data (Proc.mod_inst d)
                                     src maps].
Proof.
  intros Hok Hpar Hd Hmem Hrun.
  pose proof (ok_brk _ Hok) as Hbrk.
  pose proof (memory_available_tl _ Hmem) as Hm2'.
  destruct (instantiate_cases _ _ _ _ _ _ _ _ Hok Hd Hrun)
    as [Hm1 [(Hfn & Hinst & _)|[(Hfn & Hpos & Hm2 & _)
                               |(Hfn & data & s2 & rc & w' & Hs2 & Hcall & Hres)]]].
  - unfold NULL in Hinst. lia.
  - congruence.
  - destruct (Z.ltb_spec rc 0) as [Hneg|Hpos];
      [|destruct Hres as [Hinst _]; unfold NULL in Hinst; lia].
    destruct Hres as [_ Hfree].
    destruct Hs2 as [(Hsize & -> & ->)|(Hpos & Hm2 & -> & ->)].
    + rewrite unwind_fresh in Hfree by done. injection Hfree as <-. simpl.
      split; [done|]. split; [done|]. split; [lia|]. split; [done|].
      by exists NULL, rc.
    + rewrite unwind_buffered in Hfree by done. injection Hfree as <-. simpl.
      split; [done|]. split; [done|]. split; [lia|]. split; [done|].
      by exists (N.succ (brk s)), rc.
Qed.

(** X10: [map_proc_instantiate] does not touch the registry.  Whenever it
    returns, the registry is well formed, every chunk there was is still
    allocated and unchanged, every name finds what it found before, and no
    evaluate callback was called; an instance returned is at an address that
    was not allocated before. *)
Theorem map_proc_instantiate_keeps_registry ctx proc src maps s d inst s' :
  registry_ok s -> parents_ok s -> proc_at (heap s) proc = Some d ->
  map_proc_instantiate E ctx proc src maps s = Done inst s' ->
  registry_ok s' /\
  (forall q c, heap s !! q = Some c -> heap s' !! q = Some c) /\
  (forall name, exists q,
     map_proc_find E name s = Done q s /\ map_proc_find E name s' = Done q s') /\
  evaluate_calls (log s') = evaluate_calls (log s) /\
  (inst <> NULL -> heap s !! inst = None /\ is_Some (inst_at (heap s') inst)).
Proof.
  intros Hok Hpar Hd Hrun.
  destruct (instantiate_frame _ _ _ _ _ _ _ _ Hok Hpar Hd Hrun)
    as (Hroot & Hbrk & Hkeep & Hfresh & Hcalls).
  destruct (instantiate_keeps_ok _ _ _ _ _ _ _ _ Hok Hpar Hd Hrun) as [Hok' Hsame].
  split; [done|]. split; [done|]. split; [|split; [done|]].
  - intros name. exists (registered_at E s name).
    split; [by apply map_proc_find_spec|].
    rewrite map_proc_find_spec by done. by rewrite Hsame.
  - intros Hinst.
    destruct (proj2 (instantiate_cases _ _ _ _ _ _ _ _ Hok Hd Hrun))
      as [(Hfn & -> & ->)|[(Hfn & Hpos & Hm2 & -> & ->)
                          |(Hfn & data & s2 & rc & w' & Hs2 & Hcall & Hres)]].
    + split; [by apply fresh_brk|]. simpl. by rewrite inst_at_insert.
    + done.
    + destruct (rc <? 0); destruct Hres as [-> Hs']; [done|].
      split; [by apply fresh_brk|]. subst s'.
      destruct Hs2 as [(Hsize & -> & ->)|(Hpos & Hm2 & -> & ->)]; simpl.
      * by rewrite inst_at_insert.
      * unfold inst_at. rewrite lookup_insert_ne by lia.
        by rewrite lookup_insert_eq.
Qed.

End InstancesMore.

(** ** More on evaluation *)

Section EvaluationMore.
Context {W : Type} (E : env W).
Implicit Types (s : state W) (h : gmap ptr chunk).

Lemma load_inst_inv p i s s1 :
  load_inst p s = Done i s1 -> s1 = s /\ inst_at (heap s) p = Some i.
Proof.
  unfold load_inst, load, bind, inst_at.
  destruct (heap s !! p) as [c|]; [|done].
  destruct (c_payload c); unfold ret, crash; try done.
  by intros [= <- <-].
Qed.

Lemma load_proc_inv p d s s1 :
  load_proc p s = Done d s1 -> s1 = s /\ proc_at (heap s) p = Some d.
Proof.
  unfold load_proc, load, bind, proc_at.
  destruct (heap s !! p) as [c|]; [|done].
  destruct (c_payload c); unfold ret, crash; try done.
  by intros [= <- <-].
Qed.

(** [tmpl_aexpand], outcome by outcome. *)
Lemma tmpl_aexpand_run ctx request vpt escape escape_ctx s :
  registry_ok s ->
  let x := xlat_expand E request vpt escape escape_ctx (world s) in
  tmpl_aexpand E ctx request vpt escape escape_ctx s =
    match x.1 with
    | None =>
        Done (-1, NULL)
             (State (heap s) (brk s) (script s) (map_proc_root s) (log s) x.2)
    | Some v =>
        if hd true (script s)
        then Done (Z.of_nat (length v), brk s)
                  (State (<[brk s := Chunk ctx false (PString v)]> (heap s))
                         (N.succ (brk s)) (tl (script s)) (map_proc_root s)
                         (log s) x.2)
        else Done (-1, NULL)
                  (State (heap s) (brk s) (tl (script s)) (map_proc_root s)
                         (log s) x.2)
    end.
Proof.
  intros Hok x. subst x. pose proof (ok_brk _ Hok) as Hbrk.
  unfold tmpl_aexpand. unfold bind at 1.
  destruct (xlat_expand E request vpt escape escape_ctx (world s)) as [[v|] w];
    [|done].
  unfold bind. rewrite talloc_spec. simpl.
  destruct (hd true (script s)); simpl; [|done].
  by destruct (N.eqb_spec (brk s) NULL) as [Hz|_]; [unfold NULL in Hz; lia|].
Qed.

(** Releasing the expanded string gives back the chunks there were. *)
Lemma release_string ctx v s (sc : list bool) (l : list event) (w : W) :
  registry_ok s -> parents_ok s ->
  talloc_free (brk s)
    (State (<[brk s := Chunk ctx false (PString v)]> (heap s)) (N.succ (brk s))
           sc (map_proc_root s) l w) =
  Done 0 (State (heap s) (N.succ (brk s)) sc (map_proc_root s) l w).
Proof.
  intros Hok Hpar. pose proof (ok_brk _ Hok) as Hbrk.
  unfold talloc_free.
  destruct (N.eqb_spec (brk s) NULL) as [Hz|_]; [unfold NULL in Hz; lia|].
  simpl. f_equal. f_equal.
  apply talloc_free_unwinds; [done| | |].
  - intros q c Hq. split; [apply (ok_fresh _ Hok) in Hq; lia|by eapply Hpar].
  - intros q Hq. apply lookup_insert_ne. lia.
  - intros q c Hq Hle. rewrite lookup_insert in Hq.
    case_decide; [by left|]. apply (ok_fresh _ Hok) in Hq. lia.
Qed.

(** [map_proc] on an instance of a descriptor, outcome by outcome. *)
Lemma map_proc_run request inst s i d :
  registry_ok s -> parents_ok s ->
  inst_at (heap s) inst = Some i -> proc_at (heap s) (Inst.proc i) = Some d ->
  let x := xlat_expand E request (Inst.src i) (Proc.escape d) (Proc.mod_inst d)
                       (world s) in
  map_proc E request inst s =
    match x.1 with
    | None =>
        Done RLM_MODULE_FAIL
             (State (heap s) (brk s) (script s) (map_proc_root s) (log s) x.2)
    | Some v =>
        if hd true (script s)
        then
          if (Proc.evaluate d =? NULL)%N then Fault SIGSEGV
          else
            let r := call_evaluate E (Proc.evaluate d) (Proc.mod_inst d)
                                   (Inst.data i) request v (Inst.maps i) x.2 in
            Done r.1
                 (State (heap s) (N.succ (brk s)) (tl (script s)) (map_proc_root s)
                        (log s ++ [EvEvaluate (Proc.evaluate d) (Proc.mod_inst d)
                                              (Inst.data i) request v (Inst.maps i)])
                        r.2)
        else Done RLM_MODULE_FAIL
                  (State (heap s) (brk s) (tl (script s)) (map_proc_root s)
                         (log s) x.2)
    end.
Proof.
  intros Hok Hpar Hi Hd x. subst x. unfold map_proc.
  rewrite (bind_done _ _ _ _ _ (load_inst_at _ _ _ Hi)).
  rewrite (bind_done _ _ _ _ _ (load_proc_at _ _ _ Hd)).
  unfold bind at 1. rewrite tmpl_aexpand_run by done. cbv zeta.
  destruct (xlat_expand E request (Inst.src i) (Proc.escape d) (Proc.mod_inst d)
                        (world s)) as [[v|] w]; cbn [fst snd]; [|done].
  destruct (hd true (script s)); cbn [fst snd]; [|done].
  assert ((Z.of_nat (length v) <? 0) = false) as -> by (apply Z.ltb_ge; lia).
  unfold bind at 1, load_string, bind at 1, load. cbn [heap].
  rewrite lookup_insert_eq. cbn [c_payload]. unfold ret at 1.
  unfold invoke_evaluate. destruct (Proc.evaluate d =? NULL)%N; [done|].
  unfold bind at 1. cbn [world].
  destruct (call_evaluate E (Proc.evaluate d) (Proc.mod_inst d) (Inst.data i) request v
                          (Inst.maps i) w) as [rcode w'].
  unfold bind. cbn [heap brk script map_proc_root log].
  by rewrite release_string.
Qed.

(** X11: [map_proc] keeps nothing and changes nothing of the registry.
    Whenever it returns, the chunks are those there were before the call
    (the expanded string is released on the path that allocates it), the
    tree is the same, the registry is well formed, and the evaluate callback
    was called once or not at all; a result other than [RLM_MODULE_FAIL]
    comes from the callback, called once. *)
Theorem map_proc_releases_expansion request inst s rcode s' :
  registry_ok s -> parents_ok s ->
  map_proc E request inst s = Done rcode s' ->
  heap s' = heap s /\ map_proc_root s' = map_proc_root s /\
  registry_ok s' /\ parents_ok s' /\
  (evaluate_calls (log s') = evaluate_calls (log s) \/
   evaluate_calls (log s') = S (evaluate_calls (log s))) /\
  (rcode <> RLM_MODULE_FAIL ->
   evaluate_calls (log s') = S (evaluate_calls (log s))).
Proof.
  intros Hok Hpar Hrun.
  assert (exists i d, inst_at (heap s) inst = Some i /\
                      proc_at (heap s) (Inst.proc i) = Some d)
    as (i & d & Hi & Hd).
  { unfold map_proc in Hrun. unfold bind at 1 in Hrun.
    destruct (load_inst inst s) as [i s1|] eqn:Hi; [|done].
    apply load_inst_inv in Hi as [-> Hi].
    unfold bind at 1 in Hrun.
    destruct (load_proc (Inst.proc i) s) as [d s1|] eqn:Hd; [|done].
    apply load_proc_inv in Hd as [-> Hd]. eauto. }
  rewrite (map_proc_run _ _ _ _ _ Hok Hpar Hi Hd) in Hrun. cbv zeta in Hrun.
  assert (forall b (sc : list bool) (l : list event) (w : W), (brk s <= b)%N ->
            registry_ok (State (heap s) b sc (map_proc_root s) l w) /\
            parents_ok (State (heap s) b sc (map_proc_root s) l w)) as Hkeep.
  { intros b sc l w Hb. split.
    - destruct Hok as [H1 H2 H3]. split; simpl; [lia| |done].
      intros q c Hq. apply H2 in Hq. lia.
    - intros q c Hq. simpl in *. apply Hpar in Hq. lia. }
  destruct (xlat_expand E request (Inst.src i) (Proc.escape d) (Proc.mod_inst d)
                        (world s)) as [[v|] w]; cbn [fst snd] in Hrun.
  - destruct (hd true (script s)).
    + destruct (Proc.evaluate d =? NULL)%N; [done|].
      injection Hrun as <- <-. cbn [heap map_proc_root log].
      split; [done|]. split; [done|].
      split; [apply Hkeep; lia|]. split; [apply Hkeep; lia|].
      assert (evaluate_calls
                (log s ++ [EvEvaluate (Proc.evaluate d) (Proc.mod_inst d)
                                      (Inst.data i) request v (Inst.maps i)]) =
              S (evaluate_calls (log s))) as ->.
      { rewrite evaluate_calls_app. unfold evaluate_calls at 2. simpl. lia. }
      split; [by right|done].
    + injection Hrun as <- <-. cbn [heap map_proc_root log].
      split; [done|]. split; [done|].
      split; [apply Hkeep; lia|]. split; [apply Hkeep; lia|].
      split; [by left|done].
  - injection Hrun as <- <-. cbn [heap map_proc_root log].
    split; [done|]. split; [done|].
    split; [apply Hkeep; lia|]. split; [apply Hkeep; lia|].
    split; [by left|done].
Qed.

(** X14: the evaluate callback is called without a check.  Where
    [map_proc_instantiate] tests the instantiate callback before calling
    it, [map_proc] calls through the evaluate pointer as soon as the
    template has expanded: on a descriptor registered with a NULL evaluate
    callback the call goes through NULL (a bad memory access here), and no
    result code is returned. *)
Theorem map_proc_null_evaluate request inst s i d v :
  registry_ok s ->
  inst_at (heap s) inst = Some i -> proc_at (heap s) (Inst.proc i) = Some d ->
  Proc.evaluate d = NULL ->
  (xlat_expand E request (Inst.src i) (Proc.escape d) (Proc.mod_inst d)
               (world s)).1 = Some v ->
  hd true (script s) = true ->
  map_proc E request inst s = Fault SIGSEGV.
Proof.
  intros Hok Hi Hd Hfn Hexp Hmem. unfold map_proc.
  rewrite (bind_done _ _ _ _ _ (load_inst_at _ _ _ Hi)).
  rewrite (bind_done _ _ _ _ _ (load_proc_at _ _ _ Hd)).
  unfold bind at 1. rewrite tmpl_aexpand_run by done. cbv zeta.
  rewrite Hexp, Hmem. cbn [fst snd].
  assert ((Z.of_nat (length v) <? 0) = false) as -> by (apply Z.ltb_ge; lia).
  unfold bind at 1, load_string, bind at 1, load. cbn [heap].
  rewrite lookup_insert_eq. cbn [c_payload]. unfold ret at 1.
  unfold invoke_evaluate. by rewrite Hfn.
Qed.

End EvaluationMore.

(** ** From registration to evaluation *)

Section Pipeline.
Context {W : Type} (E : env W).
Implicit Types (s : state W) (h : gmap ptr chunk).
Hypothesis name_fits_int : Z.of_nat (FR_MAX_STRING_LEN E) <= 2 ^ 31.

(** The registrations that return 0, path by path: the descriptor found is
    assigned in place, or a descriptor is allocated under the owner. *)
Lemma register_rooted_cases mod_inst name evaluate escape instantiate inst_size
    s s' t :
  registry_ok s -> assert_passes E name -> map_proc_root s = Some t ->
  map_proc_register E mod_inst name evaluate escape instantiate inst_size s =
    Done 0 s' ->
  (exists p c d,
     registered_at E s name = p /\ p <> NULL /\
     heap s !! p = Some c /\ c_payload c = PProc d /\
     s' = put_heap (<[p := Chunk (c_parent c) (c_destructor c)
                           (PProc (Proc.Build mod_inst (Proc.name d) (Proc.length d)
                                              evaluate instantiate escape inst_size))]>
                      (heap s)) s) \/
  (registered_at E s name = NULL /\
   exists t',
     s' = State (<[brk s := Chunk mod_inst true
                          (PProc (registered (FR_MAX_STRING_LEN E) mod_inst name
                                    evaluate escape instantiate inst_size))]> (heap s))
                (N.succ (brk s)) (tl (tl (script s))) (Some t') (log s) (world s)).
Proof.
  intros Hok Hassert Ht Hrun.
  destruct (decide (registered_at E s name = NULL)) as [Hp|Hp].
  - right. split; [done|].
    destruct (hd true (script s)) eqn:Hmem;
      [|by rewrite (register_new_no_proc E name_fits_int _ _ _ _ _ _ _ _
                      Hok Hassert Ht Hp Hmem) in Hrun].
    destruct (register_new E name_fits_int mod_inst name evaluate escape instantiate
                inst_size s t Hok Hassert Ht Hp Hmem) as (pre & post & _ & Heq).
    rewrite Heq in Hrun. destruct (hd true (tl (script s))).
    + injection Hrun as <-. eauto.
    + unfold bind, talloc_free, ret in Hrun.
      destruct (brk s =? NULL)%N; discriminate.
  - left. destruct (found_is_descriptor E _ _ Hok Hp) as (c & d & Hc & Hd & _).
    rewrite (register_again E name_fits_int _ _ _ _ _ _ _ _ _ _
               Hok Hassert eq_refl Hp Hc Hd) in Hrun.
    injection Hrun as <-. exists (registered_at E s name), c, d. done.
Qed.

Lemma register_success_cases mod_inst name evaluate escape instantiate inst_size s s' :
  registry_ok s ->
  map_proc_register E mod_inst name evaluate escape instantiate inst_size s =
    Done 0 s' ->
  (exists p c d,
     registered_at E s name = p /\ p <> NULL /\
     heap s !! p = Some c /\ c_payload c = PProc d /\
     s' = put_heap (<[p := Chunk (c_parent c) (c_destructor c)
                           (PProc (Proc.Build mod_inst (Proc.name d) (Proc.length d)
                                              evaluate instantiate escape inst_size))]>
                      (heap s)) s) \/
  (registered_at E s name = NULL /\
   exists sc t',
     sc = match map_proc_root s with
          | Some _ => tl (tl (script s))
          | None => tl (tl (tl (script s)))
          end /\
     s' = State (<[brk s := Chunk mod_inst true
                          (PProc (registered (FR_MAX_STRING_LEN E) mod_inst name
                                    evaluate escape instantiate inst_size))]> (heap s))
                (N.succ (brk s)) sc (Some t') (log s) (world s)).
Proof.
  intros Hok Hrun.
  destruct (assert_passes_dec E name) as [Hassert|[Hn Hname]];
    [|by rewrite register_assert_fails in Hrun].
  destruct (map_proc_root s) as [t|] eqn:Ht.
  - destruct (register_rooted_cases _ _ _ _ _ _ _ _ _ Hok Hassert Ht Hrun)
      as [Hagain|[Hp [t' ->]]]; [by left|].
    right. split; [done|]. by exists (tl (tl (script s))), t'.
  - rewrite register_first in Hrun by done.
    destruct (hd true (script s)); [|discriminate].
    destruct (register_rooted_cases _ _ _ _ _ _ _ _ _
                (registry_ok_created _ Hok Ht) Hassert eq_refl Hrun)
      as [(p & c & d & Hp & Hnn & _)|[_ [t' ->]]].
    + by rewrite <- Hp in Hnn.
    + right. split; [unfold registered_at; by rewrite Ht|].
      by exists (tl (tl (tl (script s)))), t'.
Qed.

(** X16: the chunk of a descriptor.  A registration that returns 0 writes
    one chunk, the one the name is found at afterwards.  Under a new name
    that chunk is allocated in this call, as a child of the owner
    [mod_inst] and with the destructor attached; it is the one chunk the call
    adds, while the call has been granted two allocations when the tree
    was there (the descriptor and the node [rbtree_insert_node] keeps in the
    tree) and three when it was not (the tree as well): node and tree stay
    allocated too, as storage of the tree.  Under a registered name no
    allocation is requested and the chunk keeps the parent and the
    destructor it had: the descriptor is not moved under the new owner. *)
Theorem map_proc_register_ownership mod_inst name evaluate escape instantiate inst_size
    s s' :
  registry_ok s ->
  map_proc_register E mod_inst name evaluate escape instantiate inst_size s =
    Done 0 s' ->
  exists p c',
    map_proc_find E name s' = Done p s' /\ heap s' !! p = Some c' /\
    (forall q, q <> p -> heap s' !! q = heap s !! q) /\
    match heap s !! p with
    | Some c =>
        map_proc_find E name s = Done p s /\ brk s' = brk s /\
        script s' = script s /\ map_proc_root s' = map_proc_root s /\
        c_parent c' = c_parent c /\ c_destructor c' = c_destructor c
    | None =>
        map_proc_find E name s = Done NULL s /\ p = brk s /\ brk s' = N.succ (brk s) /\
        script s' = match map_proc_root s with
                    | Some _ => tl (tl (script s))
                    | None => tl (tl (tl (script s)))
                    end /\
        (exists t', map_proc_root s' = Some t' /\ p ∈ rb_nodes t') /\
        c_parent c' = mod_inst /\ c_destructor c' = true
    end.
Proof.
  intros Hok Hrun.
  destruct (map_proc_register_success E name_fits_int _ _ _ _ _ _ _ _ Hok Hrun)
    as (Hok' & Hnn & _ & Hsame & _ & Hheap & _).
  exists (registered_at E s' name).
  destruct (register_success_cases _ _ _ _ _ _ _ _ Hok Hrun)
    as [(p & c & d & Hp & Hpn & Hc & Hd & Hs')|(Hp & sc & t' & Hsc & Hs')].
  - rewrite Hsame by congruence. rewrite Hp, Hc. eexists.
    split; [rewrite map_proc_find_spec by done; f_equal; rewrite Hsame; congruence|].
    split; [subst s'; simpl; apply lookup_insert_eq|].
    split; [rewrite <- Hp, <- Hsame by congruence; exact Hheap|].
    split; [rewrite map_proc_find_spec by done; by rewrite Hp|].
    by subst s'.
  - assert (registered_at E s' name = brk s) as Hnew.
    { destruct (decide (registered_at E s' name = brk s)) as [|Hne]; [done|].
      assert (brk s <> registered_at E s' name) as Hne' by congruence.
      apply Hheap in Hne'. rewrite (fresh_brk _ Hok) in Hne'.
      subst s'. simpl in Hne'. by rewrite lookup_insert_eq in Hne'. }
    assert (brk s ∈ rb_nodes t') as Hin.
    { pose proof Hnn as Hnn'. rewrite <- Hnew.
      unfold registered_at in Hnn' |- *. subst s'. simpl in *.
      by apply (lookup_name_elem _ _ _ _ eq_refl). }
    rewrite Hnew, (fresh_brk _ Hok). eexists.
    split; [rewrite map_proc_find_spec by done; by rewrite Hnew|].
    split; [subst s'; simpl; apply lookup_insert_eq|].
    split; [rewrite <- Hnew; exact Hheap|].
    split; [rewrite map_proc_find_spec by done; by rewrite Hp|].
    subst s'. simpl. do 3 (split; [done|]). split; [eauto|done].
Qed.

Lemma register_keeps_parents mod_inst name evaluate escape instantiate inst_size s s' :
  registry_ok s -> parents_ok s -> (mod_inst < brk s)%N -> memory_available s ->
  map_proc_register E mod_inst name evaluate escape instantiate inst_size s =
    Done 0 s' ->
  parents_ok s' /\ memory_available s' /\ (brk s <= brk s')%N.
Proof.
  intros Hok Hpar Hmod Hmem Hrun.
  assert (forall l : list bool, Forall (fun b => b = true) l ->
            Forall (fun b => b = true) (tl l)) as Htl.
  { intros l Hl. destruct Hl; simpl; [constructor|done]. }
  destruct (register_success_cases _ _ _ _ _ _ _ _ Hok Hrun)
    as [(p & c & d & Hp & Hpn & Hc & Hd & ->)|(Hp & sc & t' & Hsc & ->)].
  - split; [|split; [done|simpl; lia]].
    intros q cq. simpl. rewrite lookup_insert.
    case_decide; [intros [= <-]; simpl; by eapply Hpar|apply Hpar].
  - split; [|split; [|simpl; lia]].
    + intros q cq. simpl. rewrite lookup_insert.
      case_decide; [intros [= <-]; simpl; lia|].
      intros Hq. apply Hpar in Hq. lia.
    + unfold memory_available in *. simpl. subst sc.
      destruct (map_proc_root s); auto.
Qed.

(** X15: from registration to evaluation.  With memory available, a name
    registered with an evaluate callback and no instantiate callback is
    found, an instance of the descriptor found is created, and [map_proc]
    on that instance expands the template of the instance with the escape
    function and the owner that were registered, calls the evaluate callback
    registered once, with that owner, NULL instance data, the request, the
    expanded string and the maps of the instance, and returns what the
    callback returned. *)
Theorem map_proc_register_instantiate_evaluate mod_inst name evaluate escape inst_size
    ctx src maps request s v w1 :
  registry_ok s -> parents_ok s -> (mod_inst < brk s)%N -> (ctx < brk s)%N ->
  assert_passes E name -> memory_available s -> evaluate <> NULL ->
  xlat_expand E request src escape mod_inst (world s) = (Some v, w1) ->
  exists s',
    (map_proc_register E mod_inst name evaluate escape NULL inst_size ;;
     let* proc := map_proc_find E name in
     let* inst := map_proc_instantiate E ctx proc src maps in
     map_proc E request inst)%C s =
      Done (call_evaluate E evaluate mod_inst NULL request v maps w1).1 s' /\
    log s' = log s ++ [EvEvaluate evaluate mod_inst NULL request v maps] /\
    world s' = (call_evaluate E evaluate mod_inst NULL request v maps w1).2.
Proof.
  intros Hok Hpar Hmod Hctx Hassert Hmem Hfn Hexp.
  destruct (map_proc_register_progress E name_fits_int mod_inst name evaluate escape
              NULL inst_size s Hok Hassert Hmem) as [s1 Hrun1].
  destruct (map_proc_register_success E name_fits_int _ _ _ _ _ _ _ _ Hok Hrun1)
    as (Hok1 & Hnn & Hd & _ & _ & _ & Hlog1 & Hworld1).
  destruct (register_keeps_parents _ _ _ _ _ _ _ _ Hok Hpar Hmod Hmem Hrun1)
    as (Hpar1 & Hmem1 & Hbrk1).
  rewrite (bind_done _ _ _ _ _ Hrun1).
  rewrite (bind_done _ _ _ _ _ (map_proc_find_spec E name_fits_int _ _ Hok1)).
  set (p := registered_at E s1 name) in *.
  set (d := registered (FR_MAX_STRING_LEN E) mod_inst name evaluate escape NULL
                       inst_size) in *.
  rewrite (bind_done _ _ _ _ _
             (instantiate_plain E ctx p src maps s1 d Hok1 Hd
                (memory_available_hd _ Hmem1) eq_refl)).
  set (s2 := fresh_instance ctx p src maps s1).
  pose proof (ok_brk _ Hok1) as Hb1.
  assert (p <> brk s1) as Hpb.
  { intros Heq. apply proc_at_Some in Hd as (c & Hc & _).
    apply (ok_fresh _ Hok1) in Hc. lia. }
  assert (registry_ok s2) as Hok2.
  { destruct Hok1 as [H1 H2 H3]. split; simpl; [lia| |].
    - intros q c. rewrite lookup_insert. case_decide; [intros _; lia|].
      intros Hq. apply H2 in Hq. lia.
    - intros t Ht. destruct (H3 t Ht) as [Hrep [Hlive Hnd]].
      assert (forall x, x ∈ rb_nodes t -> brk s1 <> x) as Hne.
      { intros x Hx Heq. subst x. rewrite Forall_forall in Hlive.
        apply Hlive, live_mapped in Hx as [c Hc]. apply H2 in Hc. lia. }
      split; [done|]. split.
      + rewrite Forall_forall in Hlive |- *. intros x Hx.
        apply live_insert_ne; auto.
      + rewrite (names_ext (heap s1)); [done|].
        intros x Hx. apply node_name_insert_ne; auto. }
  assert (parents_ok s2) as Hpar2.
  { intros q c. simpl. rewrite lookup_insert.
    case_decide; [intros [= <-]; simpl; lia|].
    intros Hq. apply Hpar1 in Hq. lia. }
  assert (inst_at (heap s2) (brk s1) = Some (Inst.Build p src maps NULL)) as Hi2
    by apply inst_at_insert.
  assert (proc_at (heap s2) p = Some d) as Hd2.
  { simpl. by rewrite proc_at_insert_ne. }
  rewrite (map_proc_run E request (brk s1) s2 _ d Hok2 Hpar2 Hi2 Hd2). cbv zeta.
  cbn [Inst.src Inst.data Inst.maps Inst.proc].
  change (Proc.escape d) with escape. change (Proc.mod_inst d) with mod_inst.
  change (Proc.evaluate d) with evaluate.
  change (world s2) with (world s1). rewrite Hworld1, Hexp. cbn [fst snd].
  change (script s2) with (tl (script s1)).
  rewrite (memory_available_tl _ Hmem1).
  apply N.eqb_neq in Hfn. rewrite Hfn.
  eexists. split; [reflexivity|]. simpl. by rewrite Hlog1.
Qed.

End Pipeline.

(** ** The further properties on the concrete build *)

Lemma parents_ok_checked {W} (s : state W) :
  bool_decide (map_Forall (fun _ c => (c_parent c < brk s)%N) (heap s)) = true ->
  parents_ok s.
Proof. intros H%bool_decide_eq_true p c Hp. by apply (H p c). Qed.

Lemma boot_parents sc : parents_ok (Demo.boot sc).
Proof. intros p c. simpl. by rewrite lookup_empty. Qed.

Lemma s_both_parents : parents_ok Demo.s_both.
Proof. apply parents_ok_checked. vm_compute. reflexivity. Qed.

Lemma s_low_parents : parents_ok Demo.s_low.
Proof. apply parents_ok_checked. vm_compute. reflexivity. Qed.

Lemma s_fail_ok : registry_ok Demo.s_fail.
Proof.
  apply (register_keeps_ok Demo.E 12%N Demo.fail 40%N 41%N 66%N 4%N Demo.s_both);
    [apply demo_name_fits|apply s_both_ok|by vm_compute].
Qed.

Lemma s_fail_parents : parents_ok Demo.s_fail.
Proof. apply parents_ok_checked. vm_compute. reflexivity. Qed.

Lemma s_inst_ok src : registry_ok (Demo.s_inst src).
Proof.
  destruct (map_proc_instantiate Demo.E 500%N 1001%N src 8%N Demo.s_both)
    as [inst s'|f] eqn:Hrun.
  - unfold Demo.s_inst. rewrite Hrun. simpl.
    eapply (instantiate_keeps_ok Demo.E 500%N 1001%N src 8%N Demo.s_both
              (Proc.Build 11%N Demo.sqlite 6 30%N 32%N 31%N 8%N) inst s');
      [apply s_both_ok|apply s_both_parents|by vm_compute|exact Hrun].
  - unfold Demo.s_inst. rewrite Hrun. apply s_both_ok.
Qed.

Lemma s_inst_parents : parents_ok (Demo.s_inst 7%N).
Proof. apply parents_ok_checked. vm_compute. reflexivity. Qed.

Lemma s_raw_ok : registry_ok Demo.s_raw.
Proof.
  apply (register_keeps_ok Demo.E 13%N Demo.raw NULL 41%N NULL 0%N Demo.s_both);
    [apply demo_name_fits|apply s_both_ok|by vm_compute].
Qed.

Lemma s_raw_parents : parents_ok Demo.s_raw.
Proof. apply parents_ok_checked. vm_compute. reflexivity. Qed.

Lemma s_raw_inst_ok : registry_ok Demo.s_raw_inst.
Proof.
  eapply (instantiate_keeps_ok Demo.E 500%N 1002%N 7%N 8%N Demo.s_raw
            (Proc.Build 13%N Demo.raw 3 NULL NULL 41%N 0%N) 1003%N);
    [apply s_raw_ok|apply s_raw_parents|by vm_compute|by vm_compute].
Qed.

Lemma map_proc_cmp_total_order_witness :
  map_proc_cmp (find_key Demo.E Demo.sql) (find_key Demo.E Demo.sql) = 0 /\
  map_proc_cmp (find_key Demo.E Demo.sqlite) (find_key Demo.E Demo.sql) =
    - map_proc_cmp (find_key Demo.E Demo.sql) (find_key Demo.E Demo.sqlite) /\
  (map_proc_cmp (find_key Demo.E Demo.sql) (find_key Demo.E Demo.sqlite) <= 0 ->
   map_proc_cmp (find_key Demo.E Demo.sqlite) (find_key Demo.E Demo.long_x) <= 0 ->
   map_proc_cmp (find_key Demo.E Demo.sql) (find_key Demo.E Demo.long_x) <= 0).
Proof.
  apply (map_proc_cmp_total_order (find_key Demo.E Demo.sql)
           (find_key Demo.E Demo.sqlite) (find_key Demo.E Demo.long_x)).
  - split; [vm_compute; reflexivity|vm_compute; reflexivity].
  - split; [vm_compute; reflexivity|vm_compute; reflexivity].
  - split; [vm_compute; reflexivity|vm_compute; reflexivity].
Defined.

Lemma map_proc_register_then_find_witness :
  exists p d,
    map_proc_find Demo.E Demo.sql Demo.s_sql = Done p Demo.s_sql /\ p <> NULL /\
    proc_at (heap Demo.s_sql) p = Some d /\
    Proc.mod_inst d = 10%N /\ Proc.evaluate d = 20%N /\
    Proc.escape d = 21%N /\ Proc.instantiate d = NULL /\
    Proc.inst_size d = 16%N /\
    map_proc_find Demo.E (Proc.name d) Demo.s_sql = Done p Demo.s_sql.
Proof.
  apply (map_proc_register_then_find Demo.E (demo_name_fits false)
           10%N Demo.sql 20%N 21%N NULL 16%N (Demo.boot []) Demo.s_sql).
  - apply boot_ok.
  - vm_compute. reflexivity.
Defined.

Lemma map_proc_register_frame_witness :
  exists q,
    map_proc_find Demo.E Demo.sql Demo.s_sql = Done q Demo.s_sql /\
    map_proc_find Demo.E Demo.sql Demo.s_both = Done q Demo.s_both /\
    heap Demo.s_both !! q = heap Demo.s_sql !! q /\
    log Demo.s_both = log Demo.s_sql /\ world Demo.s_both = world Demo.s_sql.
Proof.
  apply (map_proc_register_frame Demo.E (demo_name_fits false)
           11%N Demo.sqlite 30%N 31%N 32%N 8%N Demo.s_sql Demo.s_both Demo.sql).
  - apply s_sql_ok.
  - vm_compute. reflexivity.
  - vm_compute. discriminate.
Defined.

Lemma map_proc_register_keeps_invariant_witness :
  (-1 = 0 \/ -1 = -1) /\
  registry_ok (Demo.state_of
                 (map_proc_register Demo.E 12%N [x61] 40%N 41%N 42%N 4%N Demo.s_low)
                 Demo.s_low).
Proof.
  apply (map_proc_register_keeps_invariant Demo.E (demo_name_fits false)
           12%N [x61] 40%N 41%N 42%N 4%N Demo.s_low).
  - apply s_low_ok.
  - apply s_low_parents.
  - vm_compute. reflexivity.
Defined.

Lemma map_proc_register_failure_unwinds_witness :
  exists s',
    map_proc_register Demo.E 12%N [x61] 40%N 41%N 42%N 4%N
                      (Demo.boot [true; true; false]) = Done (-1) s' /\
    heap s' = heap (Demo.boot [true; true; false]) /\
    (forall name', exists q,
       map_proc_find Demo.E name' (Demo.boot [true; true; false]) =
         Done q (Demo.boot [true; true; false]) /\
       map_proc_find Demo.E name' s' = Done q s') /\
    map_proc_root (Demo.boot [true; true; false]) = None /\
    map_proc_root s' = Some (Tree true []).
Proof.
  exists (Demo.state_of
            (map_proc_register Demo.E 12%N [x61] 40%N 41%N 42%N 4%N
               (Demo.boot [true; true; false]))
            (Demo.boot [])).
  destruct (map_proc_register_failure_unwinds Demo.E (demo_name_fits false)
              12%N [x61] 40%N 41%N 42%N 4%N (Demo.boot [true; true; false])
              (Demo.state_of
                 (map_proc_register Demo.E 12%N [x61] 40%N 41%N 42%N 4%N
                    (Demo.boot [true; true; false]))
                 (Demo.boot [])) (-1)
              (boot_ok [true; true; false]) (boot_parents [true; true; false]))
    as (_ & Hheap & Hfind & _ & _ & Hroot).
  - vm_compute. reflexivity.
  - vm_compute. discriminate.
  - split; [vm_compute; reflexivity|].
    exact (conj Hheap (conj Hfind (conj eq_refl Hroot))).
Defined.

Lemma map_proc_free_then_register_witness :
  exists s',
    (map_proc_free ;;
     map_proc_register Demo.E 12%N Demo.sql 40%N 41%N 42%N 4%N)%C Demo.s_both =
      Done 0 s' /\
    map_proc_find Demo.E Demo.sql s' = Done (brk Demo.s_both) s' /\
    (forall q c, heap Demo.s_both !! q = Some c ->
                 q <> brk Demo.s_both /\ heap s' !! q = Some c) /\
    (forall name',
       strlcpy name' (FR_MAX_STRING_LEN Demo.E) <>
         strlcpy Demo.sql (FR_MAX_STRING_LEN Demo.E) ->
       map_proc_find Demo.E name' s' = Done NULL s').
Proof.
  apply (map_proc_free_then_register Demo.E (demo_name_fits false)
           12%N Demo.sql 40%N 41%N 42%N 4%N Demo.s_both).
  - apply s_both_ok.
  - right. vm_compute. discriminate.
  - unfold memory_available. vm_compute. constructor.
Defined.

Lemma map_proc_unregister_by_name_witness :
  exists s1 s2,
    (map_proc_free ;;
     map_proc_register Demo.E 12%N Demo.sql 40%N 41%N 42%N 4%N)%C Demo.s_both =
      Done 0 s1 /\
    map_proc_find Demo.E Demo.sql s1 = Done 1002%N s1 /\
    _map_proc_unregister Demo.E 1000%N s1 = Done 0 s2 /\
    map_proc_find Demo.E Demo.sql s2 = Done NULL s2.
Proof.
  destruct (map_proc_unregister_by_name Demo.E (demo_name_fits false)
              12%N 40%N 41%N 42%N 4%N Demo.s_both 1000%N
              (Proc.Build 10%N Demo.sql 3 20%N NULL 21%N 16%N) s_both_ok)
    as (s1 & s2 & Hrun & Hfind & _ & Hun & Hgone).
  - vm_compute. reflexivity.
  - right. vm_compute. discriminate.
  - unfold memory_available. vm_compute. constructor.
  - exists s1, s2. exact (conj Hrun (conj Hfind (conj Hun Hgone))).
Defined.

Lemma map_proc_register_then_unregister_witness :
  exists p s'',
    map_proc_find Demo.E Demo.sqlite Demo.s_both = Done p Demo.s_both /\ p <> NULL /\
    _map_proc_unregister Demo.E p Demo.s_both = Done 0 s'' /\
    map_proc_root s'' = Some (Tree true [1000%N]) /\
    heap s'' = heap Demo.s_both /\
    is_Some (proc_at (heap s'') p) /\
    (forall name', exists q,
       map_proc_find Demo.E name' Demo.s_sql = Done q Demo.s_sql /\
       map_proc_find Demo.E name' s'' = Done q s'').
Proof.
  apply (map_proc_register_then_unregister Demo.E (demo_name_fits false)
           11%N Demo.sqlite 30%N 31%N 32%N 8%N Demo.s_sql Demo.s_both
           (Tree true [1000%N])).
  - apply s_sql_ok.
  - vm_compute. reflexivity.
  - vm_compute. reflexivity.
  - vm_compute. reflexivity.
Defined.

Lemma map_proc_register_last_wins_witness :
  exists s1 s2 p d,
    map_proc_register Demo.E 10%N Demo.long_x 20%N 21%N NULL 0%N (Demo.boot []) =
      Done 0 s1 /\
    map_proc_register Demo.E 11%N Demo.long_y 30%N 31%N 32%N 8%N s1 = Done 0 s2 /\
    map_proc_find Demo.E Demo.long_x s2 = Done p s2 /\
    map_proc_find Demo.E Demo.long_y s2 = Done p s2 /\
    proc_at (heap s2) p = Some d /\ Proc.mod_inst d = 11%N /\ brk s2 = brk s1.
Proof.
  pose (s1 := Demo.state_of
                (map_proc_register Demo.E 10%N Demo.long_x 20%N 21%N NULL 0%N
                   (Demo.boot [])) (Demo.boot [])).
  pose (s2 := Demo.state_of
                (map_proc_register Demo.E 11%N Demo.long_y 30%N 31%N 32%N 8%N s1) s1).
  assert (map_proc_register Demo.E 10%N Demo.long_x 20%N 21%N NULL 0%N (Demo.boot []) =
            Done 0 s1) as Hr1 by (vm_compute; reflexivity).
  assert (map_proc_register Demo.E 11%N Demo.long_y 30%N 31%N 32%N 8%N s1 =
            Done 0 s2) as Hr2 by (vm_compute; reflexivity).
  destruct (map_proc_register_last_wins Demo.E (demo_name_fits false)
              10%N Demo.long_x 20%N 21%N NULL 0%N
              11%N Demo.long_y 30%N 31%N 32%N 8%N (Demo.boot []) s1 s2
              (boot_ok []))
    as (p & d & _ & _ & Hx & Hy & Hd & Hmod & _ & _ & _ & _ & Hbrk & _).
  - vm_compute. reflexivity.
  - exact Hr1.
  - exact Hr2.
  - exists s1, s2, p, d.
    exact (conj Hr1 (conj Hr2 (conj Hx (conj Hy (conj Hd (conj Hmod Hbrk)))))).
Defined.

Lemma map_proc_register_ownership_witness :
  exists p c',
    map_proc_find Demo.E Demo.sql Demo.s_sql = Done p Demo.s_sql /\
    heap Demo.s_sql !! p = Some c' /\
    (forall q, q <> p -> heap Demo.s_sql !! q = heap (Demo.boot []) !! q) /\
    match heap (Demo.boot []) !! p with
    | Some c =>
        map_proc_find Demo.E Demo.sql (Demo.boot []) = Done p (Demo.boot []) /\
        brk Demo.s_sql = brk (Demo.boot []) /\
        script Demo.s_sql = script (Demo.boot []) /\
        map_proc_root Demo.s_sql = map_proc_root (Demo.boot []) /\
        c_parent c' = c_parent c /\ c_destructor c' = c_destructor c
    | None =>
        map_proc_find Demo.E Demo.sql (Demo.boot []) = Done NULL (Demo.boot []) /\
        p = brk (Demo.boot []) /\ brk Demo.s_sql = N.succ (brk (Demo.boot [])) /\
        script Demo.s_sql = match map_proc_root (Demo.boot []) with
                            | Some _ => tl (tl (script (Demo.boot [])))
                            | None => tl (tl (tl (script (Demo.boot []))))
                            end /\
        (exists t', map_proc_root Demo.s_sql = Some t' /\ p ∈ rb_nodes t') /\
        c_parent c' = 10%N /\ c_destructor c' = true
    end.
Proof.
  apply (map_proc_register_ownership Demo.E (demo_name_fits false)
           10%N Demo.sql 20%N 21%N NULL 16%N (Demo.boot []) Demo.s_sql).
  - apply boot_ok.
  - vm_compute. reflexivity.
Defined.

Lemma map_proc_instantiate_calls_hook_witness :
  (log (Demo.s_inst 7%N) = log Demo.s_both /\
   world (Demo.s_inst 7%N) = world Demo.s_both /\
   (32%N = NULL /\ 1002%N <> NULL \/
    32%N <> NULL /\ 1002%N = NULL /\
    (0 < 8)%N /\ hd true (tl (script Demo.s_both)) = false)) \/
  (32%N <> NULL /\
   log (Demo.s_inst 7%N) = log Demo.s_both ++ [EvInstantiate 32%N 1003%N 11%N 7%N 8%N] /\
   exists rc,
     call_instantiate Demo.E 32%N 1003%N 11%N 7%N 8%N (world Demo.s_both) =
       (rc, world (Demo.s_inst 7%N)) /\
     (1002%N = NULL <-> rc < 0) /\
     (1002%N <> NULL ->
      inst_at (heap (Demo.s_inst 7%N)) 1002%N =
        Some (Inst.Build 1001%N 7%N 8%N 1003%N))).
Proof.
  apply (map_proc_instantiate_calls_hook Demo.E 500%N 1001%N 7%N 8%N Demo.s_both
           (Proc.Build 11%N Demo.sqlite 6 30%N 32%N 31%N 8%N) 1002%N (Demo.s_inst 7%N)).
  - apply s_both_ok.
  - vm_compute. reflexivity.
  - vm_compute. reflexivity.
Defined.

Lemma map_proc_instantiate_failure_unwinds_witness :
  exists s',
    map_proc_instantiate Demo.E 500%N 1002%N 7%N 8%N Demo.s_fail = Done NULL s' /\
    heap s' = heap Demo.s_fail /\ map_proc_root s' = map_proc_root Demo.s_fail /\
    (brk Demo.s_fail < brk s')%N.
Proof.
  exists (Demo.state_of
            (map_proc_instantiate Demo.E 500%N 1002%N 7%N 8%N Demo.s_fail) Demo.s_fail).
  destruct (map_proc_instantiate_failure_unwinds Demo.E 500%N 1002%N 7%N 8%N
              Demo.s_fail (Proc.Build 12%N Demo.fail 4 40%N 66%N 41%N 4%N)
              (Demo.state_of
                 (map_proc_instantiate Demo.E 500%N 1002%N 7%N 8%N Demo.s_fail)
                 Demo.s_fail) s_fail_ok s_fail_parents)
    as (Hheap & Hroot & Hbrk & _).
  - vm_compute. reflexivity.
  - unfold memory_available. vm_compute. constructor.
  - vm_compute. reflexivity.
  - split; [vm_compute; reflexivity|]. exact (conj Hheap (conj Hroot Hbrk)).
Defined.

Lemma map_proc_instantiate_keeps_registry_witness :
  registry_ok (Demo.s_inst 7%N) /\
  (forall q c, heap Demo.s_both !! q = Some c -> heap (Demo.s_inst 7%N) !! q = Some c) /\
  (forall name, exists q,
     map_proc_find Demo.E name Demo.s_both = Done q Demo.s_both /\
     map_proc_find Demo.E name (Demo.s_inst 7%N) = Done q (Demo.s_inst 7%N)) /\
  evaluate_calls (log (Demo.s_inst 7%N)) = evaluate_calls (log Demo.s_both) /\
  (1002%N <> NULL ->
   heap Demo.s_both !! 1002%N = None /\
   is_Some (inst_at (heap (Demo.s_inst 7%N)) 1002%N)).
Proof.
  apply (map_proc_instantiate_keeps_registry Demo.E (demo_name_fits false)
           500%N 1001%N 7%N 8%N Demo.s_both
           (Proc.Build 11%N Demo.sqlite 6 30%N 32%N 31%N 8%N)).
  - apply s_both_ok.
  - apply s_both_parents.
  - vm_compute. reflexivity.
  - vm_compute. reflexivity.
Defined.

Lemma map_proc_releases_expansion_witness :
  exists s',
    map_proc Demo.E 1%N 1002%N (Demo.s_inst 7%N) = Done RLM_MODULE_OK s' /\
    heap s' = heap (Demo.s_inst 7%N) /\
    map_proc_root s' = map_proc_root (Demo.s_inst 7%N) /\
    registry_ok s' /\
    evaluate_calls (log s') = S (evaluate_calls (log (Demo.s_inst 7%N))).
Proof.
  exists (Demo.state_of (map_proc Demo.E 1%N 1002%N (Demo.s_inst 7%N))
                        (Demo.s_inst 7%N)).
  destruct (map_proc_releases_expansion Demo.E 1%N 1002%N (Demo.s_inst 7%N)
              RLM_MODULE_OK
              (Demo.state_of (map_proc Demo.E 1%N 1002%N (Demo.s_inst 7%N))
                             (Demo.s_inst 7%N))
              (s_inst_ok 7%N) s_inst_parents)
    as (Hheap & Hroot & Hok & _ & _ & Hcalls).
  - vm_compute. reflexivity.
  - split; [vm_compute; reflexivity|].
    refine (conj Hheap (conj Hroot (conj Hok (Hcalls _)))). discriminate.
Defined.

Lemma map_proc_null_evaluate_witness :
  map_proc Demo.E 1%N 1003%N Demo.s_raw_inst = Fault SIGSEGV.
Proof.
  apply (map_proc_null_evaluate Demo.E 1%N 1003%N Demo.s_raw_inst
           (Inst.Build 1002%N 7%N 8%N NULL)
           (Proc.Build 13%N Demo.raw 3 NULL NULL 41%N 0%N) Demo.select_1).
  - apply s_raw_inst_ok.
  - vm_compute. reflexivity.
  - vm_compute. reflexivity.
  - reflexivity.
  - vm_compute. reflexivity.
  - vm_compute. reflexivity.
Defined.

Lemma map_proc_register_instantiate_evaluate_witness :
  exists s',
    (map_proc_register Demo.E 10%N Demo.sql 20%N 21%N NULL 16%N ;;
     let* proc := map_proc_find Demo.E Demo.sql in
     let* inst := map_proc_instantiate Demo.E 500%N proc 7%N 8%N in
     map_proc Demo.E 1%N inst)%C (Demo.boot []) = Done RLM_MODULE_OK s' /\
    log s' = [EvEvaluate 20%N 10%N NULL 1%N Demo.select_1 8%N].
Proof.
  destruct (map_proc_register_instantiate_evaluate Demo.E (demo_name_fits false)
              10%N Demo.sql 20%N 21%N 16%N 500%N 7%N 8%N 1%N (Demo.boot [])
              Demo.select_1 O (boot_ok []) (boot_parents []))
    as (s' & Hrun & Hlog & _).
  - vm_compute. reflexivity.
  - vm_compute. reflexivity.
  - right. vm_compute. discriminate.
  - unfold memory_available. vm_compute. constructor.
  - vm_compute. discriminate.
  - vm_compute. reflexivity.
  - exists s'. exact (conj Hrun Hlog).
Defined.
